(** * BitMappery: the layer paint controller and its geometry helpers

    A shallow embedding of
      - [src/math/unit-math.js]   ([fastRound]),
      - [src/math/image-math.js]  ([scaleToRatio], [constrain]),
      - [src/rendering/canvas-elements/layer-sprite.js] (the [LayerSprite]
        class: tool activation, pointer handlers, the stroke-paint
        procedure and the debounced snapshot commit),
    followed by the properties the specification states about them; then
    of the rest of these files (the orientation tests, the history
    closures of the sprite) and of
      - [src/utils/document-util.js] ([sliceTiles], [tilesToSingle],
        [renderFullSize], [getAlignableObjects]),
      - [src/store/index.js] (the mutations of the root store),
      - the preferences module of the store,
    followed by further properties that the code shows.

    Numbers.  JavaScript numbers are modelled by exact arithmetic: rationals
    ([Q]) where the code only adds, multiplies, divides and compares, and
    real numbers ([R]) where it takes square roots.  Overflow to infinity,
    NaN and binary64 rounding are outside that model; the 32-bit wrap-around
    of [<< 0] and [| 0] is written out.  [Binary64] has [fastRound] and
    [constrain] once more on IEEE 754 binary64 numbers, to evaluate them as
    the engine does.

    Collaborators.  Modules that the sources import and that are not among
    them are parameters ([Helpers]) or, where a property depends on what
    they do, definitions modelled from the specification and marked so
    ([canvasToBlob], [snapSpriteToGuide]). *)

From Stdlib Require Import ZArith QArith Qround Lqa List String Bool Lia.
From Stdlib Require Import Reals Lra Zfloor R_sqrt.
From Stdlib Require Floats.
Import ListNotations.

Set Implicit Arguments.

(* ------------------------------------------------------------------ *)
(** ** JavaScript comparisons and remainder on rationals *)

Module JsNumber.

Definition Qgt_bool (a b : Q) : bool := negb (Qle_bool a b).
Definition Qlt_bool (a b : Q) : bool := negb (Qle_bool b a).

(** Truncation towards zero. *)
Definition Qtruncate (q : Q) : Z :=
  if Qlt_bool q 0 then Qceiling q else Qfloor q.

(** [a % b]: the remainder has the sign of the dividend. *)
Definition remainder (a b : Q) : Q :=
  (a - b * inject_Z (Qtruncate (a / b)))%Q.

End JsNumber.

(* ------------------------------------------------------------------ *)
(** ** unit-math.js *)

Module UnitMath.

Local Open Scope R_scope.

(** ECMAScript [ToInt32] on an integer: reduction modulo 2^32 into the
    signed range. *)
Definition toInt32 (z : Z) : Z :=
  ((z + 2147483648) mod 4294967296 - 2147483648)%Z.

(** Truncation of a real towards zero (the first step of [ToInt32]). *)
Definition truncate (x : R) : Z :=
  if Rlt_dec x 0 then Zceil x else Zfloor x.

(** [num << 0] and [num | 0] both are [ToInt32 num]. *)
Definition shl0 (x : R) : R := IZR (toInt32 (truncate x)).

(** [fastRound = num => num > 0 ? ( num + .5 ) << 0 : num | 0] *)
Definition fastRound (num : R) : R :=
  if Rgt_dec num 0 then shl0 (num + 5 / 10) else shl0 num.

End UnitMath.

(* ------------------------------------------------------------------ *)
(** ** image-math.js *)

Module ImageMath.

Import JsNumber.

Record Size (A : Type) := { width : A; height : A }.

Section ScaleToRatio.
Local Open Scope Q_scope.

(** [scaleToRatio( imageWidth, imageHeight, destWidth, destHeight )].
    The local [ratio] is kept although the result only uses [height]. *)
Definition scaleToRatio (imageWidth imageHeight destWidth destHeight : Q)
  : Size Q :=
  let ratio  := 1 in
  let height := destHeight in
  let '(ratio, height) :=
    if Qgt_bool imageWidth imageHeight then
      let ratio := imageHeight / imageWidth in (ratio, destWidth * ratio)
    else if Qgt_bool imageHeight imageWidth then
      let ratio := imageHeight / imageWidth in (ratio, destWidth * ratio)
    else if Qeq_bool imageHeight imageWidth then
      (ratio, destWidth)
    else (ratio, height) in
  if Qlt_bool height destHeight then
    let destWidth := destWidth * (destHeight / height) in
    let height    := destHeight in
    {| width := destWidth; height := height |}
  else
    {| width := destWidth; height := height |}.

End ScaleToRatio.

Section Constrain.
Local Open Scope R_scope.

(** [constrain( width, height, maxMegaPixel )] *)
Definition constrain (width height maxMegaPixel : R) : Size R :=
  let megaPixel := width * height in
  if Rgt_dec megaPixel maxMegaPixel then
    let ratio  := sqrt maxMegaPixel / sqrt megaPixel in
    let width  := UnitMath.fastRound (width  * ratio) in
    let height := UnitMath.fastRound (height * ratio) in
    {| width := width; height := height |}
  else
    {| width := width; height := height |}.

End Constrain.

End ImageMath.

(* ------------------------------------------------------------------ *)
(** ** unit-math.js and image-math.js in binary64 *)

(** [fastRound] and [constrain] on the numbers of the engine: binary64
    floating point, with the operations of IEEE 754 ([Math.sqrt] being its
    correctly rounded square root).  [fastRound64] and [constrain64] embed
    the same two source functions as [UnitMath.fastRound] and
    [ImageMath.constrain]. *)
Module Binary64.

Import ImageMath PrimFloat.

(** Truncation of a binary64 number towards zero, and 0 for NaN, the
    infinities and the zeros (the first step of [ToInt32]). *)
Definition truncate64 (x : PrimFloat.float) : Z :=
  match FloatOps.Prim2SF x with
  | SpecFloat.S754_finite s m e =>
      let a := Z.shiftl (Zpos m) e in
      if s then (- a)%Z else a
  | _ => 0%Z
  end.

(** A 32-bit integer as a binary64 number. *)
Definition of_int32 (z : Z) : PrimFloat.float :=
  if (z <? 0)%Z
  then PrimFloat.opp (PrimFloat.of_uint63 (Uint63.of_Z (- z)))
  else PrimFloat.of_uint63 (Uint63.of_Z z).

(** [num << 0] and [num | 0] both are [ToInt32 num]. *)
Definition shl0_64 (x : PrimFloat.float) : PrimFloat.float :=
  of_int32 (UnitMath.toInt32 (truncate64 x)).

(** [fastRound = num => num > 0 ? ( num + .5 ) << 0 : num | 0] *)
Definition fastRound64 (num : PrimFloat.float) : PrimFloat.float :=
  if PrimFloat.ltb 0%float num
  then shl0_64 (PrimFloat.add num 0.5%float)
  else shl0_64 num.

(** [constrain( width, height, maxMegaPixel )] *)
Definition constrain64 (width height maxMegaPixel : PrimFloat.float)
  : Size PrimFloat.float :=
  let megaPixel := PrimFloat.mul width height in
  if PrimFloat.ltb maxMegaPixel megaPixel then
    let ratio  := PrimFloat.div (PrimFloat.sqrt maxMegaPixel)
                    (PrimFloat.sqrt megaPixel) in
    let width  := fastRound64 (PrimFloat.mul width  ratio) in
    let height := fastRound64 (PrimFloat.mul height ratio) in
    {| width := width; height := height |}
  else
    {| width := width; height := height |}.

End Binary64.

(* ------------------------------------------------------------------ *)
(** ** layer-sprite.js: data *)

Module LayerSprite.

Local Open Scope Q_scope.
Local Open Scope string_scope.

(** A pointer sample or an anchor, [{ x, y }]. *)
Record Point := mkPoint { px : Q; py : Q }.

Record Rectangle := { rleft : Q; rtop : Q; rwidth : Q; rheight : Q }.

(** An alignment guide of the zCanvas, [{ x, y, width, height }]. *)
Record Guide := { gx : Q; gy : Q; gwidth : Q; gheight : Q }.

(** The tool constants of [definitions/tool-types] that the sources and the
    unit test name; every other tool takes the [default:] branch of
    [handleActiveTool], as [MOVE] and [ZOOM] do. *)
Inductive ToolTypes :=
  MOVE | ZOOM | DRAG | FILL | ERASER | BRUSH | CLONE | EYEDROPPER.

Definition tool_eqb (a b : ToolTypes) : bool :=
  match a, b with
  | MOVE, MOVE | ZOOM, ZOOM | DRAG, DRAG | FILL, FILL | ERASER, ERASER
  | BRUSH, BRUSH | CLONE, CLONE | EYEDROPPER, EYEDROPPER => true
  | _, _ => false
  end.

(** [this._toolType === tool], on a tool type that may be [null]. *)
Definition toolIs (t : option ToolTypes) (tool : ToolTypes) : bool :=
  match t with Some t' => tool_eqb t' tool | None => false end.

(** A tool options object.  These objects belong to the store's tool module
    and are shared by reference: the sprite ([_toolOptions]) and its brush
    ([options]) point at the same object, so they live in a heap. *)
Record ToolOptions := {
  size          : option Q;
  opacity       : option Q;
  strokes       : option Q;
  smartFill     : bool;
  coords        : option Point;
  sourceLayerId : option string
}.

Definition Ref := nat.
Definition Heap := Ref -> ToolOptions.

Definition heap_set (h : Heap) (r : Ref) (o : ToolOptions) : Heap :=
  fun r' => if Nat.eqb r' r then o else h r'.

Definition set_coords (o : ToolOptions) (c : option Point) : ToolOptions :=
  {| size := size o; opacity := opacity o; strokes := strokes o;
     smartFill := smartFill o; coords := c;
     sourceLayerId := sourceLayerId o |}.

(** What a brush's [options] field points at: the tool options object given
    to [cacheBrush], or the object literal of [cacheBrush]'s default
    parameter. *)
Inductive BrushOptions :=
| OptionsOf (r : Ref)
| OptionsLiteral (o : ToolOptions).

(** The brush state object built by [BrushFactory.create]. *)
Record Brush := {
  color    : string;
  radius   : option Q;
  pointers : list Point;
  down     : bool;
  last     : nat;
  options  : BrushOptions
}.

Definition brush_with (b : Brush) (ps : list Point) (d : bool) (l : nat)
  : Brush :=
  {| color := color b; radius := radius b; pointers := ps; down := d;
     last := l; options := options b |}.

Record Effects := {
  rotation : Q;
  scale    : Q;
  mirrorX  : bool;
  mirrorY  : bool
}.

(** A canvas element, by its size; its pixels are the drawing calls made
    on its context (see [Event]). *)
Record CanvasElement := { cwidth : Q; cheight : Q }.

Record Layer := {
  id      : string;
  left    : Q;
  top     : Q;
  source  : CanvasElement;
  mask    : option CanvasElement;
  maskX   : Q;
  maskY   : Q;
  effects : Effects
}.

Definition layer_with_mask_offset (l : Layer) (mx my : Q) : Layer :=
  {| id := id l; left := left l; top := top l; source := source l;
     mask := mask l; maskX := mx; maskY := my; effects := effects l |}.

(** The active document, as [handleActiveTool] and [setSelection] read it. *)
Record Document := {
  selection       : option (list Point);
  invertSelection : bool
}.

(** The optional action of [paint( optAction )]. *)
Record Action := {
  atype      : string;
  acolor     : string;
  asize      : option Q;
  aselection : option (list Point)
}.

(** The override configuration of the low resolution preview
    ([createOverrideConfig( canvas, pointers )]), by the pointers it holds. *)
Record Overrides := { opointers : list Point }.

(** The drawing contexts [paint] works on. *)
Inductive Ctx :=
| SourceCtx    (* this.layer.source.getContext( "2d" ) *)
| MaskCtx      (* this.layer.mask.getContext( "2d" ) *)
| TempCtx      (* this.tempCanvas.ctx *)
| ScratchCtx.  (* createCanvas( width, height ).ctx *)

Definition ctx_eqb (a b : Ctx) : bool :=
  match a, b with
  | SourceCtx, SourceCtx | MaskCtx, MaskCtx | TempCtx, TempCtx
  | ScratchCtx, ScratchCtx => true
  | _, _ => false
  end.

(** Calls on a drawing context, including the rendering services that
    receive the context as their first argument. *)
Inductive CtxOp :=
| Save
| Restore
| ClipContextToSelection (pts : list Point) (l t : Q) (invert : bool)
                         (ov : option Overrides)
| SetStrokeStyle (c : string)
| SetLineWidth (q : Q)
| Stroke
| FloodFill (x y : Q) (c : string)
| SetFillStyle (c : string)
| Fill
| FillRect (x y w h : Q)
| ClosePath
| RenderClonedStroke (b : Brush) (sourceLayer : option string)
                     (pts : list Point)
| RenderBrushStroke (b : Brush) (ov : option Overrides)
| Scale (sx sy : Q)
| SetGlobalAlpha (a : option Q)
| SetGlobalCompositeOperation (op : string)
| DrawImage (src : Ctx) (x y : Q).

Definition TimerId := positive.

(** Calls to collaborators, in program order. *)
Inductive Event :=
| CtxCall (c : Ctx) (op : CtxOp)
| CanvasToBlob
| SetTimeout (t : TimerId) (delay : Z)
| ClearTimeout (t : TimerId)
| EnqueueState (key : string)
| DisposeTempCanvas
| GetTempCanvas
| CreateCanvas (w h : Q)
| SetBitmap (c : Ctx)
| ClearCacheProperty (prop : string)
| SetLock (b : bool)
| RequestAnimationFrame
| RenderEffectsForLayer
| Invalidate
| SuperHandleMove (x y : Q)
| SnapSpriteToGuide
| CommitSetActiveColor (c : string).

(** An encoded copy of the layer source: the drawing calls its context had
    received when the copy was requested. *)
Definition Resource := list CtxOp.

(** The entries handed to [enqueueState]. *)
Inductive HistoryEntry :=
| SpritePaint (layerId : string) (orgState : option Resource)
              (newState : Resource)
| MaskPos (layerId : string) (oldX oldY newX newY : Q).

Definition key (e : HistoryEntry) : string :=
  match e with
  | SpritePaint i _ _ => "spritePaint_" ++ i
  | MaskPos i _ _ _ _ => "maskPos_" ++ i
  end.

(** Continuations waiting for a promise or an animation frame. *)
Inductive Job :=
| StoreOrgSource (blob : Resource)
    (* blob => this._orgSourceToStore = blobToResource( blob ) *)
| CommitPaintState (layerId : string) (orgState : option Resource)
                   (blob : Resource)
    (* blob => enqueueState( `spritePaint_${layer.id}`, ... ) *)
| RenderEffects.
    (* await renderEffectsForLayer(); this._rafFx = false; setLock( false ) *)

Inductive ActionTarget := TargetSource | TargetMask.

(** The fields of a [LayerSprite] (and of the zCanvas sprite it extends)
    that the modelled methods read or write. *)
Record Sprite := {
  layer                      : Layer;
  _bounds                    : Rectangle;
  _interactive               : bool;
  _draggable                 : bool;
  isDragging                 : bool;
  _dragStartOffset           : option Point;
  _dragStartEventCoordinates : option Point;
  _pointerX                  : Q;
  _pointerY                  : Q;
  _brush                     : Brush;
  actionTarget               : ActionTarget;
  _selection                 : option (list Point);
  _invertSelection           : bool;
  _isPaintMode               : bool;
  _isDragMode                : bool;
  _isColorPicker             : bool;
  _toolType                  : option ToolTypes;
  _toolOptions               : option Ref;
  _cloneStartCoords          : option Point;
  _pendingPaintState         : option TimerId;
  _orgSourceToStore          : option Resource;
  tempCanvas                 : bool;
  _rafFx                     : bool
}.

(** [preferences] of the preferences store module. *)
Record Preferences := {
  lowMemory   : bool;
  wasmFilters : bool;
  snapAlign   : bool;
  antiAlias   : bool
}.

(** The getters of the store that the sprite reads. *)
Record Store := {
  activeColor       : string;
  activeLayerMask   : option string;  (* id of the layer whose mask is edited *)
  preferences       : Preferences;
  getters_snapAlign : bool
}.

(** The zCanvas the sprite is on. *)
Record ZCanvas := {
  documentScale  : Q;
  draggingSprite : option string; (* id of the layer of the dragged sprite *)
  guides         : list Guide
}.

(** The sprite with everything it shares with its surroundings.  [paintCalls]
    is a ghost counter of the invocations of [paint]; no code reads it. *)
Record World := {
  sprite     : Sprite;
  heap       : Heap;
  store      : Store;
  canvas     : ZCanvas;
  registered : bool;   (* getSpriteForLayer( layer ) is this sprite *)
  timers     : list (TimerId * Z);
  nextTimer  : TimerId;
  jobs       : list Job;
  history    : list HistoryEntry;
  log        : list Event;
  paintCalls : nat
}.

(** Field updates ([this.f = v]). *)

Definition set_layer (v : Layer) (s : Sprite) : Sprite :=
  {| layer := v; _bounds := _bounds s; _interactive := _interactive s;
     _draggable := _draggable s; isDragging := isDragging s;
     _dragStartOffset := _dragStartOffset s;
     _dragStartEventCoordinates := _dragStartEventCoordinates s;
     _pointerX := _pointerX s; _pointerY := _pointerY s; _brush := _brush s;
     actionTarget := actionTarget s; _selection := _selection s;
     _invertSelection := _invertSelection s; _isPaintMode := _isPaintMode s;
     _isDragMode := _isDragMode s; _isColorPicker := _isColorPicker s;
     _toolType := _toolType s; _toolOptions := _toolOptions s;
     _cloneStartCoords := _cloneStartCoords s;
     _pendingPaintState := _pendingPaintState s;
     _orgSourceToStore := _orgSourceToStore s; tempCanvas := tempCanvas s;
     _rafFx := _rafFx s |}.

Definition set_bounds (v : Rectangle) (s : Sprite) : Sprite :=
  {| layer := layer s; _bounds := v; _interactive := _interactive s;
     _draggable := _draggable s; isDragging := isDragging s;
     _dragStartOffset := _dragStartOffset s;
     _dragStartEventCoordinates := _dragStartEventCoordinates s;
     _pointerX := _pointerX s; _pointerY := _pointerY s; _brush := _brush s;
     actionTarget := actionTarget s; _selection := _selection s;
     _invertSelection := _invertSelection s; _isPaintMode := _isPaintMode s;
     _isDragMode := _isDragMode s; _isColorPicker := _isColorPicker s;
     _toolType := _toolType s; _toolOptions := _toolOptions s;
     _cloneStartCoords := _cloneStartCoords s;
     _pendingPaintState := _pendingPaintState s;
     _orgSourceToStore := _orgSourceToStore s; tempCanvas := tempCanvas s;
     _rafFx := _rafFx s |}.

Definition set_interactive (v : bool) (s : Sprite) : Sprite :=
  {| layer := layer s; _bounds := _bounds s; _interactive := v;
     _draggable := _draggable s; isDragging := isDragging s;
     _dragStartOffset := _dragStartOffset s;
     _dragStartEventCoordinates := _dragStartEventCoordinates s;
     _pointerX := _pointerX s; _pointerY := _pointerY s; _brush := _brush s;
     actionTarget := actionTarget s; _selection := _selection s;
     _invertSelection := _invertSelection s; _isPaintMode := _isPaintMode s;
     _isDragMode := _isDragMode s; _isColorPicker := _isColorPicker s;
     _toolType := _toolType s; _toolOptions := _toolOptions s;
     _cloneStartCoords := _cloneStartCoords s;
     _pendingPaintState := _pendingPaintState s;
     _orgSourceToStore := _orgSourceToStore s; tempCanvas := tempCanvas s;
     _rafFx := _rafFx s |}.

Definition set_draggable (v : bool) (s : Sprite) : Sprite :=
  {| layer := layer s; _bounds := _bounds s; _interactive := _interactive s;
     _draggable := v; isDragging := isDragging s;
     _dragStartOffset := _dragStartOffset s;
     _dragStartEventCoordinates := _dragStartEventCoordinates s;
     _pointerX := _pointerX s; _pointerY := _pointerY s; _brush := _brush s;
     actionTarget := actionTarget s; _selection := _selection s;
     _invertSelection := _invertSelection s; _isPaintMode := _isPaintMode s;
     _isDragMode := _isDragMode s; _isColorPicker := _isColorPicker s;
     _toolType := _toolType s; _toolOptions := _toolOptions s;
     _cloneStartCoords := _cloneStartCoords s;
     _pendingPaintState := _pendingPaintState s;
     _orgSourceToStore := _orgSourceToStore s; tempCanvas := tempCanvas s;
     _rafFx := _rafFx s |}.

Definition set_isDragging (v : bool) (s : Sprite) : Sprite :=
  {| layer := layer s; _bounds := _bounds s; _interactive := _interactive s;
     _draggable := _draggable s; isDragging := v;
     _dragStartOffset := _dragStartOffset s;
     _dragStartEventCoordinates := _dragStartEventCoordinates s;
     _pointerX := _pointerX s; _pointerY := _pointerY s; _brush := _brush s;
     actionTarget := actionTarget s; _selection := _selection s;
     _invertSelection := _invertSelection s; _isPaintMode := _isPaintMode s;
     _isDragMode := _isDragMode s; _isColorPicker := _isColorPicker s;
     _toolType := _toolType s; _toolOptions := _toolOptions s;
     _cloneStartCoords := _cloneStartCoords s;
     _pendingPaintState := _pendingPaintState s;
     _orgSourceToStore := _orgSourceToStore s; tempCanvas := tempCanvas s;
     _rafFx := _rafFx s |}.

Definition set_dragStartOffset (v : option Point) (s : Sprite) : Sprite :=
  {| layer := layer s; _bounds := _bounds s; _interactive := _interactive s;
     _draggable := _draggable s; isDragging := isDragging s;
     _dragStartOffset := v;
     _dragStartEventCoordinates := _dragStartEventCoordinates s;
     _pointerX := _pointerX s; _pointerY := _pointerY s; _brush := _brush s;
     actionTarget := actionTarget s; _selection := _selection s;
     _invertSelection := _invertSelection s; _isPaintMode := _isPaintMode s;
     _isDragMode := _isDragMode s; _isColorPicker := _isColorPicker s;
     _toolType := _toolType s; _toolOptions := _toolOptions s;
     _cloneStartCoords := _cloneStartCoords s;
     _pendingPaintState := _pendingPaintState s;
     _orgSourceToStore := _orgSourceToStore s; tempCanvas := tempCanvas s;
     _rafFx := _rafFx s |}.

Definition set_dragStartEventCoordinates (v : option Point) (s : Sprite) : Sprite :=
  {| layer := layer s; _bounds := _bounds s; _interactive := _interactive s;
     _draggable := _draggable s; isDragging := isDragging s;
     _dragStartOffset := _dragStartOffset s; _dragStartEventCoordinates := v;
     _pointerX := _pointerX s; _pointerY := _pointerY s; _brush := _brush s;
     actionTarget := actionTarget s; _selection := _selection s;
     _invertSelection := _invertSelection s; _isPaintMode := _isPaintMode s;
     _isDragMode := _isDragMode s; _isColorPicker := _isColorPicker s;
     _toolType := _toolType s; _toolOptions := _toolOptions s;
     _cloneStartCoords := _cloneStartCoords s;
     _pendingPaintState := _pendingPaintState s;
     _orgSourceToStore := _orgSourceToStore s; tempCanvas := tempCanvas s;
     _rafFx := _rafFx s |}.

Definition set_pointerX (v : Q) (s : Sprite) : Sprite :=
  {| layer := layer s; _bounds := _bounds s; _interactive := _interactive s;
     _draggable := _draggable s; isDragging := isDragging s;
     _dragStartOffset := _dragStartOffset s;
     _dragStartEventCoordinates := _dragStartEventCoordinates s;
     _pointerX := v; _pointerY := _pointerY s; _brush := _brush s;
     actionTarget := actionTarget s; _selection := _selection s;
     _invertSelection := _invertSelection s; _isPaintMode := _isPaintMode s;
     _isDragMode := _isDragMode s; _isColorPicker := _isColorPicker s;
     _toolType := _toolType s; _toolOptions := _toolOptions s;
     _cloneStartCoords := _cloneStartCoords s;
     _pendingPaintState := _pendingPaintState s;
     _orgSourceToStore := _orgSourceToStore s; tempCanvas := tempCanvas s;
     _rafFx := _rafFx s |}.

Definition set_pointerY (v : Q) (s : Sprite) : Sprite :=
  {| layer := layer s; _bounds := _bounds s; _interactive := _interactive s;
     _draggable := _draggable s; isDragging := isDragging s;
     _dragStartOffset := _dragStartOffset s;
     _dragStartEventCoordinates := _dragStartEventCoordinates s;
     _pointerX := _pointerX s; _pointerY := v; _brush := _brush s;
     actionTarget := actionTarget s; _selection := _selection s;
     _invertSelection := _invertSelection s; _isPaintMode := _isPaintMode s;
     _isDragMode := _isDragMode s; _isColorPicker := _isColorPicker s;
     _toolType := _toolType s; _toolOptions := _toolOptions s;
     _cloneStartCoords := _cloneStartCoords s;
     _pendingPaintState := _pendingPaintState s;
     _orgSourceToStore := _orgSourceToStore s; tempCanvas := tempCanvas s;
     _rafFx := _rafFx s |}.

Definition set_brush (v : Brush) (s : Sprite) : Sprite :=
  {| layer := layer s; _bounds := _bounds s; _interactive := _interactive s;
     _draggable := _draggable s; isDragging := isDragging s;
     _dragStartOffset := _dragStartOffset s;
     _dragStartEventCoordinates := _dragStartEventCoordinates s;
     _pointerX := _pointerX s; _pointerY := _pointerY s; _brush := v;
     actionTarget := actionTarget s; _selection := _selection s;
     _invertSelection := _invertSelection s; _isPaintMode := _isPaintMode s;
     _isDragMode := _isDragMode s; _isColorPicker := _isColorPicker s;
     _toolType := _toolType s; _toolOptions := _toolOptions s;
     _cloneStartCoords := _cloneStartCoords s;
     _pendingPaintState := _pendingPaintState s;
     _orgSourceToStore := _orgSourceToStore s; tempCanvas := tempCanvas s;
     _rafFx := _rafFx s |}.

Definition set_actionTarget (v : ActionTarget) (s : Sprite) : Sprite :=
  {| layer := layer s; _bounds := _bounds s; _interactive := _interactive s;
     _draggable := _draggable s; isDragging := isDragging s;
     _dragStartOffset := _dragStartOffset s;
     _dragStartEventCoordinates := _dragStartEventCoordinates s;
     _pointerX := _pointerX s; _pointerY := _pointerY s; _brush := _brush s;
     actionTarget := v; _selection := _selection s;
     _invertSelection := _invertSelection s; _isPaintMode := _isPaintMode s;
     _isDragMode := _isDragMode s; _isColorPicker := _isColorPicker s;
     _toolType := _toolType s; _toolOptions := _toolOptions s;
     _cloneStartCoords := _cloneStartCoords s;
     _pendingPaintState := _pendingPaintState s;
     _orgSourceToStore := _orgSourceToStore s; tempCanvas := tempCanvas s;
     _rafFx := _rafFx s |}.

Definition set_selection (v : option (list Point)) (s : Sprite) : Sprite :=
  {| layer := layer s; _bounds := _bounds s; _interactive := _interactive s;
     _draggable := _draggable s; isDragging := isDragging s;
     _dragStartOffset := _dragStartOffset s;
     _dragStartEventCoordinates := _dragStartEventCoordinates s;
     _pointerX := _pointerX s; _pointerY := _pointerY s; _brush := _brush s;
     actionTarget := actionTarget s; _selection := v;
     _invertSelection := _invertSelection s; _isPaintMode := _isPaintMode s;
     _isDragMode := _isDragMode s; _isColorPicker := _isColorPicker s;
     _toolType := _toolType s; _toolOptions := _toolOptions s;
     _cloneStartCoords := _cloneStartCoords s;
     _pendingPaintState := _pendingPaintState s;
     _orgSourceToStore := _orgSourceToStore s; tempCanvas := tempCanvas s;
     _rafFx := _rafFx s |}.

Definition set_invertSelection (v : bool) (s : Sprite) : Sprite :=
  {| layer := layer s; _bounds := _bounds s; _interactive := _interactive s;
     _draggable := _draggable s; isDragging := isDragging s;
     _dragStartOffset := _dragStartOffset s;
     _dragStartEventCoordinates := _dragStartEventCoordinates s;
     _pointerX := _pointerX s; _pointerY := _pointerY s; _brush := _brush s;
     actionTarget := actionTarget s; _selection := _selection s;
     _invertSelection := v; _isPaintMode := _isPaintMode s;
     _isDragMode := _isDragMode s; _isColorPicker := _isColorPicker s;
     _toolType := _toolType s; _toolOptions := _toolOptions s;
     _cloneStartCoords := _cloneStartCoords s;
     _pendingPaintState := _pendingPaintState s;
     _orgSourceToStore := _orgSourceToStore s; tempCanvas := tempCanvas s;
     _rafFx := _rafFx s |}.

Definition set_isPaintMode (v : bool) (s : Sprite) : Sprite :=
  {| layer := layer s; _bounds := _bounds s; _interactive := _interactive s;
     _draggable := _draggable s; isDragging := isDragging s;
     _dragStartOffset := _dragStartOffset s;
     _dragStartEventCoordinates := _dragStartEventCoordinates s;
     _pointerX := _pointerX s; _pointerY := _pointerY s; _brush := _brush s;
     actionTarget := actionTarget s; _selection := _selection s;
     _invertSelection := _invertSelection s; _isPaintMode := v;
     _isDragMode := _isDragMode s; _isColorPicker := _isColorPicker s;
     _toolType := _toolType s; _toolOptions := _toolOptions s;
     _cloneStartCoords := _cloneStartCoords s;
     _pendingPaintState := _pendingPaintState s;
     _orgSourceToStore := _orgSourceToStore s; tempCanvas := tempCanvas s;
     _rafFx := _rafFx s |}.

Definition set_isDragMode (v : bool) (s : Sprite) : Sprite :=
  {| layer := layer s; _bounds := _bounds s; _interactive := _interactive s;
     _draggable := _draggable s; isDragging := isDragging s;
     _dragStartOffset := _dragStartOffset s;
     _dragStartEventCoordinates := _dragStartEventCoordinates s;
     _pointerX := _pointerX s; _pointerY := _pointerY s; _brush := _brush s;
     actionTarget := actionTarget s; _selection := _selection s;
     _invertSelection := _invertSelection s; _isPaintMode := _isPaintMode s;
     _isDragMode := v; _isColorPicker := _isColorPicker s;
     _toolType := _toolType s; _toolOptions := _toolOptions s;
     _cloneStartCoords := _cloneStartCoords s;
     _pendingPaintState := _pendingPaintState s;
     _orgSourceToStore := _orgSourceToStore s; tempCanvas := tempCanvas s;
     _rafFx := _rafFx s |}.

Definition set_isColorPicker (v : bool) (s : Sprite) : Sprite :=
  {| layer := layer s; _bounds := _bounds s; _interactive := _interactive s;
     _draggable := _draggable s; isDragging := isDragging s;
     _dragStartOffset := _dragStartOffset s;
     _dragStartEventCoordinates := _dragStartEventCoordinates s;
     _pointerX := _pointerX s; _pointerY := _pointerY s; _brush := _brush s;
     actionTarget := actionTarget s; _selection := _selection s;
     _invertSelection := _invertSelection s; _isPaintMode := _isPaintMode s;
     _isDragMode := _isDragMode s; _isColorPicker := v;
     _toolType := _toolType s; _toolOptions := _toolOptions s;
     _cloneStartCoords := _cloneStartCoords s;
     _pendingPaintState := _pendingPaintState s;
     _orgSourceToStore := _orgSourceToStore s; tempCanvas := tempCanvas s;
     _rafFx := _rafFx s |}.

Definition set_toolType (v : option ToolTypes) (s : Sprite) : Sprite :=
  {| layer := layer s; _bounds := _bounds s; _interactive := _interactive s;
     _draggable := _draggable s; isDragging := isDragging s;
     _dragStartOffset := _dragStartOffset s;
     _dragStartEventCoordinates := _dragStartEventCoordinates s;
     _pointerX := _pointerX s; _pointerY := _pointerY s; _brush := _brush s;
     actionTarget := actionTarget s; _selection := _selection s;
     _invertSelection := _invertSelection s; _isPaintMode := _isPaintMode s;
     _isDragMode := _isDragMode s; _isColorPicker := _isColorPicker s;
     _toolType := v; _toolOptions := _toolOptions s;
     _cloneStartCoords := _cloneStartCoords s;
     _pendingPaintState := _pendingPaintState s;
     _orgSourceToStore := _orgSourceToStore s; tempCanvas := tempCanvas s;
     _rafFx := _rafFx s |}.

Definition set_toolOptions (v : option Ref) (s : Sprite) : Sprite :=
  {| layer := layer s; _bounds := _bounds s; _interactive := _interactive s;
     _draggable := _draggable s; isDragging := isDragging s;
     _dragStartOffset := _dragStartOffset s;
     _dragStartEventCoordinates := _dragStartEventCoordinates s;
     _pointerX := _pointerX s; _pointerY := _pointerY s; _brush := _brush s;
     actionTarget := actionTarget s; _selection := _selection s;
     _invertSelection := _invertSelection s; _isPaintMode := _isPaintMode s;
     _isDragMode := _isDragMode s; _isColorPicker := _isColorPicker s;
     _toolType := _toolType s; _toolOptions := v;
     _cloneStartCoords := _cloneStartCoords s;
     _pendingPaintState := _pendingPaintState s;
     _orgSourceToStore := _orgSourceToStore s; tempCanvas := tempCanvas s;
     _rafFx := _rafFx s |}.

Definition set_cloneStartCoords (v : option Point) (s : Sprite) : Sprite :=
  {| layer := layer s; _bounds := _bounds s; _interactive := _interactive s;
     _draggable := _draggable s; isDragging := isDragging s;
     _dragStartOffset := _dragStartOffset s;
     _dragStartEventCoordinates := _dragStartEventCoordinates s;
     _pointerX := _pointerX s; _pointerY := _pointerY s; _brush := _brush s;
     actionTarget := actionTarget s; _selection := _selection s;
     _invertSelection := _invertSelection s; _isPaintMode := _isPaintMode s;
     _isDragMode := _isDragMode s; _isColorPicker := _isColorPicker s;
     _toolType := _toolType s; _toolOptions := _toolOptions s;
     _cloneStartCoords := v; _pendingPaintState := _pendingPaintState s;
     _orgSourceToStore := _orgSourceToStore s; tempCanvas := tempCanvas s;
     _rafFx := _rafFx s |}.

Definition set_pendingPaintState (v : option TimerId) (s : Sprite) : Sprite :=
  {| layer := layer s; _bounds := _bounds s; _interactive := _interactive s;
     _draggable := _draggable s; isDragging := isDragging s;
     _dragStartOffset := _dragStartOffset s;
     _dragStartEventCoordinates := _dragStartEventCoordinates s;
     _pointerX := _pointerX s; _pointerY := _pointerY s; _brush := _brush s;
     actionTarget := actionTarget s; _selection := _selection s;
     _invertSelection := _invertSelection s; _isPaintMode := _isPaintMode s;
     _isDragMode := _isDragMode s; _isColorPicker := _isColorPicker s;
     _toolType := _toolType s; _toolOptions := _toolOptions s;
     _cloneStartCoords := _cloneStartCoords s; _pendingPaintState := v;
     _orgSourceToStore := _orgSourceToStore s; tempCanvas := tempCanvas s;
     _rafFx := _rafFx s |}.

Definition set_orgSourceToStore (v : option Resource) (s : Sprite) : Sprite :=
  {| layer := layer s; _bounds := _bounds s; _interactive := _interactive s;
     _draggable := _draggable s; isDragging := isDragging s;
     _dragStartOffset := _dragStartOffset s;
     _dragStartEventCoordinates := _dragStartEventCoordinates s;
     _pointerX := _pointerX s; _pointerY := _pointerY s; _brush := _brush s;
     actionTarget := actionTarget s; _selection := _selection s;
     _invertSelection := _invertSelection s; _isPaintMode := _isPaintMode s;
     _isDragMode := _isDragMode s; _isColorPicker := _isColorPicker s;
     _toolType := _toolType s; _toolOptions := _toolOptions s;
     _cloneStartCoords := _cloneStartCoords s;
     _pendingPaintState := _pendingPaintState s; _orgSourceToStore := v;
     tempCanvas := tempCanvas s; _rafFx := _rafFx s |}.

Definition set_tempCanvas (v : bool) (s : Sprite) : Sprite :=
  {| layer := layer s; _bounds := _bounds s; _interactive := _interactive s;
     _draggable := _draggable s; isDragging := isDragging s;
     _dragStartOffset := _dragStartOffset s;
     _dragStartEventCoordinates := _dragStartEventCoordinates s;
     _pointerX := _pointerX s; _pointerY := _pointerY s; _brush := _brush s;
     actionTarget := actionTarget s; _selection := _selection s;
     _invertSelection := _invertSelection s; _isPaintMode := _isPaintMode s;
     _isDragMode := _isDragMode s; _isColorPicker := _isColorPicker s;
     _toolType := _toolType s; _toolOptions := _toolOptions s;
     _cloneStartCoords := _cloneStartCoords s;
     _pendingPaintState := _pendingPaintState s;
     _orgSourceToStore := _orgSourceToStore s; tempCanvas := v;
     _rafFx := _rafFx s |}.

Definition set_rafFx (v : bool) (s : Sprite) : Sprite :=
  {| layer := layer s; _bounds := _bounds s; _interactive := _interactive s;
     _draggable := _draggable s; isDragging := isDragging s;
     _dragStartOffset := _dragStartOffset s;
     _dragStartEventCoordinates := _dragStartEventCoordinates s;
     _pointerX := _pointerX s; _pointerY := _pointerY s; _brush := _brush s;
     actionTarget := actionTarget s; _selection := _selection s;
     _invertSelection := _invertSelection s; _isPaintMode := _isPaintMode s;
     _isDragMode := _isDragMode s; _isColorPicker := _isColorPicker s;
     _toolType := _toolType s; _toolOptions := _toolOptions s;
     _cloneStartCoords := _cloneStartCoords s;
     _pendingPaintState := _pendingPaintState s;
     _orgSourceToStore := _orgSourceToStore s; tempCanvas := tempCanvas s;
     _rafFx := v |}.

Definition with_sprite (v : Sprite) (w : World) : World :=
  {| sprite := v; heap := heap w; store := store w; canvas := canvas w;
     registered := registered w; timers := timers w;
     nextTimer := nextTimer w; jobs := jobs w; history := history w;
     log := log w; paintCalls := paintCalls w |}.

Definition with_heap (v : Heap) (w : World) : World :=
  {| sprite := sprite w; heap := v; store := store w; canvas := canvas w;
     registered := registered w; timers := timers w;
     nextTimer := nextTimer w; jobs := jobs w; history := history w;
     log := log w; paintCalls := paintCalls w |}.

Definition with_store (v : Store) (w : World) : World :=
  {| sprite := sprite w; heap := heap w; store := v; canvas := canvas w;
     registered := registered w; timers := timers w;
     nextTimer := nextTimer w; jobs := jobs w; history := history w;
     log := log w; paintCalls := paintCalls w |}.

Definition with_canvas (v : ZCanvas) (w : World) : World :=
  {| sprite := sprite w; heap := heap w; store := store w; canvas := v;
     registered := registered w; timers := timers w;
     nextTimer := nextTimer w; jobs := jobs w; history := history w;
     log := log w; paintCalls := paintCalls w |}.

Definition with_timers (v : list (TimerId * Z)) (w : World) : World :=
  {| sprite := sprite w; heap := heap w; store := store w;
     canvas := canvas w; registered := registered w; timers := v;
     nextTimer := nextTimer w; jobs := jobs w; history := history w;
     log := log w; paintCalls := paintCalls w |}.

Definition with_nextTimer (v : TimerId) (w : World) : World :=
  {| sprite := sprite w; heap := heap w; store := store w;
     canvas := canvas w; registered := registered w; timers := timers w;
     nextTimer := v; jobs := jobs w; history := history w; log := log w;
     paintCalls := paintCalls w |}.

Definition with_jobs (v : list Job) (w : World) : World :=
  {| sprite := sprite w; heap := heap w; store := store w;
     canvas := canvas w; registered := registered w; timers := timers w;
     nextTimer := nextTimer w; jobs := v; history := history w; log := log w;
     paintCalls := paintCalls w |}.

Definition with_history (v : list HistoryEntry) (w : World) : World :=
  {| sprite := sprite w; heap := heap w; store := store w;
     canvas := canvas w; registered := registered w; timers := timers w;
     nextTimer := nextTimer w; jobs := jobs w; history := v; log := log w;
     paintCalls := paintCalls w |}.

Definition with_log (v : list Event) (w : World) : World :=
  {| sprite := sprite w; heap := heap w; store := store w;
     canvas := canvas w; registered := registered w; timers := timers w;
     nextTimer := nextTimer w; jobs := jobs w; history := history w;
     log := v; paintCalls := paintCalls w |}.

Definition with_paintCalls (v : nat) (w : World) : World :=
  {| sprite := sprite w; heap := heap w; store := store w;
     canvas := canvas w; registered := registered w; timers := timers w;
     nextTimer := nextTimer w; jobs := jobs w; history := history w;
     log := log w; paintCalls := v |}.

(** A method call either returns or throws (a [TypeError] on reading a
    property of [null] or [undefined]); both leave a world behind. *)
Inductive Outcome :=
| Returned (w : World)
| Thrown (w : World).

Definition world_of (o : Outcome) : World :=
  match o with Returned w | Thrown w => w end.

Definition returned (o : Outcome) : bool :=
  match o with Returned _ => true | Thrown _ => false end.

Notation "'do' w <- e ; k" :=
  (match e with Returned w => k | Thrown t => Thrown t end)
  (at level 10, w name, e at level 100, k at level 200).


Definition with_activeColor (c : string) (st : Store) : Store :=
  {| activeColor := c; activeLayerMask := activeLayerMask st;
     preferences := preferences st;
     getters_snapAlign := getters_snapAlign st |}.

Definition with_draggingSprite (v : option string) (c : ZCanvas) : ZCanvas :=
  {| documentScale := documentScale c; draggingSprite := v;
     guides := guides c |}.

(* ------------------------------------------------------------------ *)
(** ** layer-sprite.js: collaborators that are not part of the sources *)

(** Helpers that [layer-sprite.js] imports from modules outside the
    sources at hand.  They are pure; the methods below are stated for any
    implementation of them. *)
Class Helpers := {
  (** [isSelectionClosed( selection )] of [math/selection-math] *)
  isSelectionClosed : option (list Point) -> bool;
  (** [canDrawOnSelection( layer )] of [definitions/tool-types] *)
  canDrawOnSelection : Layer -> bool;
  (** [translatePointerRotation( x, y, rotationCenterX, rotationCenterY,
      angle )] of [math/point-math] *)
  translatePointerRotation : Q -> Q -> Q -> Q -> Q -> Point;
  (** [BrushFactory.create({ color, radius, pointers, options })] *)
  BrushFactory_create :
    string -> option Q -> list Point -> BrushOptions -> Brush;
  (** [slicePointers( brush )] of [rendering/lowres] *)
  slicePointers : Brush -> list Point;
  (** the [rgba(...)] string of the pixel that the canvas element shows
      under a point ([globalToLocal] and [getImageData]) *)
  colorAt : Q -> Q -> string;
  (** the position that the guide snapping of [rendering/snapping] finds
      for a sprite of the given bounds among the given guides (see
      [snapSpriteToGuide]) *)
  snapPosition : Rectangle -> list Guide -> Point
}.

(* ------------------------------------------------------------------ *)
(** ** layer-sprite.js: the methods of [LayerSprite] *)

Section Methods.
Context `{Helpers}.

Definition HALF : Q := 5 # 10.

Definition emit (e : Event) (w : World) : World :=
  with_log (app (log w) [e]) w.

Definition call (c : Ctx) (op : CtxOp) (w : World) : World :=
  emit (CtxCall c op) w.

(** [this.f = v] on the sprite of a world. *)
Definition upd (f : Sprite -> Sprite) (w : World) : World :=
  with_sprite (f (sprite w)) w.

Definition this_brush (w : World) : Brush := _brush (sprite w).

(** The drawing calls a context has received. *)
Fixpoint ctx_ops (c : Ctx) (l : list Event) : list CtxOp :=
  match l with
  | [] => []
  | CtxCall c' op :: l' =>
      if ctx_eqb c c' then op :: ctx_ops c l' else ctx_ops c l'
  | _ :: l' => ctx_ops c l'
  end.

(** [setTimeout( this.storePaintState.bind( this ), timeout )]: all timers
    of the world are timers of this sprite. *)
Definition setTimeout (timeout : Z) (w : World) : TimerId * World :=
  let t := nextTimer w in
  (t, emit (SetTimeout t timeout)
        (with_nextTimer (Pos.succ t)
           (with_timers (app (timers w) [(t, timeout)]) w))).

Definition clearTimeout (t : TimerId) (w : World) : World :=
  emit (ClearTimeout t)
    (with_timers (filter (fun e => negb (Pos.eqb (fst e) t)) (timers w)) w).

(** Modelled from the spec: [canvasToBlob( this.layer.source )] of
    [utils/canvas-util] with [blobToResource], "an immutable encoded copy
    of a pixel buffer's contents at a point in time".  The continuation
    [k] runs when the promise resolves. *)
Definition canvasToBlob (k : Resource -> Job) (w : World) : World :=
  let blob := ctx_ops SourceCtx (log w) in
  with_jobs (app (jobs w) [k blob]) (emit CanvasToBlob w).

(** [enqueueState( key, { undo, redo, resources } )] *)
Definition enqueueState (e : HistoryEntry) (w : World) : World :=
  emit (EnqueueState (key e)) (with_history (app (history w) [e]) w).

Definition isMaskable (w : World) : bool :=
  match mask (layer (sprite w)) with
  | Some _ =>
      match activeLayerMask (store w) with
      | Some i => String.eqb i (id (layer (sprite w)))
      | None => false
      end
  | None => false
  end.

Definition isRotated (s : Sprite) : bool :=
  negb (Qeq_bool (JsNumber.remainder (rotation (effects (layer s))) 360) 0).

Definition cacheBrush (color : string) (toolOptions : option Ref)
  (w : World) : World :=
  let '(radius, options) :=
    match toolOptions with
    | Some r => (size (heap w r), OptionsOf r)
    | None =>
        (* the default parameter { radius: 5, strokes: 1 } *)
        let o := {| size := None; opacity := None; strokes := Some 1;
                    smartFill := false; coords := None;
                    sourceLayerId := None |} in
        (size o, OptionsLiteral o)
    end in
  upd (set_brush
         (BrushFactory_create color radius (pointers (this_brush w)) options))
      w.

Definition storeBrushPointer (x y : Q) (w : World) : World :=
  let b := this_brush w in
  upd (set_brush (brush_with b (app (pointers b) [mkPoint x y]) true (last b)))
      w.

Definition cacheEffects (w : World) : World :=
  if _rafFx (sprite w) then w
  else
    let w := upd (set_rafFx true) w in
    let w := emit (SetLock true) w in
    let w := emit RequestAnimationFrame w in
    with_jobs (app (jobs w) [RenderEffects]) w.

Definition resetFilterAndRecache (w : World) : World :=
  let w := emit (ClearCacheProperty "filterData") w in
  cacheEffects w.

Definition setSelection (document : Document) (onlyWhenClosed : bool)
  (w : World) : World :=
  let selection := selection document in
  let nonEmpty :=
    match selection with
    | Some (p :: ps) => Some (p :: ps)
    | _ => None
    end in
  let w :=
    if negb onlyWhenClosed
       || (isSelectionClosed selection
           && canDrawOnSelection (layer (sprite w)))
    then upd (set_selection nonEmpty) w
    else upd (set_selection None) w in
  let inv :=
    match _selection (sprite w) with
    | Some _ => invertSelection document
    | None => false
    end in
  upd (set_invertSelection inv) w.

Definition forceMoveListener (w : World) : World :=
  let s := sprite w in
  let w := upd (set_isDragging true) w in
  let w := upd (set_dragStartOffset
                  (Some (mkPoint (rleft (_bounds s)) (rtop (_bounds s))))) w in
  upd (set_dragStartEventCoordinates
         (Some (mkPoint (_pointerX s) (_pointerY s)))) w.

Definition debouncePaintStore (timeout : Z) (w : World) : World :=
  let '(t, w) := setTimeout timeout w in
  upd (set_pendingPaintState (Some t)) w.

Definition preparePendingPaintState (w : World) : World :=
  let w := canvasToBlob StoreOrgSource w in
  debouncePaintStore 5000 w.

(** [storePaintState()].  Its result ([true], [false] or a promise) is used
    by no caller and is left out. *)
Definition storePaintState (w : World) : World :=
  match _pendingPaintState (sprite w) with
  | None => w
  | Some t =>
      let w := clearTimeout t w in
      if down (this_brush w) then
        debouncePaintStore 1000 w
      else
        let w := upd (set_pendingPaintState None) w in
        let layer := layer (sprite w) in
        let orgState := _orgSourceToStore (sprite w) in
        let w := upd (set_orgSourceToStore None) w in
        canvasToBlob (CommitPaintState (id layer) orgState) w
  end.

(** The interaction state that [handleActiveTool] clears first. *)
Definition resetInteractionState (w : World) : World :=
  let w := upd (set_isDragging false) w in
  let w := upd (set_isPaintMode false) w in
  let w := upd (set_isDragMode false) w in
  let w := upd (set_isColorPicker false) w in
  let w := upd (set_selection None) w in
  let w := upd (set_toolType None) w in
  let w := upd (set_toolOptions None) w in
  upd (set_cloneStartCoords None) w.

(** What [handleActiveTool] does once the pending paint state is stored. *)
Definition armTool (tool : option ToolTypes) (toolOptions : option Ref)
  (activeDocument : Document) (w : World) : World :=
  match _interactive (sprite w), tool with
  | false, _ | _, None => w
  | true, Some tool =>
      let w := upd (set_toolType (Some tool)) w in
      let w := upd (set_toolOptions toolOptions) w in
      let w :=
        match tool with
        | DRAG =>
            let w := upd (set_isDragMode true) w in
            upd (set_draggable true) w
        | FILL | ERASER | BRUSH | CLONE =>
            let w := forceMoveListener w in
            let w := upd (set_draggable true) w in
            let w := upd (set_isPaintMode true) w in
            let w := cacheBrush (activeColor (store w)) toolOptions w in
            setSelection activeDocument true w
        | EYEDROPPER =>
            upd (set_isColorPicker true) w
        | _ =>
            upd (set_draggable false) w
        end in
      emit Invalidate w
  end.

(** [handleActiveTool( tool, toolOptions, activeDocument )] *)
Definition handleActiveTool (tool : option ToolTypes)
  (toolOptions : option Ref) (activeDocument : Document) (w : World)
  : World :=
  let w := resetInteractionState w in
  (* store pending paint states (if there were any) *)
  let w := storePaintState w in
  armTool tool toolOptions activeDocument w.

Definition rotatePointerLists (pointers : list Point) (layer : Layer)
  (sourceWidth sourceHeight : Q) : list Point :=
  let left := left layer in
  let top  := top layer in
  let e    := effects layer in
  map (fun point =>
         let p := translatePointerRotation
                    (px point - left) (py point - top)
                    (sourceWidth * HALF) (sourceHeight * HALF)
                    (if mirrorY e then - rotation e else rotation e) in
         let p := if mirrorX e then mkPoint (px p - sourceWidth) (py p)
                  else p in
         if mirrorY e then mkPoint (px p) (py p - sourceHeight) else p)
      pointers.

Definition rotatePointer (x y : Q) (layer : Layer)
  (sourceWidth sourceHeight : Q) : Point :=
  hd (mkPoint x y)
     (rotatePointerLists [mkPoint x y] layer sourceWidth sourceHeight).

Definition brush_opacity (w : World) : option Q :=
  match options (this_brush w) with
  | OptionsOf r => opacity (heap w r)
  | OptionsLiteral o => opacity o
  end.

(** The [optAction] branch of [paint]. *)
Definition paintAction (ctx : Ctx) (optAction : Action) (w : World)
  : World :=
  if String.eqb (atype optAction) "stroke" then
    let w := call ctx (SetStrokeStyle (acolor optAction)) w in
    let size := match asize optAction with
                | Some q => if Qeq_bool q 0 then 1 else q
                | None => 1
                end in
    let w := call ctx (SetLineWidth (size / documentScale (canvas w))) w in
    call ctx Stroke w
  else w.

(** The fill tool branch of [paint]. *)
Definition paintFill (ctx : Ctx) (width height : Q) (w : World) : Outcome :=
  let color := activeColor (store w) in
  match _toolOptions (sprite w) with
  | None => Thrown w
  | Some r =>
      let s := sprite w in
      let w :=
        if smartFill (heap w r) then
          let point := rotatePointer (_pointerX s) (_pointerY s) (layer s)
                         width height in
          call ctx (FloodFill (px point) (py point) color) w
        else
          let w := call ctx (SetFillStyle (activeColor (store w))) w in
          match _selection s with
          | Some _ => call ctx Fill w
          | None => call ctx (FillRect 0 0 width height) w
          end in
      Returned
        match _selection s with
        | Some _ => call ctx ClosePath w
        | None => w
        end
  end.

(** The clone stamp branch of [paint]. *)
Definition paintClone (ctx : Ctx) (isLowResPreview : bool)
  (pointers' : list Point) (width height : Q) (w : World) : Outcome :=
  if isLowResPreview then
    match _toolOptions (sprite w) with
    | None => Thrown w
    | Some r =>
        let w := call ctx
                   (RenderClonedStroke (this_brush w)
                      (sourceLayerId (heap w r))
                      (rotatePointerLists pointers' (layer (sprite w))
                         width height)) w in
        Returned (emit (SetBitmap ctx) w)
    end
  else Returned w.

(** The brush and eraser branch of [paint]; it returns the context that
    the local variable [ctx] holds afterwards. *)
Definition paintBrush (ctx : Ctx) (isLowResPreview isEraser : bool)
  (selectionPoints : option (list Point)) (pointers' : list Point)
  (width height : Q) (w : World) : Ctx * World :=
  let orgContext := ctx in
  let e := effects (layer (sprite w)) in
  if isLowResPreview then
    let w := if tempCanvas (sprite w) then w
             else upd (set_tempCanvas true) (emit GetTempCanvas w) in
    let overrides := {| opointers := pointers' |} in
    let ctx := TempCtx in
    let w :=
      match selectionPoints with
      | Some pts =>
          let w := call ctx Save w in        (* 3. tempCanvas clipping save() *)
          call ctx (ClipContextToSelection pts 0 0
                      (_invertSelection (sprite w)) (Some overrides)) w
      | None => w
      end in
    let w := call ctx (RenderBrushStroke (this_brush w) (Some overrides)) w in
    let w :=
      match selectionPoints with
      | Some _ => call orgContext Restore w
                                       (* 3. tempCanvas clipping restore() *)
      | None => w
      end in
    (ctx, w)
  else
    let w := emit (CreateCanvas width height) w in
    let ctx := ScratchCtx in
    let w := call ctx (Scale (if mirrorX e then -1 else 1)
                             (if mirrorY e then -1 else 1)) w in
    let b := this_brush w in
    let w := upd (set_brush
                    (brush_with b
                       (rotatePointerLists (pointers b) (layer (sprite w))
                          width height)
                       (down b) (last b))) w in
    let w := call ctx (RenderBrushStroke (this_brush w) None) w in
    let w := call orgContext (SetGlobalAlpha (brush_opacity w)) w in
    let w := if isEraser
             then call orgContext
                    (SetGlobalCompositeOperation "destination-out") w
             else w in
    let w := call orgContext (DrawImage ctx 0 0) w in
    (orgContext, w).

(** The selection clipping of [paint]; it returns the points that the local
    variable [selectionPoints] holds afterwards. *)
Definition paintSelection (ctx : Ctx) (isLowResPreview : bool)
  (selectionPoints : option (list Point)) (width height : Q) (w : World)
  : option (list Point) * World :=
  match selectionPoints with
  | Some pts =>
      let '(pts, left, top) :=
        if isRotated (sprite w) && negb isLowResPreview
        then (rotatePointerLists pts (layer (sprite w)) width height, 0, 0)
        else (pts, left (layer (sprite w)), top (layer (sprite w))) in
      let w := call ctx Save w in                (* 2. clipping save() *)
      (Some pts,
       call ctx (ClipContextToSelection pts left top
                   (_invertSelection (sprite w)) None) w)
  | None => (None, w)
  end.

(** The dispatch of [paint] on the action and the tool; it returns the
    context that the local variable [ctx] holds afterwards. *)
Definition paintTool (optAction : option Action) (ctx : Ctx)
  (isLowResPreview isEraser isCloneStamp isFillMode : bool)
  (selectionPoints : option (list Point)) (width height : Q) (w : World)
  : Ctx * Outcome :=
  match optAction with
  | Some a => (ctx, Returned (paintAction ctx a w))
  | None =>
      if isFillMode then (ctx, paintFill ctx width height w)
      else
        let pointers' := slicePointers (this_brush w) in
        if isCloneStamp
        then (ctx, paintClone ctx isLowResPreview pointers' width height w)
        else
          let '(ctx, w) :=
            paintBrush ctx isLowResPreview isEraser selectionPoints
              pointers' width height w in
          (ctx, Returned w)
  end.

(** [paint( optAction = null )] *)
Definition paint (optAction : option Action) (w : World) : Outcome :=
  let w := with_paintCalls (S (paintCalls w)) w in
  let w := match _pendingPaintState (sprite w) with
           | None => preparePendingPaintState w
           | Some _ => w
           end in
  let drawOnMask   := isMaskable w in
  let isEraser     := toolIs (_toolType (sprite w)) ERASER in
  let isCloneStamp := toolIs (_toolType (sprite w)) CLONE in
  let isFillMode   := toolIs (_toolType (sprite w)) FILL in
  let ctx := if drawOnMask then MaskCtx else SourceCtx in
  let cvs := match drawOnMask, mask (layer (sprite w)) with
             | true, Some m => m
             | _, _ => source (layer (sprite w))
             end in
  let width  := cwidth cvs in
  let height := cheight cvs in
  let w := call ctx Save w in                    (* 1. preparation save() *)
  let isLowResPreview :=
    down (this_brush w) && negb (drawOnMask && isEraser) in
  let selectionPoints :=
    match optAction with
    | Some a =>
        match aselection a with
        | Some pts => Some pts
        | None => _selection (sprite w)
        end
    | None => _selection (sprite w)
    end in
  let '(selectionPoints, w) :=
    paintSelection ctx isLowResPreview selectionPoints width height w in
  let '(ctx, o) :=
    paintTool optAction ctx isLowResPreview isEraser isCloneStamp isFillMode
      selectionPoints width height w in
  do w <- o;
  let w := match selectionPoints with
           | Some _ => call ctx Restore w        (* 2. clipping restore() *)
           | None => w
           end in
  let w := call ctx Restore w in                 (* 1. preparation restore() *)
  Returned (if isLowResPreview then w else resetFilterAndRecache w).

Definition isTouch (type : string) : bool := String.prefix "touch" type.

(** [handlePress( x, y, { type } )] *)
Definition handlePress (x y : Q) (type : string) (w : World) : Outcome :=
  let w := if isTouch type
           then upd (set_pointerY y) (upd (set_pointerX x) w)
           else w in
  if _isColorPicker (sprite w) then
    let c := colorAt x y in
    Returned (emit (CommitSetActiveColor c)
                (with_store (with_activeColor c (store w)) w))
  else if _isPaintMode (sprite w) then
    if toolIs (_toolType (sprite w)) CLONE then
      match _toolOptions (sprite w) with
      | None => Thrown w
      | Some r =>
          match coords (heap w r) with
          | None =>
              let w := with_heap
                         (heap_set (heap w) r
                            (set_coords (heap w r) (Some (mkPoint x y)))) w in
              Returned (upd (set_cloneStartCoords None) w)
          | Some _ =>
              let w := match _cloneStartCoords (sprite w) with
                       | None =>
                           upd (set_cloneStartCoords (Some (mkPoint x y))) w
                       | Some _ => w
                       end in
              Returned (storeBrushPointer x y w)
          end
      end
    else if toolIs (_toolType (sprite w)) FILL then
      paint None w
    else
      Returned (storeBrushPointer x y w)
  else if _isDragMode (sprite w) then
    Returned (with_canvas
                (with_draggingSprite (Some (id (layer (sprite w))))
                   (canvas w)) w)
  else Returned w.

(** The mask repositioning of [handleMove]. *)
Definition moveMask (x y : Q) (w : World) : Outcome :=
  let s := sprite w in
  let layer := layer s in
  let maskX := maskX layer in
  let maskY := maskY layer in
  match _dragStartOffset s, _dragStartEventCoordinates s with
  | Some off, Some ev =>
      let newMaskX := px off + ((x - rleft (_bounds s)) - px ev) in
      let newMaskY := py off + ((y - rtop (_bounds s)) - py ev) in
      let w := upd (set_layer
                      (layer_with_mask_offset layer newMaskX newMaskY)) w in
      let w := if registered w then resetFilterAndRecache w else w in
      Returned (enqueueState
                  (MaskPos (id layer) maskX maskY newMaskX newMaskY) w)
  | _, _ => Thrown w
  end.

(** [handleMove( x, y, { type } )] *)
Definition handleMove (x y : Q) (type : string) (w : World) : Outcome :=
  let w := if negb (isTouch type)
           then upd (set_pointerY y) (upd (set_pointerX x) w)
           else w in
  let brushing (w : World) : Outcome :=
    if down (this_brush w) then Returned (storeBrushPointer x y w)
    else Returned w in
  if negb (_isPaintMode (sprite w)) then
    match actionTarget (sprite w) with
    | TargetMask => do w <- moveMask x y w; brushing w
    | TargetSource =>
        if _isDragMode (sprite w)
        then Returned (emit (SuperHandleMove x y) w)
        else brushing w
    end
  else brushing w.

(** Modelled from the spec: [snapSpriteToGuide( sprite, guides )] of
    [rendering/snapping], which is not part of the sources.  The spec has
    it as the "Guide-snapping service: `snapToGuides(sprite, guides)`,
    invoked only at drag release", there to "snap the sprite to the nearest
    alignment guide", and rules that a release without an active stroke
    "produces no buffer mutation and no history entry".  The service moves
    the sprite to the position it finds among the guides ([snapPosition]);
    it draws nothing and enqueues nothing. *)
Definition snapSpriteToGuide (guides : list Guide) (w : World) : World :=
  let b := _bounds (sprite w) in
  let p := snapPosition b guides in
  let w := emit SnapSpriteToGuide w in
  upd (set_bounds {| rleft := px p; rtop := py p;
                     rwidth := rwidth b; rheight := rheight b |}) w.

(** The end of [handleRelease]: what is left to do in paint mode and in
    drag mode. *)
Definition releaseMode (w : World) : World :=
  if _isPaintMode (sprite w) then
    forceMoveListener w
  else if _isDragMode (sprite w) then
    let w := if getters_snapAlign (store w)
             then snapSpriteToGuide (guides (canvas w)) w
             else w in
    with_canvas (with_draggingSprite None (canvas w)) w
  else w.

(** [handleRelease( x, y )] *)
Definition handleRelease (x y : Q) (w : World) : Outcome :=
  do w <-
    (if down (this_brush w) then
       let w := emit DisposeTempCanvas w in
       let w := upd (set_tempCanvas false) w in
       let b := this_brush w in
       let w := upd (set_brush (brush_with b (pointers b) false (last b))) w in
       let b := this_brush w in
       let w := upd (set_brush (brush_with b (pointers b) (down b) 0%nat)) w in
       do w <- paint None w;
       let b := this_brush w in
       let w := upd (set_brush (brush_with b [] (down b) (last b))) w in
       Returned (if negb (lowMemory (preferences (store w)))
                 then storePaintState w
                 else w)
     else Returned w);
  Returned (releaseMode w).

(** [update()] *)
Definition update (w : World) : Outcome :=
  if down (this_brush w) then
    do w <- paint None w;
    let b := this_brush w in
    Returned (upd (set_brush
                     (brush_with b (pointers b) (down b)
                        (List.length (pointers b)))) w)
  else Returned w.

End Methods.

(* ------------------------------------------------------------------ *)
(** ** The sprite driven by its surroundings *)

Section Runtime.
Context `{Helpers}.

(** A timer set by [debouncePaintStore] fires: it leaves the timer table
    and its callback, [storePaintState], runs.  A timer that is not in the
    table does not fire. *)
Definition fireTimer (t : TimerId) (w : World) : World :=
  if existsb (fun e => Pos.eqb (fst e) t) (timers w) then
    storePaintState
      (with_timers (filter (fun e => negb (Pos.eqb (fst e) t)) (timers w)) w)
  else w.

Fixpoint remove_nth {A : Type} (n : nat) (l : list A) : list A :=
  match n, l with
  | _, [] => []
  | O, _ :: l' => l'
  | S n', a :: l' => a :: remove_nth n' l'
  end.

(** The continuation of a settled promise or of an animation frame. *)
Definition runJob (j : Job) (w : World) : World :=
  match j with
  | StoreOrgSource blob =>
      upd (set_orgSourceToStore (Some blob)) w
  | CommitPaintState layerId orgState blob =>
      enqueueState (SpritePaint layerId orgState blob) w
  | RenderEffects =>
      let w := emit RenderEffectsForLayer w in
      let w := upd (set_rafFx false) w in
      emit (SetLock false) w
  end.

(** The [n]-th waiting continuation runs. *)
Definition resolveJob (n : nat) (w : World) : World :=
  match nth_error (jobs w) n with
  | Some j => runJob j (with_jobs (remove_nth n (jobs w)) w)
  | None => w
  end.

(** What can happen to a sprite: the calls of its entry points by the
    canvas and the store, a timer firing, a continuation running. *)
Inductive Op :=
| HandleActiveTool (tool : option ToolTypes) (toolOptions : option Ref)
                   (activeDocument : Document)
| HandlePress (x y : Q) (type : string)
| HandleMove (x y : Q) (type : string)
| HandleRelease (x y : Q)
| Update
| Paint (optAction : option Action)
| StorePaintState
| SetInteractive (b : bool)
| SetActionTarget (t : ActionTarget)
| FireTimer (t : TimerId)
| ResolveJob (n : nat).

Definition step (op : Op) (w : World) : Outcome :=
  match op with
  | HandleActiveTool tool toolOptions doc =>
      Returned (handleActiveTool tool toolOptions doc w)
  | HandlePress x y type => handlePress x y type w
  | HandleMove x y type => handleMove x y type w
  | HandleRelease x y => handleRelease x y w
  | Update => update w
  | Paint optAction => paint optAction w
  | StorePaintState => Returned (storePaintState w)
  | SetInteractive b => Returned (upd (set_interactive b) w)
  | SetActionTarget t => Returned (upd (set_actionTarget t) w)
  | FireTimer t => Returned (fireTimer t w)
  | ResolveJob n => Returned (resolveJob n w)
  end.

(** A sequence of operations; an exception ends the operation that threw
    and leaves its world to the next one. *)
Fixpoint run (ops : list Op) (w : World) : World :=
  match ops with
  | [] => w
  | op :: ops' => run ops' (world_of (step op w))
  end.

End Runtime.


(* ------------------------------------------------------------------ *)
(** ** Notions used by the properties *)

Section Notions.
Context `{Helpers}.

(** The state of the debounced snapshot commit. *)
Definition timerState (w : World)
  : list (TimerId * Z) * TimerId * option TimerId :=
  (timers w, nextTimer w, _pendingPaintState (sprite w)).

(** The timer table holds the timer that [_pendingPaintState] names and
    nothing else. *)
Definition timerInv (w : World) : Prop :=
  match _pendingPaintState (sprite w) with
  | None => timers w = []
  | Some t => exists d, timers w = [(t, d)]
  end.

(** The world in which [paint] starts to draw: the pending paint state has
    been prepared if there was none. *)
Definition prepared (w : World) : World :=
  match _pendingPaintState (sprite w) with
  | None => preparePendingPaintState w
  | Some _ => w
  end.

(** The interaction state of a sprite: everything but its brush, its
    preview canvas and the two debounce markers. *)
Definition modes (s : Sprite) :=
  (layer s, _bounds s, _interactive s, _draggable s, isDragging s,
   _dragStartOffset s, _dragStartEventCoordinates s,
   _pointerX s, _pointerY s, actionTarget s,
   _selection s, _invertSelection s,
   _isPaintMode s, _isDragMode s, _isColorPicker s,
   _toolType s, _toolOptions s, _cloneStartCoords s, _orgSourceToStore s).

(** A brush up to the coordinates of its pointers. *)
Definition brushShape (b : Brush) :=
  (color b, radius b, List.length (pointers b), down b, last b, options b).

(** [w'] differs from [w] at most in the coordinates of the brush pointers,
    the preview canvas, the effects marker, the waiting continuations and
    the log, the last two having grown. *)
Definition frame (w w' : World) : Prop :=
  paintCalls w' = paintCalls w /\
  history w' = history w /\
  heap w' = heap w /\
  store w' = store w /\
  canvas w' = canvas w /\
  registered w' = registered w /\
  timerState w' = timerState w /\
  modes (sprite w') = modes (sprite w) /\
  brushShape (this_brush w') = brushShape (this_brush w) /\
  (exists js, jobs w' = app (jobs w) js) /\
  (exists evs, log w' = app (log w) evs).

(** The fill tool reads [this._toolOptions] whenever it paints, the clone
    stamp during a low resolution pass; both are given an options object
    when they are armed. *)
Definition optionsPresent (w : World) : Prop :=
  (toolIs (_toolType (sprite w)) FILL = true ->
   _toolOptions (sprite w) <> None) /\
  (toolIs (_toolType (sprite w)) CLONE = true ->
   down (this_brush w) = true ->
   _toolOptions (sprite w) <> None).

(** Brush and eraser strokes: every tool that is neither the fill tool nor
    the clone stamp paints through [paintBrush]. *)
Definition brushFamily (w : World) : bool :=
  negb (toolIs (_toolType (sprite w)) FILL)
  && negb (toolIs (_toolType (sprite w)) CLONE).

(** Depth of the state stack of a context after a sequence of calls, or
    [None] when a [restore()] finds the stack empty. *)
Fixpoint stack_depth (d : nat) (ops : list CtxOp) : option nat :=
  match ops with
  | [] => Some d
  | Save :: ops' => stack_depth (S d) ops'
  | Restore :: ops' =>
      match d with
      | O => None
      | S d' => stack_depth d' ops'
      end
  | _ :: ops' => stack_depth d ops'
  end.

(** Every [save()] is closed by a later [restore()] of the same context. *)
Definition balanced (ops : list CtxOp) : bool :=
  match stack_depth 0 ops with
  | Some O => true
  | _ => false
  end.

(** The calls that context [c] has received between [w] and [w']. *)
Definition added (c : Ctx) (w w' : World) : list CtxOp :=
  skipn (List.length (ctx_ops c (log w))) (ctx_ops c (log w')).

(** From [w] to [w'] the log has grown by calls that take the state stack
    of context [c] from depth [d] to [r] ([None]: a [restore()] found the
    stack empty). *)
Definition stackEffect (c : Ctx) (w w' : World) (d : nat) (r : option nat)
  : Prop :=
  exists evs, log w' = app (log w) evs /\ stack_depth d (ctx_ops c evs) = r.

(** The layer's context that [paint] draws on. *)
Definition layerCtx (w : World) : Ctx :=
  if isMaskable w then MaskCtx else SourceCtx.

(** The canvas of the layer that [paint] draws on: the mask while it is
    being edited, the source otherwise. *)
Definition layerCanvas (w : World) : CanvasElement :=
  match isMaskable w, mask (layer (sprite w)) with
  | true, Some m => m
  | _, _ => source (layer (sprite w))
  end.

(** The drawing calls of a log in program order, each with its context. *)
Fixpoint drawCalls (l : list Event) : list (Ctx * CtxOp) :=
  match l with
  | [] => []
  | CtxCall c op :: l' => (c, op) :: drawCalls l'
  | _ :: l' => drawCalls l'
  end.

(** The drawing calls made between [w] and [w']. *)
Definition drawn (w w' : World) : list (Ctx * CtxOp) :=
  skipn (List.length (drawCalls (log w))) (drawCalls (log w')).

(** From [w] to [w'] the log has grown by events whose drawing calls are
    [l]. *)
Definition draws (w w' : World) (l : list (Ctx * CtxOp)) : Prop :=
  exists evs, log w' = app (log w) evs /\ drawCalls evs = l.

(** [paint] works at low resolution while the brush is down, unless it
    erases on the mask. *)
Definition lowResPass (w : World) : bool :=
  down (this_brush w)
  && negb (isMaskable w && toolIs (_toolType (sprite w)) ERASER).

(** The calls that clip context [c] to the selection that the sprite has
    cached.  At full resolution the selection of a rotated layer is rotated
    into the layer, whose canvas is [cvs]. *)
Definition clipCalls (c : Ctx) (lowres : bool) (cvs : CanvasElement)
  (s : Sprite) : list (Ctx * CtxOp) :=
  match _selection s with
  | Some pts =>
      if isRotated s && negb lowres
      then [(c, Save);
            (c, ClipContextToSelection
                  (rotatePointerLists pts (layer s) (cwidth cvs) (cheight cvs))
                  0 0 (_invertSelection s) None)]
      else [(c, Save);
            (c, ClipContextToSelection pts (left (layer s)) (top (layer s))
                  (_invertSelection s) None)]
  | None => []
  end.

(** The calls that close a pass on context [c]. *)
Definition restoreCalls (c : Ctx) (s : Sprite) : list (Ctx * CtxOp) :=
  match _selection s with
  | Some _ => [(c, Restore); (c, Restore)]
  | None => [(c, Restore)]
  end.

(** The drawing calls of a full resolution stroke of the sprite's brush,
    in order.  The context of the layer is saved and clipped to the
    selection; the whole recorded path, rotated into the layer, is rendered
    on a scratch canvas that is mirrored as the layer is; the scratch
    canvas is drawn onto the layer with the opacity of the brush, erasing
    where the tool is the eraser; the context of the layer is restored. *)
Definition strokeCalls (w : World) : list (Ctx * CtxOp) :=
  let c    := layerCtx w in
  let cvs  := layerCanvas w in
  let s    := sprite w in
  let e    := effects (layer s) in
  let b    := _brush s in
  let path := rotatePointerLists (pointers b) (layer s)
                (cwidth cvs) (cheight cvs) in
  app ((c, Save) :: clipCalls c false cvs s)
   (app [(ScratchCtx, Scale (if mirrorX e then -1 else 1)
                            (if mirrorY e then -1 else 1));
         (ScratchCtx,
          RenderBrushStroke (brush_with b path (down b) (last b)) None);
         (c, SetGlobalAlpha (brush_opacity w))]
   (app (if toolIs (_toolType s) ERASER
         then [(c, SetGlobalCompositeOperation "destination-out")]
         else [])
        ((c, DrawImage ScratchCtx 0 0) :: restoreCalls c s))).

(** A low resolution preview pass of a brush or an eraser: [paint] without
    action, the brush down, and not erasing on the mask. *)
Definition previewPass (a : option Action) (w : World) : bool :=
  match a with
  | Some _ => false
  | None =>
      brushFamily w && down (this_brush w)
      && negb (isMaskable w && toolIs (_toolType (sprite w)) ERASER)
  end.

(** A burst of pointer moves between two frames. *)
Fixpoint handleMoves (moves : list Point) (type : string) (w : World)
  : World :=
  match moves with
  | [] => w
  | p :: moves' =>
      handleMoves moves' type (world_of (handleMove (px p) (py p) type w))
  end.

End Notions.

End LayerSprite.


(* ------------------------------------------------------------------ *)
(** ** A concrete sprite *)

Module Scenario.
Import LayerSprite.
Local Open Scope Q_scope.
Local Open Scope string_scope.

Definition point_eqb (p q : Point) : bool :=
  Qeq_bool (px p) (px q) && Qeq_bool (py p) (py q).

(** Modelled from the spec: [isSelectionClosed] of [math/selection-math],
    which is not part of the sources; a selection is closed when it has at
    least three points and ends where it starts. *)
Definition closed (selection : option (list Point)) : bool :=
  match selection with
  | Some (p :: ps) => (2 <=? List.length ps)%nat && point_eqb p (List.last ps p)
  | _ => false
  end.

(** Modelled from the spec: [slicePointers] of [rendering/lowres], which is
    not part of the sources; "only the pointer samples recorded since the
    last processed index". *)
Definition sliced (b : Brush) : list Point := skipn (last b) (pointers b).

(** Modelled from the spec: the position that the guide snapping finds,
    "the nearest alignment guide"; the guide whose origin is closest to
    the sprite's, and the sprite's own position when there is no guide. *)
Definition distance2 (b : Rectangle) (g : Guide) : Q :=
  (gx g - rleft b) * (gx g - rleft b) + (gy g - rtop b) * (gy g - rtop b).

Definition nearest (b : Rectangle) (gs : list Guide) : Point :=
  match gs with
  | [] => mkPoint (rleft b) (rtop b)
  | g :: gs' =>
      let n := fold_left
                 (fun best g' =>
                    if JsNumber.Qlt_bool (distance2 b g') (distance2 b best)
                    then g' else best)
                 gs' g in
      mkPoint (gx n) (gy n)
  end.

(** Helpers to run the methods on closed examples: every layer can be drawn
    on while selected, a new brush is up with nothing processed,
    [translatePointerRotation] is the one of an angle of zero, which is all
    that unrotated layers need, and the guide snapping picks the nearest
    guide. *)
Instance helpers : Helpers := {
  isSelectionClosed := closed;
  canDrawOnSelection := fun _ => true;
  translatePointerRotation := fun x y _ _ _ => mkPoint x y;
  BrushFactory_create := fun c r ps o =>
    {| color := c; radius := r; pointers := ps; down := false; last := 0%nat;
       options := o |};
  slicePointers := sliced;
  colorAt := fun _ _ => "rgba(0,0,0,0)";
  snapPosition := nearest
}.

Definition brushOptions : ToolOptions :=
  {| size := Some 5; opacity := Some 1; strokes := Some 1;
     smartFill := false; coords := None; sourceLayerId := None |}.

(** A 100 x 100 graphic layer without mask, rotation or mirroring. *)
Definition layer0 : Layer :=
  {| id := "layer_1"; left := 0; top := 0;
     source := {| cwidth := 100; cheight := 100 |};
     mask := None; maskX := 0; maskY := 0;
     effects := {| rotation := 0; scale := 1;
                   mirrorX := false; mirrorY := false |} |}.

(** The sprite as its constructor leaves it, made interactive. *)
Definition sprite0 : Sprite :=
  {| layer := layer0;
     _bounds := {| rleft := 0; rtop := 0; rwidth := 100; rheight := 100 |};
     _interactive := true; _draggable := false; isDragging := false;
     _dragStartOffset := None; _dragStartEventCoordinates := None;
     _pointerX := 0; _pointerY := 0;
     _brush := BrushFactory_create "rgba(255,0,0,1)" (Some 10) []
                 (OptionsLiteral brushOptions);
     actionTarget := TargetSource;
     _selection := None; _invertSelection := false;
     _isPaintMode := false; _isDragMode := false; _isColorPicker := false;
     _toolType := None; _toolOptions := None; _cloneStartCoords := None;
     _pendingPaintState := None; _orgSourceToStore := None;
     tempCanvas := false; _rafFx := false |}.

Definition world0 : World :=
  {| sprite := sprite0;
     heap := fun _ => brushOptions;
     store := {| activeColor := "rgba(255,0,0,1)"; activeLayerMask := None;
                 preferences := {| lowMemory := false; wasmFilters := false;
                                   snapAlign := false; antiAlias := true |};
                 getters_snapAlign := false |};
     canvas := {| documentScale := 1; draggingSprite := None; guides := [] |};
     registered := true;
     timers := []; nextTimer := 1%positive; jobs := []; history := [];
     log := []; paintCalls := 0%nat |}.

Definition noSelection : Document :=
  {| selection := None; invertSelection := false |}.

(** The brush is armed, pressed at (10, 10), and one frame passes. *)
Definition midStroke : World :=
  run [HandleActiveTool (Some BRUSH) (Some 0%nat) noSelection;
       HandlePress 10 10 "mousedown";
       Update] world0.

(** The brush is armed and pressed at (10, 10). *)
Definition pressed : World :=
  run [HandleActiveTool (Some BRUSH) (Some 0%nat) noSelection;
       HandlePress 10 10 "mousedown"] world0.


(** The drag tool is selected while the brush is still down. *)
Definition dragMidStroke : World :=
  run [HandleActiveTool (Some DRAG) None noSelection] pressed.

(** The fill tool is armed and the layer filled by one press: a commit is
    pending and the brush is up. *)
Definition afterFill : World :=
  run [HandleActiveTool (Some FILL) (Some 0%nat) noSelection;
       HandlePress 10 10 "mousedown"] world0.

(** The clone stamp is armed. *)
Definition cloneArmed : World :=
  run [HandleActiveTool (Some CLONE) (Some 0%nat) noSelection] world0.

Definition isCommit (j : Job) : bool :=
  match j with
  | CommitPaintState _ _ _ => true
  | _ => false
  end.

End Scenario.

(* ------------------------------------------------------------------ *)
(** ** image-math.js: orientation *)

Module Orientation.
Import JsNumber.
Local Open Scope Q_scope.

Definition isPortrait  (width height : Q) : bool := Qlt_bool width height.
Definition isLandscape (width height : Q) : bool := Qgt_bool width height.
Definition isSquare    (width height : Q) : bool := Qeq_bool width height.

End Orientation.

(* ------------------------------------------------------------------ *)
(** ** layer-sprite.js: history closures and the armed state *)

Module LayerSpriteMore.
Import LayerSprite.
Local Open Scope Q_scope.

Section MaskHistory.
Context `{Helpers}.

(** The body shared by the closures that the mask branch of [handleMove]
    hands to [enqueueState]:
    [layer.maskX = x; layer.maskY = y;
     getSpriteForLayer( layer )?.resetFilterAndRecache();] *)
Definition positionMask (x y : Q) (w : World) : World :=
  let w := upd (set_layer (layer_with_mask_offset (layer (sprite w)) x y)) w in
  if registered w then resetFilterAndRecache w else w.

(** [undo()] and [redo()] of a [maskPos_] history entry; a paint entry
    restores pixels and moves no mask. *)
Definition undoMaskPos (e : HistoryEntry) (w : World) : option World :=
  match e with
  | MaskPos _ maskX maskY _ _ => Some (positionMask maskX maskY w)
  | SpritePaint _ _ _ => None
  end.

Definition redoMaskPos (e : HistoryEntry) (w : World) : option World :=
  match e with
  | MaskPos _ _ _ newMaskX newMaskY => Some (positionMask newMaskX newMaskY w)
  | SpritePaint _ _ _ => None
  end.

End MaskHistory.

Section ReleaseNotions.
Context `{Helpers}.

(** The world in which [handleRelease] calls [paint]: the preview canvas is
    disposed of, the brush is up and nothing of it counts as processed. *)
Definition strokeEnd (w : World) : World :=
  let w := emit DisposeTempCanvas w in
  let w := upd (set_tempCanvas false) w in
  let b := this_brush w in
  let w := upd (set_brush (brush_with b (pointers b) false (last b))) w in
  let b := this_brush w in
  upd (set_brush (brush_with b (pointers b) (down b) 0%nat)) w.

(** What [handleRelease] does once that [paint] has returned. *)
Definition strokeCommit (w : World) : World :=
  let b := this_brush w in
  let w := upd (set_brush (brush_with b [] (down b) (last b))) w in
  releaseMode (if negb (lowMemory (preferences (store w)))
               then storePaintState w
               else w).

(** From [w] to [w'] the log has grown by events that are no calls on
    context [c]. *)
Definition untouched (c : Ctx) (w w' : World) : Prop :=
  exists evs, log w' = app (log w) evs /\ ctx_ops c evs = [].


End ReleaseNotions.

(** The tools of the [// drawables] cases of [handleActiveTool]. *)
Definition isDrawableTool (t : option ToolTypes) : bool :=
  toolIs t FILL || toolIs t ERASER || toolIs t BRUSH || toolIs t CLONE.

(** What [handleActiveTool] decides: the tool, its options, the three mode
    flags and the cached selection. *)
Definition arming (s : Sprite) :=
  (_toolType s, _toolOptions s,
   _isPaintMode s, _isDragMode s, _isColorPicker s,
   _selection s, _invertSelection s).

(** The mode flags agree with the tool type. *)
Definition modeTable (s : Sprite) : Prop :=
  _isPaintMode s = isDrawableTool (_toolType s) /\
  _isDragMode s = toolIs (_toolType s) DRAG /\
  _isColorPicker s = toolIs (_toolType s) EYEDROPPER.

(** No operation but a tool activation. *)
Definition keepsTool (op : Op) : bool :=
  match op with
  | HandleActiveTool _ _ _ => false
  | _ => true
  end.

(** A tool options object up to its [coords], the source coordinates of
    the clone stamp. *)
Definition optionsShape (o : ToolOptions) :=
  (size o, opacity o, strokes o, smartFill o, sourceLayerId o).

(** No operation but a press. *)
Definition keepsOptions (op : Op) : bool :=
  match op with
  | HandlePress _ _ _ => false
  | _ => true
  end.

(** The continuations of [jobs] that commit a paint state. *)
Definition commitJobs (js : list Job) : list Job :=
  filter (fun j => match j with
                   | CommitPaintState _ _ _ => true
                   | _ => false
                   end) js.

End LayerSpriteMore.

(* ------------------------------------------------------------------ *)
(** ** Further states of the concrete sprite *)

Module ScenarioMore.
Import LayerSprite Scenario.
Local Open Scope Q_scope.
Local Open Scope string_scope.


(** The drag tool is armed. *)
Definition dragArmed : World :=
  run [HandleActiveTool (Some DRAG) None noSelection] world0.

(** The drag tool is armed after the brush, whose drag anchors stay, and
    the mask is made the action target. *)
Definition maskDrag : World :=
  run [HandleActiveTool (Some BRUSH) (Some 0%nat) noSelection;
       HandleActiveTool (Some DRAG) None noSelection;
       SetActionTarget TargetMask] world0.

(** The sprite of [world0] in low memory mode, the brush armed and
    pressed. *)
Definition lowMemoryPressed : World :=
  run [HandleActiveTool (Some BRUSH) (Some 0%nat) noSelection;
       HandlePress 10 10 "mousedown"]
      (with_store
         {| activeColor := "rgba(255,0,0,1)"; activeLayerMask := None;
            preferences := {| lowMemory := true; wasmFilters := false;
                              snapAlign := false; antiAlias := true |};
            getters_snapAlign := false |}
         world0).

(** The layer of [world0] with a mask of its size, the mask being the one
    that is edited. *)
Definition masked : World :=
  with_store
    {| activeColor := "rgba(255,0,0,1)";
       activeLayerMask := Some "layer_1";
       preferences := {| lowMemory := false; wasmFilters := false;
                         snapAlign := false; antiAlias := true |};
       getters_snapAlign := false |}
    (upd (set_layer
            {| id := "layer_1"; left := 0; top := 0;
               source := {| cwidth := 100; cheight := 100 |};
               mask := Some {| cwidth := 100; cheight := 100 |};
               maskX := 0; maskY := 0;
               effects := {| rotation := 0; scale := 1;
                             mirrorX := false; mirrorY := false |} |})
         world0).

(** The eraser is armed on the masked layer and pressed. *)
Definition maskErasing : World :=
  run [HandleActiveTool (Some ERASER) (Some 0%nat) noSelection;
       HandlePress 10 10 "mousedown"] masked.

End ScenarioMore.

(* ------------------------------------------------------------------ *)
(** ** document-util.js *)

Module DocumentUtil.

Section Tiles.
Local Open Scope Z_scope.

(** One iteration of [sliceTiles]: a canvas of [sw] by [sh] pixels that
    receives the rectangle of that size at ([sx], [sy]) of the source
    bitmap.  Sizes are whole pixels. *)
Record Slice := { sx : Z; sy : Z; sw : Z; sh : Z }.

(** [for ( let x = 0; x < width; x += tileWidth ) { ... }], started at [x];
    [None] when the loop has not ended after [fuel] iterations. *)
Fixpoint sliceRow (fuel : nat) (width height tileWidth tileHeight : Z)
  (y x : Z) (out : list Slice) : option (list Slice) :=
  if x <? width then
    match fuel with
    | O => None
    | S fuel' =>
        let w := if x + tileWidth >? width
                 then x + tileWidth - width else width in
        let h := if y + tileHeight >? height
                 then y + tileHeight - height else height in
        sliceRow fuel' width height tileWidth tileHeight y (x + tileWidth)
          (app out [{| sx := x; sy := y; sw := w; sh := h |}])
    end
  else Some out.

(** [for ( let y = 0; y < height; y += tileHeight ) { ... }], started at
    [y]; every row may take [bound] iterations. *)
Fixpoint sliceRows (bound fuel : nat) (width height tileWidth tileHeight : Z)
  (y : Z) (out : list Slice) : option (list Slice) :=
  if y <? height then
    match fuel with
    | O => None
    | S fuel' =>
        match sliceRow bound width height tileWidth tileHeight y 0 out with
        | None => None
        | Some out =>
            sliceRows bound fuel' width height tileWidth tileHeight
              (y + tileHeight) out
        end
    end
  else Some out.

(** [sliceTiles( sourceBitmap, tileWidth, tileHeight )] on a bitmap of
    [width] by [height] pixels, each loop being given [fuel] iterations. *)
Definition sliceTiles (fuel : nat) (width height tileWidth tileHeight : Z)
  : option (list Slice) :=
  sliceRows fuel fuel width height tileWidth tileHeight 0 [].



(** A [drawImage] of a whole tile into the rectangle of [dw] by [dh] pixels
    at ([dx], [dy]) of the destination. *)
Record Placement (T : Type) := {
  tile : T; dx : Z; dy : Z; dw : Z; dh : Z
}.

(** The canvas that [tilesToSingle] returns, by its size and the tiles
    drawn on it. *)
Record Single (T : Type) := {
  canvasWidth  : Z;
  canvasHeight : Z;
  drawn        : list (Placement T)
}.

(** [tiles.forEach( tile => { ... } )] with the counters [x] and [y]. *)
Fixpoint placeTiles {T : Type} (tiles : list T)
  (tileWidth tileHeight amountOfColumns : Z) (x y : Z)
  : list (Placement T) :=
  match tiles with
  | [] => []
  | t :: rest =>
      {| tile := t; dx := x * tileWidth; dy := y * tileHeight;
         dw := tileWidth; dh := tileHeight |} ::
      (let x := x + 1 in
       if x =? amountOfColumns
       then placeTiles rest tileWidth tileHeight amountOfColumns 0 (y + 1)
       else placeTiles rest tileWidth tileHeight amountOfColumns x y)
  end.

(** [tilesToSingle( tiles, tileWidth, tileHeight, amountOfColumns )], for an
    amount of columns other than zero; [Math.ceil] of the quotient of two
    integers is written with the integer division. *)
Definition tilesToSingle {T : Type} (tiles : list T)
  (tileWidth tileHeight amountOfColumns : Z) : Single T :=
  let amountOfRows :=
    - ((- Z.of_nat (List.length tiles)) / amountOfColumns) in
  let width  := amountOfColumns * tileWidth in
  let height := amountOfRows * tileHeight in
  {| canvasWidth := width; canvasHeight := height;
     drawn := placeTiles tiles tileWidth tileHeight amountOfColumns 0 0 |}.

End Tiles.

Section RenderFullSize.

(** Layers and their sprites; [getSpriteForLayer] of
    [factories/sprite-factory] is not part of the sources. *)
Variables Layer Sprite : Type.
Variable getSpriteForLayer : Layer -> option Sprite.

(** [layers.forEach(( layer, index ) => { ... })] from [index] on: the
    sprites whose [draw] is called, in the order of the calls. *)
Fixpoint drawLayers (index : nat) (layers : list Layer)
  (optLayerIndices : list nat) : list Sprite :=
  match layers with
  | [] => []
  | layer :: rest =>
      app
        (if negb (Nat.eqb (List.length optLayerIndices) 0)
            && negb (existsb (Nat.eqb index) optLayerIndices)
         then []
         else match getSpriteForLayer layer with
              | Some sprite => [sprite]
              | None => []
              end)
        (drawLayers (S index) rest optLayerIndices)
  end.

(** [renderFullSize( activeDocument, optLayerIndices = [] )], by the sprites
    drawn onto the full size canvas. *)
Definition renderFullSize (layers : list Layer) (optLayerIndices : list nat)
  : list Sprite :=
  drawLayers 0 layers optLayerIndices.

(** [getSpriteForLayer( layer )?.draw( ... )]: the sprite drawn for a layer,
    if it has one. *)
Definition drawnFor (layer : Layer) : list Sprite :=
  match getSpriteForLayer layer with
  | Some sprite => [sprite]
  | None => []
  end.

(** The layers with their indices. *)
Definition indexed (layers : list Layer) : list (nat * Layer) :=
  combine (seq 0 (List.length layers)) layers.

End RenderFullSize.

Section Alignment.
Local Open Scope Q_scope.

Record Rect := { left : Q; top : Q; width : Q; height : Q }.

(** What [getAlignableObjects] reads of the document bounds and of a
    layer. *)
Record Alignable := {
  aid      : option string;   (* object.id *)
  bounds   : Rect;
  visible  : bool;
  rotation : option Q         (* object.effects?.rotation *)
}.

Record AlignableDocument := {
  docWidth  : Q;
  docHeight : Q;
  layers    : list Alignable
}.

(** [areEqual] and [rotateRectangle] of [math/rectangle-math] are not part
    of the sources. *)
Variable areEqual : Rect -> Rect -> bool.
Variable rotateRectangle : Rect -> option Q -> Rect.

Definition option_string_eqb (a b : option string) : bool :=
  match a, b with
  | Some x, Some y => String.eqb x y
  | None, None => true
  | _, _ => false
  end.

(** The guides that one object adds to the list. *)
Definition guidesOf (document : AlignableDocument) (documentBounds : Rect)
  (object : Alignable) : list Rect :=
  let r := rotateRectangle (bounds object) (rotation object) in
  let guideWidth  := docWidth document in
  let guideHeight := 0 in
  let horizontal :=
    app (if JsNumber.Qgt_bool (top r) 0
         then [{| left := 0; top := top r;
                  width := guideWidth; height := guideHeight |}]
         else [])
      (app [{| left := 0; top := top r + height r / 2;
               width := guideWidth; height := guideHeight |}]
         (if JsNumber.Qlt_bool (top r + height r) (height documentBounds)
          then [{| left := 0; top := top r + height r;
                   width := guideWidth; height := guideHeight |}]
          else [])) in
  let guideWidth  := 0 in
  let guideHeight := docHeight document in
  let vertical :=
    app (if JsNumber.Qgt_bool (left r) 0
         then [{| left := left r; top := 0;
                  width := guideWidth; height := guideHeight |}]
         else [])
      (app [{| left := left r + width r / 2; top := 0;
               width := guideWidth; height := guideHeight |}]
         (if JsNumber.Qlt_bool (left r + width r) (width documentBounds)
          then [{| left := left r + width r; top := 0;
                   width := guideWidth; height := guideHeight |}]
          else [])) in
  app horizontal vertical.

(** The callback of [reduce]; [isDocumentBounds] stands for
    [object === documentBounds]. *)
Definition addGuides (document : AlignableDocument) (documentBounds : Rect)
  (excludeLayer : option Alignable) (acc : list Rect)
  (entry : bool * Alignable) : list Rect :=
  let '(isDocumentBounds, object) := entry in
  if negb (visible object)
     || (negb isDocumentBounds && areEqual documentBounds (bounds object))
     || match excludeLayer with
        | Some l => option_string_eqb (aid object) (aid l)
        | None => false
        end
  then acc
  else app acc (guidesOf document documentBounds object).

(** [getAlignableObjects( document, excludeLayer )] *)
Definition getAlignableObjects (document : AlignableDocument)
  (excludeLayer : option Alignable) : list Rect :=
  let documentBounds :=
    {| left := 0; top := 0;
       width := docWidth document; height := docHeight document |} in
  let documentObject :=
    {| aid := None; bounds := documentBounds; visible := true;
       rotation := None |} in
  fold_left (addGuides document documentBounds excludeLayer)
    ((true, documentObject)
     :: map (fun l => (false, l)) (layers document))
    [].

End Alignment.

End DocumentUtil.

(* ------------------------------------------------------------------ *)
(** ** store/index.js: the mutations of the root store *)

Module RootStore.
Local Open Scope string_scope.

Record Notification := { title : string; message : string }.

(** The state of the root store that the modelled mutations write, with the
    suspension flag of the keyboard service that [openModal] and
    [closeModal] set. *)
Record State := {
  menuOpened         : bool;
  toolboxOpened      : bool;
  optionsPanelOpened : bool;
  blindActive        : bool;
  modal              : option string;
  notifications      : list Notification;
  keyboardSuspended  : bool
}.

(** [!!value] of a string that may be [null]. *)
Definition truthy (v : option string) : bool :=
  match v with
  | Some s => negb (String.eqb s "")
  | None => false
  end.

Section Mutations.

(** The module variable [i18n], set by [setupServices]:
    [i18n?.t( key, optArgs )], which may return nothing. *)
Variable i18n : option (string -> option string).

(** [translate = ( key, optArgs ) => i18n?.t( key, optArgs ) ?? key] *)
Definition translate (key : string) : string :=
  match i18n with
  | Some t => match t key with Some s => s | None => key end
  | None => key
  end.

(** A committed mutation with its payload; a payload that is only read
    through [!!] is given by its truth value. *)
Inductive Mutation :=
| SetMenuOpened (value : bool)
| SetToolboxOpened (value : bool)
| SetOptionsPanelOpened (value : bool)
| SetBlindActive (active : bool)
| OpenModal (modalName : option string)
| CloseModal
| ShowNotification (message : string) (title : option string)
| ClearNotifications.

Definition commit (s : State) (m : Mutation) : State :=
  match m with
  | SetMenuOpened value =>
      {| menuOpened := value; toolboxOpened := toolboxOpened s;
         optionsPanelOpened := optionsPanelOpened s;
         blindActive := blindActive s; modal := modal s;
         notifications := notifications s;
         keyboardSuspended := keyboardSuspended s |}
  | SetToolboxOpened value =>
      {| menuOpened := menuOpened s; toolboxOpened := value;
         optionsPanelOpened := optionsPanelOpened s;
         blindActive := blindActive s; modal := modal s;
         notifications := notifications s;
         keyboardSuspended := keyboardSuspended s |}
  | SetOptionsPanelOpened value =>
      {| menuOpened := menuOpened s; toolboxOpened := toolboxOpened s;
         optionsPanelOpened := value;
         blindActive := blindActive s; modal := modal s;
         notifications := notifications s;
         keyboardSuspended := keyboardSuspended s |}
  | SetBlindActive active =>
      {| menuOpened := menuOpened s; toolboxOpened := toolboxOpened s;
         optionsPanelOpened := optionsPanelOpened s;
         blindActive := active; modal := modal s;
         notifications := notifications s;
         keyboardSuspended := keyboardSuspended s |}
  | OpenModal modalName =>
      {| menuOpened := menuOpened s; toolboxOpened := toolboxOpened s;
         optionsPanelOpened := optionsPanelOpened s;
         blindActive := truthy modalName; modal := modalName;
         notifications := notifications s;
         keyboardSuspended := truthy modalName |}
  | CloseModal =>
      {| menuOpened := menuOpened s; toolboxOpened := toolboxOpened s;
         optionsPanelOpened := optionsPanelOpened s;
         blindActive := false; modal := None;
         notifications := notifications s;
         keyboardSuspended := false |}
  | ShowNotification message title =>
      {| menuOpened := menuOpened s; toolboxOpened := toolboxOpened s;
         optionsPanelOpened := optionsPanelOpened s;
         blindActive := blindActive s; modal := modal s;
         notifications :=
           app (notifications s)
             [{| title := match title with
                          | Some t => if String.eqb t ""
                                      then translate "title.success" else t
                          | None => translate "title.success"
                          end;
                 message := message |}];
         keyboardSuspended := keyboardSuspended s |}
  | ClearNotifications =>
      {| menuOpened := menuOpened s; toolboxOpened := toolboxOpened s;
         optionsPanelOpened := optionsPanelOpened s;
         blindActive := blindActive s; modal := modal s;
         notifications := [];
         keyboardSuspended := keyboardSuspended s |}
  end.

(** A sequence of commits. *)
Definition commitAll (ms : list Mutation) (s : State) : State :=
  fold_left commit ms s.

(** Every mutation but [clearNotifications]. *)
Definition keepsQueue (m : Mutation) : bool :=
  match m with
  | ClearNotifications => false
  | _ => true
  end.

(** The notification that [showNotification] queues. *)
Definition notificationOf (m : Mutation) : list Notification :=
  match m with
  | ShowNotification message title =>
      [{| title := match title with
                   | Some t => if String.eqb t ""
                               then translate "title.success" else t
                   | None => translate "title.success"
                   end;
          message := message |}]
  | _ => []
  end.

End Mutations.

(** The state of the store when it is created (the options panel open),
    the keyboard service not suspended. *)
Definition initialState : State :=
  {| menuOpened := false; toolboxOpened := false;
     optionsPanelOpened := true; blindActive := false; modal := None;
     notifications := []; keyboardSuspended := false |}.

End RootStore.

(* ------------------------------------------------------------------ *)
(** ** The preferences module of the store *)

Module PreferencesModule.
Local Open Scope string_scope.

(** A value read from stored JSON: a boolean, or anything else, of which
    only the truth value is read (by [!!]). *)
Inductive Json :=
| JBool (b : bool)
| JOther (isTruthy : bool).

Definition toBoolean (v : Json) : bool :=
  match v with JBool b => b | JOther t => t end.

(** [state.preferences] *)
Record PreferenceValues := {
  lowMemory   : Json;
  wasmFilters : Json;
  snapAlign   : Json;
  antiAlias   : Json
}.

(** The payload of [setPreferences]: an object that holds some of the four
    preferences; other keys are left out. *)
Record Payload := {
  lowMemory'   : option Json;
  wasmFilters' : option Json;
  snapAlign'   : option Json;
  antiAlias'   : option Json
}.

(** The state of a new store, [isMobile()] being [mobile]. *)
Definition initialPreferences (mobile : bool) : PreferenceValues :=
  {| lowMemory := JBool mobile; wasmFilters := JBool false;
     snapAlign := JBool false; antiAlias := JBool true |}.

Definition orElse (v : option Json) (d : Json) : Json :=
  match v with Some x => x | None => d end.

(** [state.preferences = { ...state.preferences, ...preferences }] *)
Definition setPreferences (state : PreferenceValues) (preferences : Payload)
  : PreferenceValues :=
  {| lowMemory   := orElse (lowMemory' preferences) (lowMemory state);
     wasmFilters := orElse (wasmFilters' preferences) (wasmFilters state);
     snapAlign   := orElse (snapAlign' preferences) (snapAlign state);
     antiAlias   := orElse (antiAlias' preferences) (antiAlias state) |}.

(** The preferences as a payload that holds all four. *)
Definition payloadOf (p : PreferenceValues) : Payload :=
  {| lowMemory' := Some (lowMemory p); wasmFilters' := Some (wasmFilters p);
     snapAlign' := Some (snapAlign p); antiAlias' := Some (antiAlias p) |}.

(** What [restorePreferences] does besides [setPreferences]: commits to
    other store modules and the call of the render service. *)
Inductive Effect :=
| CommitSetSnapAlign (value : bool)
| CommitSetAntiAlias (value : bool)
| SetWasmFilters (enabled : bool).

Section Actions.

(** [JSON.parse] and [JSON.stringify] on preferences.  [parse] returns
    nothing where the [try] block is left before it has any effect: where
    [JSON.parse] throws, and where it returns [null], of which
    [setPreferences] spreads nothing and [preferences.snapAlign] throws. *)
Variable parse : string -> option Payload.
Variable stringify : PreferenceValues -> string.

(** [restorePreferences], for the item that [localStorage] holds under the
    storage key, if any. *)
Definition restorePreferences (existing : option string)
  (state : PreferenceValues) : PreferenceValues * list Effect :=
  match existing with
  | None => (state, [])
  | Some text =>
      if String.eqb text "" then (state, [])
      else
        match parse text with
        | None => (state, [])
        | Some preferences =>
            let state := setPreferences state preferences in
            (state,
             app match snapAlign' preferences with
                 | Some (JBool b) => [CommitSetSnapAlign b]
                 | _ => []
                 end
               (app match antiAlias' preferences with
                    | Some (JBool b) => [CommitSetAntiAlias b]
                    | _ => []
                    end
                  [SetWasmFilters
                     match wasmFilters' preferences with
                     | Some v => toBoolean v
                     | None => false
                     end]))
        end
  end.

(** [storePreferences]: the item written to [localStorage]. *)
Definition storePreferences (state : PreferenceValues) : option string :=
  Some (stringify state).

End Actions.

End PreferencesModule.

(* ================================================================== *)
(** * Properties of the geometry helpers *)

Module ImageMathFacts.
Import JsNumber UnitMath ImageMath.

Section ScaleToRatioFacts.
Local Open Scope Q_scope.

Lemma Qgt_bool_true a b : Qgt_bool a b = true <-> b < a.
Proof.
  unfold Qgt_bool. rewrite negb_true_iff.
  split; intro H.
  - apply Qnot_le_lt. intro Hle. apply Qle_bool_iff in Hle. congruence.
  - destruct (Qle_bool a b) eqn:E; trivial.
    apply Qle_bool_iff in E. apply Qle_not_lt in E. contradiction.
Qed.

Lemma Qgt_bool_false a b : Qgt_bool a b = false <-> a <= b.
Proof.
  unfold Qgt_bool. rewrite negb_false_iff. apply Qle_bool_iff.
Qed.

Lemma Qlt_bool_true a b : Qlt_bool a b = true <-> a < b.
Proof. apply Qgt_bool_true. Qed.

Lemma Qlt_bool_false a b : Qlt_bool a b = false <-> b <= a.
Proof. apply Qgt_bool_false. Qed.

(** The height computed by the three-way branch is [destWidth] scaled by
    the image's height-to-width ratio, whichever branch is taken. *)
Lemma scaleToRatio_branch (iw ih dw dh : Q) :
  0 < iw -> 0 < ih ->
  let h0 :=
    snd (if Qgt_bool iw ih then (ih / iw, dw * (ih / iw))
         else if Qgt_bool ih iw then (ih / iw, dw * (ih / iw))
         else if Qeq_bool ih iw then (1, dw) else (1, dh)) in
  h0 == dw * (ih / iw).
Proof.
  intros Hiw Hih. cbv zeta.
  destruct (Qgt_bool iw ih) eqn:E1; [reflexivity|].
  destruct (Qgt_bool ih iw) eqn:E2; [reflexivity|].
  apply Qgt_bool_false in E1, E2.
  assert (Heq : ih == iw) by (apply Qle_antisym; assumption).
  destruct (Qeq_bool ih iw) eqn:E3.
  - simpl. rewrite Heq. field. intro H0. rewrite H0 in Hiw. inversion Hiw.
  - apply Qeq_bool_neq in E3. contradiction.
Qed.

Lemma Qpos_neq0 (a : Q) : 0 < a -> ~ a == 0.
Proof. intros H E. rewrite E in H. inversion H. Qed.

(** C10.  For strictly positive image and destination dimensions,
    [scaleToRatio] returns dimensions in the image's aspect ratio that cover
    the destination area: the width is at least [destWidth] and the height at
    least [destHeight].  (Exact rational arithmetic stands for the
    floating-point tolerance of the statement.) *)
Theorem scaleToRatio_keeps_ratio_and_covers (iw ih dw dh : Q) :
  0 < iw -> 0 < ih -> 0 < dw -> 0 < dh ->
  let d := scaleToRatio iw ih dw dh in
  width d / height d == iw / ih /\ dw <= width d /\ dh <= height d.
Proof.
  intros Hiw Hih Hdw Hdh.
  pose proof (scaleToRatio_branch dw dh Hiw Hih) as Hb. cbv zeta in Hb.
  unfold scaleToRatio. cbv zeta.
  destruct (if Qgt_bool iw ih then (ih / iw, dw * (ih / iw))
            else if Qgt_bool ih iw then (ih / iw, dw * (ih / iw))
            else if Qeq_bool ih iw then (1, dw) else (1, dh)) as [r h0].
  simpl in Hb.
  pose proof (Qpos_neq0 Hiw) as Niw. pose proof (Qpos_neq0 Hih) as Nih.
  pose proof (Qpos_neq0 Hdw) as Ndw. pose proof (Qpos_neq0 Hdh) as Ndh.
  assert (Hh0 : 0 < h0).
  { rewrite Hb. apply Qmult_lt_0_compat; [assumption|].
    apply Qlt_shift_div_l; [assumption|]. rewrite Qmult_0_l. assumption. }
  pose proof (Qpos_neq0 Hh0) as Nh0.
  assert (Hr : dw / h0 == iw / ih).
  { rewrite Hb. field. repeat split; assumption. }
  destruct (Qlt_bool h0 dh) eqn:E; simpl.
  - apply Qlt_bool_true in E. split; [|split].
    + rewrite <- Hr. field. split; assumption.
    + assert (Hk : 1 <= dh / h0).
      { apply Qle_shift_div_l; [assumption|]. rewrite Qmult_1_l.
        apply Qlt_le_weak. assumption. }
      setoid_replace dw with (dw * 1) at 1 by ring.
      apply Qmult_le_l; assumption.
    + apply Qle_refl.
  - apply Qlt_bool_false in E. split; [|split].
    + exact Hr.
    + apply Qle_refl.
    + exact E.
Qed.

(** A run of [scaleToRatio] on a landscape image and a square destination. *)
Lemma scaleToRatio_keeps_ratio_and_covers_witness :
  let d := scaleToRatio 4 3 10 10 in
  width d / height d == 4 / 3 /\ 10 <= width d /\ 10 <= height d.
Proof.
  apply (@scaleToRatio_keeps_ratio_and_covers 4 3 10 10); reflexivity.
Defined.

End ScaleToRatioFacts.

Section ConstrainFacts.
Local Open Scope R_scope.

Lemma toInt32_small (z : Z) :
  (-2147483648 <= z < 2147483648)%Z -> toInt32 z = z.
Proof.
  intros Hz. unfold toInt32.
  rewrite Z.mod_small by lia. lia.
Qed.

(** Below 2^31 [fastRound] of a positive number is the floor of the number
    plus one half. *)
Lemma fastRound_pos (x : R) :
  0 < x -> x + 5 / 10 < 2147483648 ->
  fastRound x = IZR (Zfloor (x + 5 / 10)).
Proof.
  intros Hx Hb. unfold fastRound, shl0, truncate.
  destruct (Rgt_dec x 0) as [_|N]; [|exfalso; apply N; exact Hx].
  destruct (Rlt_dec (x + 5 / 10) 0) as [Hn|_]; [lra|].
  f_equal. apply toInt32_small.
  pose proof (Zfloor_bound (x + 5 / 10)) as [Hlo Hhi].
  split.
  - apply Z.le_trans with 0%Z; [lia|]. apply Zfloor_lub. simpl. lra.
  - apply lt_IZR. lra.
Qed.

Lemma sqrt_9 : sqrt 9 = 3.
Proof. replace 9 with (3 * 3) by lra. apply sqrt_square. lra. Qed.

Lemma sqrt_8_bounds : 25 / 10 <= sqrt 8 < 35 / 10.
Proof.
  split.
  - rewrite <- (sqrt_square (25 / 10)) by lra. apply sqrt_le_1_alt. lra.
  - rewrite <- (sqrt_square (35 / 10)) by lra. apply sqrt_lt_1_alt. lra.
Qed.

(** A 3 x 3 image against a budget of 8 pixels: both sides scale to
    [sqrt 8 = 2.83] and round back up to 3. *)
Lemma constrain_3_3_8 : constrain 3 3 8 = {| width := 3; height := 3 |}.
Proof.
  unfold constrain.
  destruct (Rgt_dec (3 * 3) 8) as [_|N]; [|exfalso; apply N; lra].
  replace (3 * 3) with 9 by lra. rewrite sqrt_9.
  replace (3 * (sqrt 8 / 3)) with (sqrt 8) by (field; lra).
  pose proof sqrt_8_bounds as [Hlo Hhi].
  rewrite fastRound_pos by lra.
  rewrite (@Zfloor_eq 3 (sqrt 8 + 5 / 10)) by lra.
  reflexivity.
Qed.

(** C8.  [constrain( 3, 3, 8 )] returns 3 by 3, nine pixels against a
    budget of eight: both sides scale to [sqrt 8 = 2.83], which [fastRound]
    rounds up to 3.  The result is the same in exact arithmetic and in
    binary64. *)
Theorem constrain_exceeds_budget :
  constrain 3 3 8 = {| width := 3; height := 3 |} /\
  8 < width (constrain 3 3 8) * height (constrain 3 3 8) /\
  (let n := Binary64.of_int32 in
   let d := Binary64.constrain64 (n 3%Z) (n 3%Z) (n 8%Z) in
   d = {| width := n 3%Z; height := n 3%Z |} /\
   PrimFloat.ltb (n 8%Z) (PrimFloat.mul (width d) (height d)) = true).
Proof.
  rewrite constrain_3_3_8. cbn [width height].
  split; [reflexivity|]. split; [lra|].
  split; vm_compute; reflexivity.
Qed.

End ConstrainFacts.

End ImageMathFacts.

(* ================================================================== *)
(** * Properties of the layer sprite *)

Module LayerSpriteFacts.
Import LayerSprite.
Local Open Scope Q_scope.
Local Open Scope string_scope.

(** *** Tactics *)

(** Case analysis on the innermost scrutinee of the goal. *)
Ltac branch :=
  match goal with
  | |- context [match ?x with _ => _ end] =>
      lazymatch x with
      | context [match _ with _ => _ end] => fail
      | _ => destruct x eqn:?
      end
  end.

Ltac branches := repeat (branch; cbn -[ctx_ops rotatePointerLists] in * ).

(** Splits the conjunctions of the goal, and nothing else. *)
Ltac conjuncts := repeat match goal with |- _ /\ _ => split end.

(** Unfolds the state updates of the model and computes the fields. *)
Ltac fields :=
  unfold storeBrushPointer, forceMoveListener, preparePendingPaintState,
    debouncePaintStore, setTimeout, clearTimeout, canvasToBlob, enqueueState,
    call, emit, upd, this_brush in *;
  cbn -[ctx_ops rotatePointerLists skipn] in *.

(** Closes a [draws] goal between worlds given by field updates. *)
Ltac draws_by_computation :=
  unfold draws; fields;
  eexists; split;
  [ rewrite <- ?app_assoc; try reflexivity; symmetry; apply app_nil_r
  | reflexivity ].

Section Facts.
Context `{Helpers}.

(** *** Lists and logs *)

Lemma ctx_ops_app (c : Ctx) (l l' : list Event) :
  ctx_ops c (app l l') = app (ctx_ops c l) (ctx_ops c l').
Proof.
  induction l as [|e l IH]; simpl; [reflexivity|].
  destruct e; simpl; try exact IH.
  destruct (ctx_eqb c c0); simpl; rewrite IH; reflexivity.
Qed.

Lemma rotatePointerLists_length (ps : list Point) (l : Layer) (sw sh : Q) :
  List.length (rotatePointerLists ps l sw sh) = List.length ps.
Proof. unfold rotatePointerLists. apply length_map. Qed.

(** *** What [paint] leaves alone *)

(** Closes a [frame] goal between two worlds given by field updates. *)
Ltac frame_by_computation :=
  unfold frame, timerState, modes, brushShape;
  cbn -[ctx_ops rotatePointerLists];
  repeat split;
  try reflexivity;
  try (rewrite rotatePointerLists_length; reflexivity);
  try (eexists; rewrite <- ?app_assoc; try reflexivity;
       symmetry; apply app_nil_r).


Lemma frame_refl (w : World) : frame w w.
Proof. frame_by_computation. Qed.

Lemma frame_trans (w1 w2 w3 : World) :
  frame w1 w2 -> frame w2 w3 -> frame w1 w3.
Proof.
  unfold frame.
  intros (A1 & A2 & A3 & A4 & A5 & A6 & A7 & A8 & A9 & [js1 A10] & [l1 A11])
         (B1 & B2 & B3 & B4 & B5 & B6 & B7 & B8 & B9 & [js2 B10] & [l2 B11]).
  repeat split; try congruence.
  - exists (app js1 js2). rewrite B10, A10, app_assoc. reflexivity.
  - exists (app l1 l2). rewrite B11, A11, app_assoc. reflexivity.
Qed.

Lemma frame_emit (e : Event) (w : World) : frame w (emit e w).
Proof. frame_by_computation. Qed.

Lemma frame_call (c : Ctx) (op : CtxOp) (w : World) : frame w (call c op w).
Proof. apply frame_emit. Qed.

Lemma frame_cacheEffects (w : World) : frame w (cacheEffects w).
Proof. unfold cacheEffects. branches; frame_by_computation. Qed.

Lemma frame_resetFilterAndRecache (w : World) :
  frame w (resetFilterAndRecache w).
Proof.
  unfold resetFilterAndRecache.
  eapply frame_trans; [apply frame_emit|apply frame_cacheEffects].
Qed.

Lemma frame_paintAction (c : Ctx) (a : Action) (w : World) :
  frame w (paintAction c a w).
Proof. unfold paintAction. branches; frame_by_computation. Qed.

Lemma frame_paintFill (c : Ctx) (width height : Q) (w : World) :
  frame w (world_of (paintFill c width height w)).
Proof. unfold paintFill. branches; frame_by_computation. Qed.

Lemma frame_paintClone (c : Ctx) (lowres : bool) (ps : list Point)
  (width height : Q) (w : World) :
  frame w (world_of (paintClone c lowres ps width height w)).
Proof. unfold paintClone. branches; frame_by_computation. Qed.

Lemma frame_paintBrush (c : Ctx) (lowres eraser : bool)
  (sel : option (list Point)) (ps : list Point) (width height : Q)
  (w : World) :
  frame w (snd (paintBrush c lowres eraser sel ps width height w)).
Proof. unfold paintBrush. branches; frame_by_computation. Qed.

Lemma frame_paintSelection (c : Ctx) (lowres : bool)
  (sel : option (list Point)) (width height : Q) (w : World) :
  frame w (snd (paintSelection c lowres sel width height w)).
Proof. unfold paintSelection. branches; frame_by_computation. Qed.

Lemma frame_paintTool (a : option Action) (c : Ctx)
  (lowres eraser clone fill : bool) (sel : option (list Point))
  (width height : Q) (w : World) :
  frame w (world_of (snd (paintTool a c lowres eraser clone fill sel
                            width height w))).
Proof.
  unfold paintTool.
  destruct a as [a|]; [apply frame_paintAction|].
  destruct fill; [apply frame_paintFill|].
  destruct clone; [apply frame_paintClone|].
  pose proof (frame_paintBrush c lowres eraser sel
                (slicePointers (this_brush w)) width height w) as F.
  destruct (paintBrush c lowres eraser sel (slicePointers (this_brush w))
              width height w) as [c' w'].
  exact F.
Qed.

Lemma paint_frame (a : option Action) (w : World) :
  frame (prepared (with_paintCalls (S (paintCalls w)) w))
        (world_of (paint a w)).
Proof.
  unfold paint. cbv zeta. fold (prepared (with_paintCalls (S (paintCalls w)) w)).
  set (w1 := prepared (with_paintCalls (S (paintCalls w)) w)).
  set (c := if isMaskable w1 then MaskCtx else SourceCtx).
  set (cvs := match isMaskable w1, mask (layer (sprite w1)) with
              | true, Some m => m
              | _, _ => source (layer (sprite w1))
              end).
  set (lowres := down (this_brush (call c Save w1)) && _).
  set (sel := match a with Some _ => _ | None => _ end).
  pose proof (frame_paintSelection c lowres sel (cwidth cvs) (cheight cvs)
                (call c Save w1)) as F2.
  destruct (paintSelection c lowres sel (cwidth cvs) (cheight cvs)
              (call c Save w1)) as [sel' w2].
  simpl in F2.
  assert (F12 : frame w1 w2)
    by (eapply frame_trans; [apply frame_call|exact F2]).
  pose proof (frame_paintTool a c lowres
                (toolIs (_toolType (sprite w1)) ERASER)
                (toolIs (_toolType (sprite w1)) CLONE)
                (toolIs (_toolType (sprite w1)) FILL)
                sel' (cwidth cvs) (cheight cvs) w2) as F3.
  destruct (paintTool a c lowres _ _ _ sel' (cwidth cvs) (cheight cvs) w2)
    as [c' o].
  simpl in F3.
  destruct o as [w3|w3]; simpl in *.
  - eapply frame_trans; [exact F12|].
    eapply frame_trans; [exact F3|].
    assert (F4 : frame w3 (call c' Restore
                   match sel' with
                   | Some _ => call c' Restore w3
                   | None => w3
                   end)).
    { destruct sel'; [eapply frame_trans|]; apply frame_call. }
    destruct lowres; [exact F4|].
    eapply frame_trans; [exact F4|apply frame_resetFilterAndRecache].
  - eapply frame_trans; [exact F12|exact F3].
Qed.


(** *** The idle release *)



(** *** The commit timer *)

Lemma timerState_fields (w w' : World) :
  timerState w' = timerState w ->
  timers w' = timers w /\ nextTimer w' = nextTimer w /\
  _pendingPaintState (sprite w') = _pendingPaintState (sprite w).
Proof.
  unfold timerState. intros E.
  pose proof (f_equal (fun p => fst (fst p)) E) as E1.
  pose proof (f_equal (fun p => snd (fst p)) E) as E2.
  pose proof (f_equal snd E) as E3.
  simpl in *. repeat split; assumption.
Qed.

(** *** The clone stamp's two presses *)

(** C7.  With the clone stamp armed, a press while the tool options hold no
    source coordinates stores the pressed position there and returns: the
    brush is untouched (no pointer, not down), nothing is painted and no
    collaborator is called.  The next press stores its position as the
    start coordinates of the destination, records the pointer and sets the
    brush down; so does any press that finds source coordinates and no
    start coordinates. *)
Theorem clone_press_anchors (x y : Q) (type : string) (r : Ref) (w : World) :
  _isColorPicker (sprite w) = false ->
  _isPaintMode (sprite w) = true ->
  _toolType (sprite w) = Some CLONE ->
  _toolOptions (sprite w) = Some r ->
  (coords (heap w r) = None ->
   exists w',
     handlePress x y type w = Returned w' /\
     coords (heap w' r) = Some (mkPoint x y) /\
     _cloneStartCoords (sprite w') = None /\
     _brush (sprite w') = _brush (sprite w) /\
     log w' = log w /\ paintCalls w' = paintCalls w /\
     history w' = history w /\ jobs w' = jobs w /\
     forall (x2 y2 : Q) (type2 : string),
     exists w'',
       handlePress x2 y2 type2 w' = Returned w'' /\
       coords (heap w'' r) = Some (mkPoint x y) /\
       _cloneStartCoords (sprite w'') = Some (mkPoint x2 y2) /\
       pointers (this_brush w'') =
         app (pointers (this_brush w)) [mkPoint x2 y2] /\
       down (this_brush w'') = true) /\
  (forall c, coords (heap w r) = Some c ->
   _cloneStartCoords (sprite w) = None ->
   exists w',
     handlePress x y type w = Returned w' /\
     coords (heap w' r) = Some c /\
     _cloneStartCoords (sprite w') = Some (mkPoint x y) /\
     pointers (this_brush w') = app (pointers (this_brush w)) [mkPoint x y] /\
     down (this_brush w') = true /\
     log w' = log w /\ paintCalls w' = paintCalls w).
Proof.
  intros Hc Hp Ht Ho. split.
  - intros Hn. unfold handlePress.
    destruct (isTouch type); cbn -[ctx_ops];
      rewrite Hc, Hp, Ht; cbn -[ctx_ops]; rewrite Ho, Hn;
      (eexists; split; [reflexivity|]);
      cbn -[ctx_ops]; unfold heap_set; rewrite Nat.eqb_refl;
      (repeat split; try reflexivity);
      intros x2 y2 type2; unfold handlePress;
      destruct (isTouch type2); cbn -[ctx_ops];
      rewrite Hc, Hp, Ht; cbn -[ctx_ops]; rewrite Ho;
      unfold heap_set; rewrite Nat.eqb_refl; cbn -[ctx_ops];
      (eexists; split; [reflexivity|]);
      cbn -[ctx_ops]; rewrite ?Nat.eqb_refl; repeat split; reflexivity.
  - intros c Hs Hn. unfold handlePress.
    destruct (isTouch type); cbn -[ctx_ops];
      rewrite Hc, Hp, Ht; cbn -[ctx_ops]; rewrite Ho, Hs, Hn;
      (eexists; split; [reflexivity|]);
      cbn -[ctx_ops]; repeat split; try reflexivity; exact Hs.
Qed.

(** *** The debounced snapshot commit *)

Lemma filter_idem {A : Type} (f : A -> bool) (l : list A) :
  filter f (filter f l) = filter f l.
Proof.
  induction l as [|e l IH]; [reflexivity|].
  simpl. destruct (f e) eqn:E; [|exact IH].
  simpl. rewrite E, IH. reflexivity.
Qed.

Lemma timer_in_table (t : TimerId) (d : Z) (l : list (TimerId * Z)) :
  In (t, d) l -> existsb (fun e => Pos.eqb (fst e) t) l = true.
Proof.
  intros Hin. apply existsb_exists. exists (t, d). split; [exact Hin|].
  apply Pos.eqb_refl.
Qed.

(** C4.  [paint] arms the commit with a delay of 5000 ms when none is
    pending.  When the timer fires while the brush is down, the commit
    requests no snapshot and enqueues no history entry; it sets one new
    timer with a delay of 1000 ms.  As long as the brush is down,
    [storePaintState] neither captures nor commits. *)
Theorem debounce_arms_and_rearms (a : option Action) (t : TimerId) (d : Z)
  (w : World) :
  (_pendingPaintState (sprite w) = None ->
   let w' := world_of (paint a w) in
   _pendingPaintState (sprite w') = Some (nextTimer w) /\
   timers w' = app (timers w) [(nextTimer w, 5000%Z)]) /\
  (_pendingPaintState (sprite w) = Some t -> In (t, d) (timers w) ->
   down (this_brush w) = true ->
   let w' := fireTimer t w in
   history w' = history w /\ jobs w' = jobs w /\
   log w' = app (log w) [ClearTimeout t; SetTimeout (nextTimer w) 1000%Z] /\
   _pendingPaintState (sprite w') = Some (nextTimer w) /\
   timers w' =
     app (filter (fun e => negb (Pos.eqb (fst e) t)) (timers w))
         [(nextTimer w, 1000%Z)]) /\
  (down (this_brush w) = true ->
   history (storePaintState w) = history w /\
   jobs (storePaintState w) = jobs w /\
   ~ In CanvasToBlob
       (skipn (List.length (log w)) (log (storePaintState w)))).
Proof.
  split; [|split].
  - intros Hn. cbv zeta.
    destruct (paint_frame a w) as (_ & _ & _ & _ & _ & _ & F & _).
    apply timerState_fields in F. destruct F as (F1 & F2 & F3).
    rewrite F1, F3. unfold prepared. cbn. rewrite Hn. cbn. split; reflexivity.
  - intros Hp Hin Hd. cbv zeta. unfold fireTimer.
    rewrite (timer_in_table _ _ _ Hin).
    unfold storePaintState. fields. rewrite Hp, Hd.
    fields. rewrite filter_idem, <- app_assoc.
    repeat split; reflexivity.
  - intros Hd. unfold storePaintState.
    destruct (_pendingPaintState (sprite w)) as [t'|].
    + fields. rewrite Hd. fields.
      repeat split; try reflexivity.
      rewrite <- app_assoc, skipn_app, Nat.sub_diag, skipn_all. simpl.
      intros [E|[E|[]]]; discriminate.
    + repeat split; try reflexivity.
      rewrite skipn_all. intros [].
Qed.

(** *** When [paint] returns *)


(** Preparing the pending paint state touches the commit timer, the
    waiting continuations and the log only. *)
Lemma prepared_counted (w : World) :
  let w1 := prepared (with_paintCalls (S (paintCalls w)) w) in
  paintCalls w1 = S (paintCalls w) /\
  history w1 = history w /\ heap w1 = heap w /\ store w1 = store w /\
  modes (sprite w1) = modes (sprite w) /\
  _brush (sprite w1) = _brush (sprite w) /\
  tempCanvas (sprite w1) = tempCanvas (sprite w) /\
  (exists evs, log w1 = app (log w) evs).
Proof.
  unfold prepared. cbn.
  destruct (_pendingPaintState (sprite w)); fields;
    repeat split; try reflexivity.
  - exists []. symmetry. apply app_nil_r.
  - eexists. rewrite <- app_assoc. reflexivity.
Qed.

(** The fields of a sprite that a [frame] keeps. *)
Lemma frame_modes (w w' : World) :
  frame w w' ->
  _toolType (sprite w') = _toolType (sprite w) /\
  _toolOptions (sprite w') = _toolOptions (sprite w) /\
  _isPaintMode (sprite w') = _isPaintMode (sprite w) /\
  _isDragMode (sprite w') = _isDragMode (sprite w) /\
  layer (sprite w') = layer (sprite w) /\
  down (this_brush w') = down (this_brush w) /\
  last (this_brush w') = last (this_brush w) /\
  List.length (pointers (this_brush w')) =
    List.length (pointers (this_brush w)).
Proof.
  intros (_ & _ & _ & _ & _ & _ & _ & M & B & _).
  unfold modes in M. unfold brushShape in B.
  injection M as; injection B as. repeat split; assumption.
Qed.

Lemma modes_fields (s s' : Sprite) :
  modes s' = modes s ->
  _toolType s' = _toolType s /\ _toolOptions s' = _toolOptions s /\
  _isPaintMode s' = _isPaintMode s /\ _isDragMode s' = _isDragMode s /\
  layer s' = layer s.
Proof.
  unfold modes. intros M. injection M as. repeat split; assumption.
Qed.

Lemma paintTool_returns (a : option Action) (c : Ctx)
  (lowres eraser clone fill : bool) (sel : option (list Point))
  (width height : Q) (w : World) :
  (fill = true -> _toolOptions (sprite w) <> None) ->
  (clone = true -> lowres = true -> _toolOptions (sprite w) <> None) ->
  returned (snd (paintTool a c lowres eraser clone fill sel width height w))
  = true.
Proof.
  intros Hf Hc. unfold paintTool.
  destruct a as [a|]; [reflexivity|].
  destruct fill.
  - unfold paintFill. simpl.
    destruct (_toolOptions (sprite w)); [reflexivity|].
    exfalso. apply Hf; reflexivity.
  - destruct clone.
    + unfold paintClone. simpl. destruct lowres; [|reflexivity].
      destruct (_toolOptions (sprite w)); [reflexivity|].
      exfalso. apply Hc; reflexivity.
    + destruct (paintBrush c lowres eraser sel
                  (slicePointers (this_brush w)) width height w).
      reflexivity.
Qed.

Lemma paint_returns (a : option Action) (w : World) :
  optionsPresent w -> returned (paint a w) = true.
Proof.
  intros [Hf Hc].
  destruct (prepared_counted w) as (_ & _ & _ & _ & M1 & B1 & _).
  apply modes_fields in M1. destruct M1 as (T1 & O1 & _).
  unfold paint. cbv zeta.
  fold (prepared (with_paintCalls (S (paintCalls w)) w)).
  set (w1 := prepared (with_paintCalls (S (paintCalls w)) w)) in *.
  set (c := if isMaskable w1 then MaskCtx else SourceCtx).
  set (cvs := match isMaskable w1, mask (layer (sprite w1)) with
              | true, Some m => m
              | _, _ => source (layer (sprite w1))
              end).
  set (lowres := down (this_brush (call c Save w1)) && _).
  set (sel := match a with Some _ => _ | None => _ end).
  pose proof (frame_paintSelection c lowres sel (cwidth cvs) (cheight cvs)
                (call c Save w1)) as F2.
  destruct (paintSelection c lowres sel (cwidth cvs) (cheight cvs)
              (call c Save w1)) as [sel' w2].
  simpl in F2. apply frame_modes in F2. destruct F2 as (_ & O2 & _).
  assert (O : _toolOptions (sprite w2) = _toolOptions (sprite w))
    by (rewrite O2; exact O1).
  pose proof (@paintTool_returns a c lowres
                (toolIs (_toolType (sprite w1)) ERASER)
                (toolIs (_toolType (sprite w1)) CLONE)
                (toolIs (_toolType (sprite w1)) FILL)
                sel' (cwidth cvs) (cheight cvs) w2) as R.
  destruct (paintTool a c lowres _ _ _ sel' (cwidth cvs) (cheight cvs) w2)
    as [c' o].
  simpl in R. destruct o as [w3|w3]; [reflexivity|].
  simpl. apply R.
  - intros Ef. rewrite O. apply Hf. rewrite <- T1. exact Ef.
  - intros Ec El. rewrite O. apply Hc; [rewrite <- T1; exact Ec|].
    subst lowres. apply andb_prop in El. destruct El as [El _].
    unfold this_brush in *. simpl in El. rewrite B1 in El. exact El.
Qed.

Lemma paint_counts (a : option Action) (w : World) :
  paintCalls (world_of (paint a w)) = S (paintCalls w).
Proof.
  destruct (paint_frame a w) as (P & _).
  destruct (prepared_counted w) as (P1 & _).
  rewrite P. exact P1.
Qed.

(** *** Moves and frames *)

Lemma handleMove_brushing (x y : Q) (type : string) (w : World) :
  down (this_brush w) = true -> _isPaintMode (sprite w) = true ->
  exists w',
    handleMove x y type w = Returned w' /\
    pointers (this_brush w') = app (pointers (this_brush w)) [mkPoint x y] /\
    down (this_brush w') = true /\
    last (this_brush w') = last (this_brush w) /\
    _isPaintMode (sprite w') = true /\
    _toolType (sprite w') = _toolType (sprite w) /\
    _toolOptions (sprite w') = _toolOptions (sprite w) /\
    log w' = log w /\ paintCalls w' = paintCalls w /\
    history w' = history w /\ jobs w' = jobs w /\
    timerState w' = timerState w.
Proof.
  intros Hd Hp. unfold handleMove.
  destruct (isTouch type); fields; rewrite Hp, Hd; fields;
    (eexists; split; [reflexivity|]); fields;
    repeat split; try reflexivity; assumption.
Qed.

Lemma handleMoves_brushing (moves : list Point) (type : string) (w : World) :
  down (this_brush w) = true -> _isPaintMode (sprite w) = true ->
  let w' := handleMoves moves type w in
  pointers (this_brush w') = app (pointers (this_brush w)) moves /\
  down (this_brush w') = true /\
  _toolType (sprite w') = _toolType (sprite w) /\
  _toolOptions (sprite w') = _toolOptions (sprite w) /\
  log w' = log w /\ paintCalls w' = paintCalls w /\
  history w' = history w.
Proof.
  revert w. induction moves as [|p moves IH]; intros w Hd Hp.
  - simpl. rewrite app_nil_r. repeat split; try reflexivity; assumption.
  - simpl.
    destruct (handleMove_brushing (px p) (py p) type w Hd Hp)
      as (w1 & E & P1 & D1 & _ & M1 & T1 & O1 & L1 & C1 & Hi1 & _).
    rewrite E. simpl.
    destruct (IH w1 D1 M1) as (P2 & D2 & T2 & O2 & L2 & C2 & Hi2).
    destruct p as [x y]. simpl in P1.
    repeat split; try congruence.
    rewrite P2, P1, <- app_assoc. reflexivity.
Qed.

Lemma update_paints_once (w : World) :
  down (this_brush w) = true ->
  paintCalls (world_of (update w)) = S (paintCalls w) /\
  (optionsPresent w ->
   exists w',
     update w = Returned w' /\
     last (this_brush w') = List.length (pointers (this_brush w')) /\
     List.length (pointers (this_brush w')) =
       List.length (pointers (this_brush w))).
Proof.
  intros Hd. unfold update. rewrite Hd.
  pose proof (paint_counts None w) as C.
  pose proof (paint_frame None w) as F.
  apply frame_modes in F. destruct F as (_ & _ & _ & _ & _ & _ & _ & Len).
  destruct (prepared_counted w) as (_ & _ & _ & _ & _ & B1 & _).
  unfold this_brush in *. rewrite B1 in Len.
  split.
  - destruct (paint None w); simpl in *; exact C.
  - intros Ho. pose proof (paint_returns None Ho) as R.
    destruct (paint None w) as [w1|w1]; [|discriminate].
    eexists. split; [reflexivity|]. simpl in *. split; [reflexivity|exact Len].
Qed.

(** C6, amended.  While the brush is down and the sprite is in paint mode,
    a burst of [handleMove] calls appends exactly its samples to the brush
    pointers and calls no collaborator: nothing is drawn and [paint] is not
    invoked.  [update], when the brush is down, invokes [paint] exactly once
    and then sets [last] to the number of pointers; so the burst and the
    frame that follows it account for one invocation of [paint]. *)
Theorem moves_append_update_paints_once (moves : list Point) (type : string)
  (w : World) :
  down (this_brush w) = true ->
  _isPaintMode (sprite w) = true ->
  optionsPresent w ->
  let w1 := handleMoves moves type w in
  pointers (this_brush w1) = app (pointers (this_brush w)) moves /\
  log w1 = log w /\
  paintCalls w1 = paintCalls w /\
  exists w2,
    update w1 = Returned w2 /\
    paintCalls w2 = S (paintCalls w) /\
    last (this_brush w2) = List.length (pointers (this_brush w2)) /\
    List.length (pointers (this_brush w2)) =
      (List.length (pointers (this_brush w)) + List.length moves)%nat.
Proof.
  intros Hd Hp [Hf Hc]. cbv zeta.
  destruct (handleMoves_brushing moves type w Hd Hp)
    as (P & D & T & O & L & C & _).
  repeat split; try assumption.
  destruct (update_paints_once (handleMoves moves type w) D) as (N & U).
  destruct U as (w2 & E & La & Len).
  { split; rewrite T, O; intros; [apply Hf|apply Hc]; assumption. }
  exists w2. rewrite E in N. simpl in N.
  repeat split; try congruence.
  rewrite Len, P, length_app. reflexivity.
Qed.

(** *** Tool activation *)

(** Arming a tool leaves the commit timer, the waiting continuations and
    the history alone. *)
Lemma armTool_frame (tool : option ToolTypes) (o : option Ref)
  (doc : Document) (w : World) :
  let w' := armTool tool o doc w in
  timerState w' = timerState w /\ jobs w' = jobs w /\
  history w' = history w /\ _orgSourceToStore (sprite w') =
  _orgSourceToStore (sprite w).
Proof.
  unfold armTool, cacheBrush, setSelection, timerState.
  destruct (_interactive (sprite w)); [|repeat split; reflexivity].
  destruct tool as [[]|]; fields; branches; repeat split; reflexivity.
Qed.

Lemma resetInteractionState_frame (w : World) :
  let w' := resetInteractionState w in
  timerState w' = timerState w /\ jobs w' = jobs w /\
  history w' = history w /\ log w' = log w /\
  _brush (sprite w') = _brush (sprite w) /\
  layer (sprite w') = layer (sprite w) /\
  _orgSourceToStore (sprite w') = _orgSourceToStore (sprite w).
Proof. unfold resetInteractionState. fields. repeat split; reflexivity. Qed.

Lemma nth_error_snoc {A : Type} (l : list A) (a : A) :
  nth_error (app l [a]) (List.length l) = Some a.
Proof.
  rewrite nth_error_app2 by apply Nat.le_refl.
  rewrite Nat.sub_diag. reflexivity.
Qed.

Lemma remove_nth_snoc {A : Type} (l : list A) (a : A) :
  remove_nth (List.length l) (app l [a]) = l.
Proof.
  induction l as [|b l IH]; simpl; [reflexivity|]. rewrite IH. reflexivity.
Qed.

(** [storePaintState] with a pending commit and the brush up. *)
Lemma storePaintState_commits (t : TimerId) (w : World) :
  _pendingPaintState (sprite w) = Some t ->
  down (this_brush w) = false ->
  let w' := storePaintState w in
  let after := ctx_ops SourceCtx (app (log w) [ClearTimeout t]) in
  _pendingPaintState (sprite w') = None /\
  timers w' = filter (fun e => negb (Pos.eqb (fst e) t)) (timers w) /\
  history w' = history w /\
  jobs w' =
    app (jobs w)
      [CommitPaintState (id (layer (sprite w)))
         (_orgSourceToStore (sprite w)) after] /\
  log w' = app (log w) [ClearTimeout t; CanvasToBlob] /\
  _brush (sprite w') = _brush (sprite w) /\
  tempCanvas (sprite w') = tempCanvas (sprite w) /\
  paintCalls w' = paintCalls w /\
  store w' = store w /\
  _isPaintMode (sprite w') = _isPaintMode (sprite w) /\
  _isDragMode (sprite w') = _isDragMode (sprite w).
Proof.
  intros Hp Hd. cbv zeta. unfold storePaintState. rewrite Hp.
  fields. rewrite Hd. fields. rewrite <- app_assoc.
  conjuncts; reflexivity.
Qed.

(** [storePaintState] with a pending commit and the brush down. *)
Lemma storePaintState_rearms (t : TimerId) (w : World) :
  _pendingPaintState (sprite w) = Some t ->
  down (this_brush w) = true ->
  let w' := storePaintState w in
  _pendingPaintState (sprite w') = Some (nextTimer w) /\
  timers w' =
    app (filter (fun e => negb (Pos.eqb (fst e) t)) (timers w))
        [(nextTimer w, 1000%Z)] /\
  history w' = history w /\
  jobs w' = jobs w /\
  log w' = app (log w) [ClearTimeout t; SetTimeout (nextTimer w) 1000%Z].
Proof.
  intros Hp Hd. cbv zeta. unfold storePaintState. rewrite Hp.
  fields. rewrite Hd. fields. rewrite <- app_assoc.
  conjuncts; reflexivity.
Qed.

(** C1, amended.  A tool activation while a snapshot commit is pending
    clears the interaction state and then calls [storePaintState] on the
    state so reset.  With the brush up the timer is cleared, the pending
    marker dropped and the "after" snapshot requested; the history entry is
    enqueued when that snapshot arrives.  With the brush still down no
    snapshot is requested and no history entry is produced: the commit is
    re-armed with a delay of 1000 ms. *)
Theorem handleActiveTool_stores_pending (tool : option ToolTypes)
  (o : option Ref) (doc : Document) (t : TimerId) (w : World) :
  _pendingPaintState (sprite w) = Some t ->
  let w' := handleActiveTool tool o doc w in
  let rest := filter (fun e => negb (Pos.eqb (fst e) t)) (timers w) in
  let after := ctx_ops SourceCtx (app (log w) [ClearTimeout t]) in
  w' = armTool tool o doc (storePaintState (resetInteractionState w)) /\
  (down (this_brush w) = false ->
   _pendingPaintState (sprite w') = None /\
   timers w' = rest /\
   history w' = history w /\
   jobs w' =
     app (jobs w)
       [CommitPaintState (id (layer (sprite w)))
          (_orgSourceToStore (sprite w)) after] /\
   history (resolveJob (List.length (jobs w)) w') =
     app (history w)
       [SpritePaint (id (layer (sprite w)))
          (_orgSourceToStore (sprite w)) after]) /\
  (down (this_brush w) = true ->
   _pendingPaintState (sprite w') = Some (nextTimer w) /\
   timers w' = app rest [(nextTimer w, 1000%Z)] /\
   history w' = history w /\
   jobs w' = jobs w).
Proof.
  intros Hp. cbv zeta. split; [reflexivity|].
  unfold handleActiveTool. cbv zeta.
  set (w0 := resetInteractionState w).
  destruct (armTool_frame tool o doc (storePaintState w0))
    as (TA & JA & HA & SA).
  apply timerState_fields in TA. destruct TA as (TA1 & TA2 & TA3).
  set (w2 := armTool tool o doc (storePaintState w0)) in *. clearbody w2.
  split; intros Hd.
  - destruct (@storePaintState_commits t w0 Hp Hd)
      as (P & T & Hi & J & _).
    fold w0 in P, T, Hi, J.
    rewrite P in TA3. rewrite T in TA1. rewrite Hi in HA. rewrite J in JA.
    conjuncts; try assumption.
    unfold resolveJob.
    change (jobs w0) with (jobs w) in JA.
    rewrite JA, nth_error_snoc, remove_nth_snoc.
    unfold runJob, enqueueState, emit. simpl. rewrite HA. reflexivity.
  - destruct (@storePaintState_rearms t w0 Hp Hd)
      as (P & T & Hi & J & _).
    rewrite P in TA3. rewrite T in TA1. rewrite Hi in HA. rewrite J in JA.
    conjuncts; assumption.
Qed.

(** *** At most one pending timer *)

Lemma timerInv_ext (w w' : World) :
  timerState w' = timerState w -> timerInv w -> timerInv w'.
Proof.
  intros E. apply timerState_fields in E. destruct E as (E1 & _ & E3).
  unfold timerInv. rewrite E1, E3. trivial.
Qed.

Lemma timerInv_storePaintState (w : World) :
  timerInv w -> timerInv (storePaintState w).
Proof.
  unfold timerInv, storePaintState. intros I.
  destruct (_pendingPaintState (sprite w)) as [t|] eqn:E.
  - destruct I as [d I]. fields. rewrite I. simpl. rewrite Pos.eqb_refl. simpl.
    destruct (down (_brush (sprite w))); fields.
    + eexists. reflexivity.
    + reflexivity.
  - rewrite E. exact I.
Qed.

Lemma timerInv_prepared (w : World) : timerInv w -> timerInv (prepared w).
Proof.
  unfold timerInv, prepared. intros I.
  destruct (_pendingPaintState (sprite w)) as [t|] eqn:E.
  - rewrite E. exact I.
  - fields. rewrite I. eexists. reflexivity.
Qed.

Lemma timerInv_paint (a : option Action) (w : World) :
  timerInv w -> timerInv (world_of (paint a w)).
Proof.
  intros I. destruct (paint_frame a w) as (_ & _ & _ & _ & _ & _ & T & _).
  apply (timerInv_ext T). apply timerInv_prepared. exact I.
Qed.

Lemma timerInv_fireTimer (t : TimerId) (w : World) :
  timerInv w -> timerInv (fireTimer t w).
Proof.
  unfold fireTimer. intros I.
  destruct (existsb (fun e => Pos.eqb (fst e) t) (timers w)) eqn:E;
    [|exact I].
  unfold timerInv in I.
  destruct (_pendingPaintState (sprite w)) as [t'|] eqn:P.
  - destruct I as [d I]. rewrite I in *. simpl in E.
    rewrite orb_false_r in E. apply Pos.eqb_eq in E. subst t'.
    simpl. rewrite Pos.eqb_refl. simpl.
    unfold timerInv, storePaintState. fields. rewrite P.
    rewrite ?Pos.eqb_refl. simpl.
    destruct (down (_brush (sprite w))); fields.
    + eexists. reflexivity.
    + reflexivity.
  - rewrite I in E. discriminate.
Qed.

Lemma timerInv_step (op : Op) (w : World) :
  timerInv w -> timerInv (world_of (step op w)).
Proof.
  intros I. destruct op; simpl.
  - (* handleActiveTool *)
    unfold handleActiveTool. cbv zeta.
    destruct (armTool_frame tool toolOptions activeDocument
                (storePaintState (resetInteractionState w))) as (T & _).
    apply (timerInv_ext T). apply timerInv_storePaintState.
    destruct (resetInteractionState_frame w) as (T0 & _).
    apply (timerInv_ext T0). exact I.
  - (* handlePress *)
    unfold handlePress.
    set (w1 := if isTouch type then _ else w).
    assert (I1 : timerInv w1)
      by (subst w1; destruct (isTouch type); [|exact I];
          revert I; apply timerInv_ext; reflexivity).
    clearbody w1.
    destruct (_isColorPicker (sprite w1));
      [revert I1; apply timerInv_ext; reflexivity|].
    destruct (_isPaintMode (sprite w1)).
    + destruct (toolIs (_toolType (sprite w1)) CLONE).
      * destruct (_toolOptions (sprite w1)); [|exact I1].
        destruct (coords (heap w1 r));
          [destruct (_cloneStartCoords (sprite w1))|];
          revert I1; apply timerInv_ext; reflexivity.
      * destruct (toolIs (_toolType (sprite w1)) FILL);
          [apply timerInv_paint; exact I1|].
        revert I1; apply timerInv_ext; reflexivity.
    + destruct (_isDragMode (sprite w1)); [|exact I1].
      revert I1; apply timerInv_ext; reflexivity.
  - (* handleMove *)
    revert I. apply timerInv_ext.
    unfold handleMove, moveMask, resetFilterAndRecache, cacheEffects.
    destruct (isTouch type); fields; branches; fields; reflexivity.
  - (* handleRelease *)
    assert (M : forall v, timerInv v -> timerInv (releaseMode v)).
    { intros v. apply timerInv_ext. unfold releaseMode.
      destruct (_isPaintMode (sprite v)); [reflexivity|].
      destruct (_isDragMode (sprite v)); [|reflexivity].
      destruct (getters_snapAlign (store v)); reflexivity. }
    unfold handleRelease.
    destruct (down (this_brush w)) eqn:D; [|apply M; exact I].
    set (w1 := upd _ (upd _ (upd _ (emit DisposeTempCanvas w)))).
    assert (I1 : timerInv w1)
      by (revert I; apply timerInv_ext; reflexivity).
    clearbody w1.
    pose proof (timerInv_paint None _ I1) as I2.
    destruct (paint None w1) as [w2|w2]; simpl in I2; [|exact I2].
    set (w3 := upd _ w2).
    assert (I3 : timerInv w3)
      by (revert I2; apply timerInv_ext; reflexivity).
    clearbody w3.
    simpl. apply M.
    destruct (negb _); [apply timerInv_storePaintState|]; exact I3.
  - (* update *)
    unfold update. destruct (down (this_brush w)); [|exact I].
    pose proof (timerInv_paint None _ I) as I2.
    destruct (paint None w) as [w2|w2]; simpl in I2; [|exact I2].
    revert I2. apply timerInv_ext. reflexivity.
  - apply timerInv_paint. exact I.
  - apply timerInv_storePaintState. exact I.
  - revert I. apply timerInv_ext. reflexivity.
  - revert I. apply timerInv_ext. reflexivity.
  - apply timerInv_fireTimer. exact I.
  - revert I. apply timerInv_ext. unfold resolveJob.
    destruct (nth_error (jobs w) n) as [[]|]; reflexivity.
Qed.

(** C5.  Starting from a sprite whose timer table holds nothing but the
    timer named by [_pendingPaintState] (as it is after construction, where
    both are empty), every sequence of tool activations, pointer events,
    frames, [paint] and [storePaintState] calls, timer expirations and
    resolved snapshots leaves at most one snapshot timer, the one that
    [_pendingPaintState] names.  On the way, [paint] sets no timer while
    one is pending, and [storePaintState] leaves no timer or exactly the
    one it has re-armed. *)
Theorem at_most_one_pending_timer (ops : list Op) (w : World) :
  timerInv w ->
  (timerInv (run ops w) /\ (List.length (timers (run ops w)) <= 1)%nat) /\
  (forall a t, _pendingPaintState (sprite (run ops w)) = Some t ->
     timerState (world_of (paint a (run ops w))) = timerState (run ops w)) /\
  (timers (storePaintState (run ops w)) = [] \/
   timers (storePaintState (run ops w)) =
     [(nextTimer (run ops w), 1000%Z)]).
Proof.
  intros I0.
  assert (I : timerInv (run ops w)).
  { revert w I0. induction ops as [|op ops IH]; intros w I; [exact I|].
    simpl. apply IH. apply timerInv_step. exact I. }
  clear I0. set (v := run ops w) in *. clearbody v.
  split; [|split].
  - split; [exact I|]. unfold timerInv in I.
    destruct (_pendingPaintState (sprite v)).
    + destruct I as [d I]. rewrite I. simpl. lia.
    + rewrite I. simpl. lia.
  - intros a t P.
    destruct (paint_frame a v) as (_ & _ & _ & _ & _ & _ & T & _).
    rewrite T. unfold prepared. simpl. rewrite P. reflexivity.
  - unfold timerInv in I. unfold storePaintState.
    destruct (_pendingPaintState (sprite v)) as [t|].
    + destruct I as [d I]. fields. rewrite I. simpl.
      rewrite Pos.eqb_refl. simpl.
      destruct (down (_brush (sprite v))); fields; [right|left]; reflexivity.
    + left. exact I.
Qed.

(** *** The final pass of a stroke *)

(** The phases of [paint]: the clipping of the selection, the dispatch on
    the tool, and the restores. *)
Lemma paint_phases (a : option Action) (w : World) :
  let w1 := prepared (with_paintCalls (S (paintCalls w)) w) in
  exists (c c' : Ctx) (cvs : CanvasElement) (lowres : bool)
         (sel sel' : option (list Point)) (w2 : World) (o : Outcome),
    c = (if isMaskable w1 then MaskCtx else SourceCtx) /\
    lowres = down (this_brush w1)
             && negb (isMaskable w1 && toolIs (_toolType (sprite w1)) ERASER)
    /\
    paintSelection c lowres sel (cwidth cvs) (cheight cvs) (call c Save w1)
    = (sel', w2) /\
    paintTool a c lowres
      (toolIs (_toolType (sprite w1)) ERASER)
      (toolIs (_toolType (sprite w1)) CLONE)
      (toolIs (_toolType (sprite w1)) FILL)
      sel' (cwidth cvs) (cheight cvs) w2 = (c', o) /\
    paint a w =
      (do w3 <- o;
       let w4 := match sel' with
                 | Some _ => call c' Restore w3
                 | None => w3
                 end in
       let w5 := call c' Restore w4 in
       Returned (if lowres then w5 else resetFilterAndRecache w5)).
Proof.
  cbv zeta. unfold paint. cbv zeta.
  fold (prepared (with_paintCalls (S (paintCalls w)) w)).
  set (w1 := prepared (with_paintCalls (S (paintCalls w)) w)).
  set (c := if isMaskable w1 then MaskCtx else SourceCtx).
  set (cvs := match isMaskable w1, mask (layer (sprite w1)) with
              | true, Some m => m
              | _, _ => source (layer (sprite w1))
              end).
  set (lowres := down (this_brush (call c Save w1)) && _).
  set (sel := match a with Some _ => _ | None => _ end).
  destruct (paintSelection c lowres sel (cwidth cvs) (cheight cvs)
              (call c Save w1)) as [sel' w2] eqn:E2.
  destruct (paintTool a c lowres _ _ _ sel' (cwidth cvs) (cheight cvs) w2)
    as [c' o] eqn:E3.
  exists c, c', cvs, lowres, sel, sel', w2, o.
  conjuncts; try reflexivity; assumption.
Qed.

Lemma paintSelection_sprite (c : Ctx) (lowres : bool)
  (sel : option (list Point)) (width height : Q) (w : World) :
  sprite (snd (paintSelection c lowres sel width height w)) = sprite w.
Proof. unfold paintSelection. branches; reflexivity. Qed.


Lemma resetFilterAndRecache_tempCanvas (w : World) :
  tempCanvas (sprite (resetFilterAndRecache w)) = tempCanvas (sprite w).
Proof.
  unfold resetFilterAndRecache, cacheEffects. fields. branches; reflexivity.
Qed.

Lemma prepared_down (w : World) :
  down (this_brush (prepared (with_paintCalls (S (paintCalls w)) w)))
  = down (this_brush w).
Proof.
  destruct (prepared_counted w) as (_ & _ & _ & _ & _ & B & _).
  unfold this_brush. rewrite B. reflexivity.
Qed.


Lemma frame_log_incl (w w' : World) (e : Event) :
  frame w w' -> In e (log w) -> In e (log w').
Proof.
  intros (_ & _ & _ & _ & _ & _ & _ & _ & _ & _ & [evs L]) Hin.
  rewrite L. apply in_or_app. left. exact Hin.
Qed.

(** *** The drawing calls of a pass *)

Lemma drawCalls_app (l l' : list Event) :
  drawCalls (app l l') = app (drawCalls l) (drawCalls l').
Proof.
  induction l as [|e l IH]; simpl; [reflexivity|].
  destruct e; simpl; try exact IH. rewrite IH. reflexivity.
Qed.

Lemma draws_refl (w : World) : draws w w [].
Proof. exists []. split; [symmetry; apply app_nil_r|reflexivity]. Qed.

Lemma draws_trans (w1 w2 w3 : World) (l l' : list (Ctx * CtxOp)) :
  draws w1 w2 l -> draws w2 w3 l' -> draws w1 w3 (app l l').
Proof.
  intros (e1 & L1 & D1) (e2 & L2 & D2). exists (app e1 e2). split.
  - rewrite L2, L1, app_assoc. reflexivity.
  - rewrite drawCalls_app, D1, D2. reflexivity.
Qed.

Lemma draws_drawn (w w' : World) (l : list (Ctx * CtxOp)) :
  draws w w' l -> drawn w w' = l.
Proof.
  intros (evs & L & D). unfold drawn.
  rewrite L, drawCalls_app, skipn_app, Nat.sub_diag, skipn_all, D.
  reflexivity.
Qed.

Lemma draws_call (c : Ctx) (op : CtxOp) (w : World) :
  draws w (call c op w) [(c, op)].
Proof. exists [CtxCall c op]. split; reflexivity. Qed.

Lemma resetFilterAndRecache_brush (w : World) :
  _brush (sprite (resetFilterAndRecache w)) = _brush (sprite w).
Proof.
  unfold resetFilterAndRecache, cacheEffects. fields. branches; reflexivity.
Qed.

Lemma draws_prepared (w : World) :
  draws w (prepared (with_paintCalls (S (paintCalls w)) w)) [].
Proof.
  unfold prepared. simpl.
  destruct (_pendingPaintState (sprite w)); draws_by_computation.
Qed.

Lemma draws_resetFilterAndRecache (w : World) :
  draws w (resetFilterAndRecache w) [].
Proof.
  unfold resetFilterAndRecache, cacheEffects. fields.
  destruct (_rafFx (sprite w)); draws_by_computation.
Qed.

Lemma draws_paintSelection (c : Ctx) (lowres : bool) (cvs : CanvasElement)
  (w : World) :
  let r := paintSelection c lowres (_selection (sprite w))
             (cwidth cvs) (cheight cvs) w in
  draws w (snd r) (clipCalls c lowres cvs (sprite w)) /\
  (fst r = None <-> _selection (sprite w) = None).
Proof.
  cbv zeta. unfold paintSelection, clipCalls.
  destruct (_selection (sprite w)) as [pts|].
  - destruct (isRotated (sprite w) && negb lowres); simpl;
      (split; [draws_by_computation|split; intros; discriminate]).
  - split; [apply draws_refl|tauto].
Qed.


Lemma paint_unfolded (a : option Action) (w : World) :
  let w1 := prepared (with_paintCalls (S (paintCalls w)) w) in
  let c := if isMaskable w1 then MaskCtx else SourceCtx in
  let cvs := layerCanvas w1 in
  let lowres := lowResPass w1 in
  let sel := match a with
             | Some a' =>
                 match aselection a' with
                 | Some pts => Some pts
                 | None => _selection (sprite w1)
                 end
             | None => _selection (sprite w1)
             end in
  paint a w =
    (let '(sel', w2) :=
       paintSelection c lowres sel (cwidth cvs) (cheight cvs)
         (call c Save w1) in
     let '(c', o) :=
       paintTool a c lowres
         (toolIs (_toolType (sprite w1)) ERASER)
         (toolIs (_toolType (sprite w1)) CLONE)
         (toolIs (_toolType (sprite w1)) FILL)
         sel' (cwidth cvs) (cheight cvs) w2 in
     do w3 <- o;
     let w4 := match sel' with
               | Some _ => call c' Restore w3
               | None => w3
               end in
     let w5 := call c' Restore w4 in
     Returned (if lowres then w5 else resetFilterAndRecache w5)).
Proof. reflexivity. Qed.

Lemma prepared_same (w : World) :
  let w1 := prepared (with_paintCalls (S (paintCalls w)) w) in
  (if isMaskable w1 then MaskCtx else SourceCtx) = layerCtx w /\
  layerCanvas w1 = layerCanvas w /\
  lowResPass w1 = lowResPass w /\
  heap w1 = heap w /\ store w1 = store w /\
  modes (sprite w1) = modes (sprite w) /\
  _brush (sprite w1) = _brush (sprite w).
Proof.
  cbv zeta.
  destruct (prepared_counted w) as (_ & _ & Hh & St & M & B & _).
  pose proof (modes_fields M) as (T & _ & _ & _ & Y).
  assert (K : isMaskable (prepared (with_paintCalls (S (paintCalls w)) w))
              = isMaskable w)
    by (unfold isMaskable; rewrite St, Y; reflexivity).
  split; [unfold layerCtx; rewrite K; reflexivity|].
  split; [unfold layerCanvas; rewrite K, Y; reflexivity|].
  split; [unfold lowResPass, this_brush; rewrite K, B, T; reflexivity|].
  repeat split; assumption.
Qed.

Lemma paintBrush_fullres_draws (c : Ctx) (eraser : bool)
  (sel : option (list Point)) (ps : list Point) (width height : Q)
  (w : World) :
  let r := paintBrush c false eraser sel ps width height w in
  let e := effects (layer (sprite w)) in
  let b := this_brush w in
  let b' := brush_with b
              (rotatePointerLists (pointers b) (layer (sprite w))
                 width height)
              (down b) (last b) in
  fst r = c /\
  sprite (snd r) = set_brush b' (sprite w) /\
  draws w (snd r)
    (app [(ScratchCtx, Scale (if mirrorX e then -1 else 1)
                             (if mirrorY e then -1 else 1));
          (ScratchCtx, RenderBrushStroke b' None);
          (c, SetGlobalAlpha (brush_opacity w))]
     (app (if eraser
           then [(c, SetGlobalCompositeOperation "destination-out")]
           else [])
          [(c, DrawImage ScratchCtx 0 0)])).
Proof.
  cbv zeta. unfold paintBrush. cbv zeta.
  destruct eraser; (split; [reflexivity|]); (split; [reflexivity|]);
    draws_by_computation.
Qed.

Lemma draws_eq (w w' : World) (l l' : list (Ctx * CtxOp)) :
  draws w w' l -> l = l' -> draws w w' l'.
Proof. intros D E. rewrite <- E. exact D. Qed.

(** A pass of a brush or an eraser at full resolution. *)
Lemma paint_stroke (w : World) :
  brushFamily w = true ->
  lowResPass w = false ->
  let b := this_brush w in
  let cvs := layerCanvas w in
  exists w',
    paint None w = Returned w' /\
    draws w w' (strokeCalls w) /\
    _brush (sprite w') =
      brush_with b
        (rotatePointerLists (pointers b) (layer (sprite w))
           (cwidth cvs) (cheight cvs))
        (down b) (last b) /\
    tempCanvas (sprite w') = tempCanvas (sprite w).
Proof.
  intros Hb Hl. cbv zeta.
  rewrite paint_unfolded. cbv zeta.
  destruct (prepared_counted w) as (_ & _ & _ & _ & _ & _ & Tc & _).
  destruct (prepared_same w) as (C0 & V0 & L0 & Hh & St & M & B).
  cbv zeta in C0, V0, L0, Hh, St, M, B.
  pose proof (draws_prepared w) as D1.
  set (w1 := prepared (with_paintCalls (S (paintCalls w)) w)) in *.
  rewrite C0, V0, L0, Hl.
  pose proof (modes_fields M) as (T & _ & _ & _ & Y).
  unfold brushFamily in Hb. apply andb_prop in Hb. destruct Hb as [Hf Hc].
  apply negb_true_iff in Hf, Hc. rewrite T, Hf, Hc.
  set (c := layerCtx w). set (cvs := layerCanvas w).
  destruct (draws_paintSelection c false cvs (call c Save w1)) as (D2 & N2).
  pose proof (paintSelection_sprite c false (_selection (sprite w1))
                (cwidth cvs) (cheight cvs) (call c Save w1)) as S2.
  pose proof (frame_paintSelection c false (_selection (sprite w1))
                (cwidth cvs) (cheight cvs) (call c Save w1)) as F2.
  cbv zeta in D2, N2.
  change (sprite (call c Save w1)) with (sprite w1) in *.
  destruct (paintSelection c false (_selection (sprite w1)) (cwidth cvs)
              (cheight cvs) (call c Save w1)) as [sel' w2].
  cbn [fst snd] in *.
  destruct F2 as (_ & _ & Hh2 & _).
  change (heap (call c Save w1)) with (heap w1) in Hh2.
  unfold paintTool. cbv zeta.
  destruct (paintBrush_fullres_draws c (toolIs (_toolType (sprite w)) ERASER)
              sel' (slicePointers (this_brush w2)) (cwidth cvs) (cheight cvs)
              w2) as (E3 & S3 & D3).
  cbv zeta in E3, S3, D3.
  destruct (paintBrush c false (toolIs (_toolType (sprite w)) ERASER) sel'
              (slicePointers (this_brush w2)) (cwidth cvs) (cheight cvs) w2)
    as [c3 w3].
  cbn [fst snd] in *. subst c3.
  cbn beta iota.
  eexists. split; [reflexivity|].
  assert (Sel : _selection (sprite w1) = _selection (sprite w))
    by (unfold modes in M; injection M as; assumption).
  assert (Inv : _invertSelection (sprite w1) = _invertSelection (sprite w))
    by (unfold modes in M; injection M as; assumption).
  assert (B2 : this_brush w2 = this_brush w)
    by (unfold this_brush; rewrite S2; exact B).
  assert (Y2 : layer (sprite w2) = layer (sprite w))
    by (rewrite S2; exact Y).
  assert (O2 : brush_opacity w2 = brush_opacity w)
    by (unfold brush_opacity; rewrite B2, Hh2, Hh; reflexivity).
  split; [|split].
  - eapply draws_eq.
    + eapply draws_trans; [exact D1|].
      eapply draws_trans; [apply draws_call|].
      eapply draws_trans; [exact D2|].
      eapply draws_trans; [exact D3|].
      eapply draws_trans; [|apply draws_resetFilterAndRecache].
      instantiate (1 := restoreCalls c (sprite w)).
      unfold restoreCalls.
      destruct sel' as [pts|].
      * destruct (_selection (sprite w)) as [q|] eqn:Es.
        -- eapply draws_eq;
             [eapply draws_trans; apply draws_call|reflexivity].
        -- rewrite Sel in N2. destruct N2 as [_ N2].
           specialize (N2 eq_refl). discriminate N2.
      * destruct (_selection (sprite w)) as [q|] eqn:Es.
        -- rewrite Sel in N2. destruct N2 as [N2 _].
           specialize (N2 eq_refl). discriminate N2.
        -- apply draws_call.
    + unfold strokeCalls. fold c. fold cvs.
      rewrite B2, Y2, O2.
      assert (Cl : clipCalls c false cvs (sprite w1)
                   = clipCalls c false cvs (sprite w)).
      { unfold clipCalls, isRotated. rewrite Sel, Inv, Y. reflexivity. }
      rewrite Cl. unfold this_brush.
      cbn [app]. rewrite app_nil_r, <- !app_assoc. reflexivity.
  - rewrite resetFilterAndRecache_brush.
    assert (B5 : forall v, _brush (sprite (call c Restore
                             match sel' with
                             | Some _ => call c Restore v
                             | None => v
                             end)) = _brush (sprite v))
      by (intros v; destruct sel'; reflexivity).
    rewrite B5, S3. cbn [_brush set_brush]. rewrite B2, Y2. reflexivity.
  - rewrite resetFilterAndRecache_tempCanvas.
    assert (T5 : forall v, tempCanvas (sprite (call c Restore
                             match sel' with
                             | Some _ => call c Restore v
                             | None => v
                             end)) = tempCanvas (sprite v))
      by (intros v; destruct sel'; reflexivity).
    rewrite T5, S3. cbn [tempCanvas set_brush]. rewrite S2. exact Tc.
Qed.


(** The end of [handleRelease] keeps the brush and the commit as they
    are; it calls at most the guide snapping service. *)
Lemma releaseMode_frame (w : World) :
  let w' := releaseMode w in
  _brush (sprite w') = _brush (sprite w) /\
  tempCanvas (sprite w') = tempCanvas (sprite w) /\
  timerState w' = timerState w /\
  jobs w' = jobs w /\ history w' = history w /\
  paintCalls w' = paintCalls w /\
  exists tail, log w' = app (log w) tail /\
               (tail = [] \/ tail = [SnapSpriteToGuide]).
Proof.
  unfold releaseMode.
  destruct (_isPaintMode (sprite w)).
  { fields. conjuncts; try reflexivity.
    exists []. rewrite app_nil_r. tauto. }
  destruct (_isDragMode (sprite w)).
  - destruct (getters_snapAlign (store w)); fields;
      conjuncts; try reflexivity.
    + eexists. split; [reflexivity|tauto].
    + exists []. rewrite app_nil_r. tauto.
  - conjuncts; try reflexivity. exists []. rewrite app_nil_r. tauto.
Qed.


(** *** Saves and restores of [paint] *)

Lemma stack_depth_app (d : nat) (ops ops' : list CtxOp) :
  stack_depth d (app ops ops') =
  match stack_depth d ops with
  | Some d' => stack_depth d' ops'
  | None => None
  end.
Proof.
  revert d. induction ops as [|op ops IH]; intros d; [reflexivity|].
  destruct op; simpl; try apply IH.
  destruct d; [reflexivity|apply IH].
Qed.

Lemma stackEffect_refl (c : Ctx) (w : World) (d : nat) :
  stackEffect c w w d (Some d).
Proof. exists []. split; [symmetry; apply app_nil_r|reflexivity]. Qed.

Lemma stackEffect_trans (c : Ctx) (w1 w2 w3 : World) (d d' : nat)
  (r : option nat) :
  stackEffect c w1 w2 d (Some d') -> stackEffect c w2 w3 d' r ->
  stackEffect c w1 w3 d r.
Proof.
  intros (e1 & L1 & S1) (e2 & L2 & S2). exists (app e1 e2). split.
  - rewrite L2, L1, app_assoc. reflexivity.
  - rewrite ctx_ops_app, stack_depth_app, S1. exact S2.
Qed.

Lemma stackEffect_added (c : Ctx) (w w' : World) (r : option nat) :
  stackEffect c w w' 0 r -> stack_depth 0 (added c w w') = r.
Proof.
  intros (evs & L & S). unfold added.
  rewrite L, ctx_ops_app, skipn_app, Nat.sub_diag, skipn_all. exact S.
Qed.

(** One call on context [c0], seen from context [c]. *)
Lemma stackEffect_other (c c0 : Ctx) (op : CtxOp) (w : World) (d : nat) :
  ctx_eqb c c0 = false -> stackEffect c w (call c0 op w) d (Some d).
Proof.
  intros E. exists [CtxCall c0 op]. split; [reflexivity|].
  simpl. rewrite E. reflexivity.
Qed.

Lemma stackEffect_save (c c0 : Ctx) (w : World) (d : nat) :
  ctx_eqb c c0 = true -> stackEffect c w (call c0 Save w) d (Some (S d)).
Proof.
  intros E. exists [CtxCall c0 Save]. split; [reflexivity|].
  simpl. rewrite E. reflexivity.
Qed.

Lemma stackEffect_restore (c c0 : Ctx) (w : World) (d : nat) :
  ctx_eqb c c0 = true -> stackEffect c w (call c0 Restore w) (S d) (Some d).
Proof.
  intros E. exists [CtxCall c0 Restore]. split; [reflexivity|].
  simpl. rewrite E. reflexivity.
Qed.

Lemma stackEffect_restore_empty (c c0 : Ctx) (w : World) :
  ctx_eqb c c0 = true -> stackEffect c w (call c0 Restore w) 0 None.
Proof.
  intros E. exists [CtxCall c0 Restore]. split; [reflexivity|].
  simpl. rewrite E. reflexivity.
Qed.

(** Closes a [stackEffect] goal between worlds given by field updates:
    the events are read off the log, the contexts compared. *)
Ltac stack_by_computation :=
  unfold stackEffect; fields;
  eexists; split;
  [ rewrite <- ?app_assoc; try reflexivity; symmetry; apply app_nil_r
  | cbn [ctx_ops app];
    repeat match goal with
           | |- context [ctx_eqb ?a ?b] => destruct (ctx_eqb a b)
           end;
    reflexivity ].

Lemma stackEffect_prepared (c : Ctx) (w : World) (d : nat) :
  stackEffect c w (prepared (with_paintCalls (S (paintCalls w)) w)) d
    (Some d).
Proof.
  unfold prepared. simpl.
  destruct (_pendingPaintState (sprite w)); stack_by_computation.
Qed.

Lemma stackEffect_resetFilterAndRecache (c : Ctx) (w : World) (d : nat) :
  stackEffect c w (resetFilterAndRecache w) d (Some d).
Proof.
  unfold resetFilterAndRecache, cacheEffects. fields.
  destruct (_rafFx (sprite w)); stack_by_computation.
Qed.

Lemma stackEffect_paintSelection (c c0 : Ctx) (lowres : bool)
  (sel : option (list Point)) (width height : Q) (w : World) (d : nat) :
  let r := paintSelection c0 lowres sel width height w in
  stackEffect c w (snd r) d
    (Some match sel with
          | Some _ => if ctx_eqb c c0 then S d else d
          | None => d
          end) /\
  (fst r = None <-> sel = None).
Proof.
  unfold paintSelection. destruct sel as [pts|].
  - destruct (isRotated (sprite w) && negb lowres); simpl;
      (split; [stack_by_computation|split; discriminate]).
  - simpl. split; [apply stackEffect_refl|tauto].
Qed.

(** Every dispatch but the preview of a brush keeps the context and the
    depth of every stack. *)
Lemma stackEffect_paintTool (a : option Action) (c c0 : Ctx)
  (lowres eraser clone fill : bool) (sel : option (list Point))
  (width height : Q) (w : World) (d : nat) :
  match a with Some _ => true | None => fill || clone || negb lowres end
  = true ->
  let r := paintTool a c0 lowres eraser clone fill sel width height w in
  fst r = c0 /\ stackEffect c w (world_of (snd r)) d (Some d).
Proof.
  intros Hn. unfold paintTool.
  destruct a as [a|].
  { simpl. split; [reflexivity|]. unfold paintAction.
    destruct (String.eqb (atype a) "stroke");
      [stack_by_computation|apply stackEffect_refl]. }
  destruct fill.
  { simpl. split; [reflexivity|]. unfold paintFill.
    destruct (_toolOptions (sprite w)); [|apply stackEffect_refl].
    destruct (smartFill (heap w r)); destruct (_selection (sprite w));
      stack_by_computation. }
  destruct clone.
  { simpl. split; [reflexivity|]. unfold paintClone.
    destruct lowres; [|apply stackEffect_refl].
    destruct (_toolOptions (sprite w)); [|apply stackEffect_refl].
    stack_by_computation. }
  destruct lowres; [discriminate|].
  unfold paintBrush. simpl. split; [reflexivity|].
  destruct eraser; stack_by_computation.
Qed.

(** The preview of a brush leaves with the preview context; the only call
    that reaches the layer's context is the "tempCanvas clipping
    restore()". *)
Lemma stackEffect_paintTool_preview (c0 : Ctx) (eraser : bool)
  (sel : option (list Point)) (width height : Q) (w : World) (d : nat) :
  ctx_eqb TempCtx c0 = false ->
  let r := paintTool None c0 true eraser false false sel width height w in
  fst r = TempCtx /\
  stackEffect TempCtx w (world_of (snd r)) d
    (Some match sel with Some _ => S d | None => d end) /\
  stackEffect c0 w (world_of (snd r)) (S d)
    (Some match sel with Some _ => d | None => S d end).
Proof.
  intros Hc. unfold paintTool, paintBrush. simpl.
  assert (Hc' : ctx_eqb c0 TempCtx = false) by (destruct c0; trivial; discriminate).
  assert (Hr : ctx_eqb c0 c0 = true) by (destruct c0; reflexivity).
  split; [reflexivity|].
  destruct (tempCanvas (sprite w)); destruct sel; split;
    unfold stackEffect; fields;
    (eexists; split;
     [rewrite <- ?app_assoc; try reflexivity; symmetry; apply app_nil_r
     |cbn [ctx_ops app ctx_eqb]; rewrite ?Hc, ?Hc', ?Hr; reflexivity]).
Qed.

Lemma layerCtx_prepared (w : World) :
  (if isMaskable (prepared (with_paintCalls (S (paintCalls w)) w))
   then MaskCtx else SourceCtx) = layerCtx w.
Proof.
  unfold layerCtx, isMaskable.
  destruct (prepared_counted w) as (_ & _ & _ & St & M & _).
  apply modes_fields in M. destruct M as (_ & _ & _ & _ & Y).
  rewrite St, Y. reflexivity.
Qed.

Lemma previewPass_lowres (a : option Action) (w : World) :
  let w1 := prepared (with_paintCalls (S (paintCalls w)) w) in
  previewPass a w =
  match a with
  | Some _ => false
  | None =>
      negb (toolIs (_toolType (sprite w1)) FILL)
      && negb (toolIs (_toolType (sprite w1)) CLONE)
      && (down (this_brush w1)
          && negb (isMaskable w1 && toolIs (_toolType (sprite w1)) ERASER))
  end.
Proof.
  cbv zeta. unfold previewPass, brushFamily, isMaskable.
  destruct (prepared_counted w) as (_ & _ & _ & St & M & B & _).
  apply modes_fields in M. destruct M as (T & _ & _ & _ & Y).
  unfold this_brush. rewrite St, Y, T, B.
  destruct a; [reflexivity|]. rewrite andb_assoc. reflexivity.
Qed.

(** Outside the preview of a brush or an eraser, every [save()] of a pass
    that returns is closed by a [restore()] of the same context, the
    clipping restore before the preparation restore. *)
Lemma paint_balanced (a : option Action) (w : World) (c : Ctx) :
  previewPass a w = false ->
  returned (paint a w) = true ->
  balanced (added c w (world_of (paint a w))) = true.
Proof.
  intros Hp Hr.
  assert (St : stackEffect c w (world_of (paint a w)) 0 (Some 0%nat));
    [|unfold balanced; rewrite (stackEffect_added St); reflexivity].
  rewrite previewPass_lowres in Hp.
  destruct (paint_phases a w)
    as (c0 & c' & cvs & lowres & sel & sel' & w2 & o & C0 & L & E2 & E3 & E).
  set (w1 := prepared (with_paintCalls (S (paintCalls w)) w)) in *.
  rewrite <- L in Hp.
  assert (Hn : match a with
               | Some _ => true
               | None =>
                   toolIs (_toolType (sprite w1)) FILL
                   || toolIs (_toolType (sprite w1)) CLONE || negb lowres
               end = true).
  { destruct a; [reflexivity|].
    destruct (toolIs (_toolType (sprite w1)) FILL); [reflexivity|].
    destruct (toolIs (_toolType (sprite w1)) CLONE); [reflexivity|].
    simpl in *. rewrite Hp. reflexivity. }
  rewrite E in Hr |- *. clear E.
  destruct o as [w3|w3]; [|discriminate]. cbn [world_of].
  eapply stackEffect_trans; [apply stackEffect_prepared|]. fold w1.
  assert (F : forall v, stackEffect c v
                (if lowres then v else resetFilterAndRecache v) 0 (Some 0%nat))
    by (intros v; destruct lowres;
        [apply stackEffect_refl|apply stackEffect_resetFilterAndRecache]).
  destruct (ctx_eqb c c0) eqn:Ec.
  - eapply stackEffect_trans; [eapply stackEffect_save; exact Ec|].
    destruct (stackEffect_paintSelection c c0 lowres sel (cwidth cvs)
                (cheight cvs) (call c0 Save w1) 1) as (S2 & N2).
    rewrite E2 in S2, N2. rewrite Ec in S2. simpl in S2, N2.
    eapply stackEffect_trans; [exact S2|].
    destruct sel as [pts|].
    + destruct (@stackEffect_paintTool a c c0 lowres
                  (toolIs (_toolType (sprite w1)) ERASER)
                  (toolIs (_toolType (sprite w1)) CLONE)
                  (toolIs (_toolType (sprite w1)) FILL) sel' (cwidth cvs)
                  (cheight cvs) w2 2 Hn) as (C3 & S3).
      rewrite E3 in C3, S3. simpl in C3, S3. subst c'.
      eapply stackEffect_trans; [exact S3|].
      destruct sel' as [pts'|];
        [|destruct N2 as [N2 _]; specialize (N2 eq_refl); discriminate].
      eapply stackEffect_trans; [eapply stackEffect_restore; exact Ec|].
      eapply stackEffect_trans; [eapply stackEffect_restore; exact Ec|].
      apply F.
    + destruct (@stackEffect_paintTool a c c0 lowres
                  (toolIs (_toolType (sprite w1)) ERASER)
                  (toolIs (_toolType (sprite w1)) CLONE)
                  (toolIs (_toolType (sprite w1)) FILL) sel' (cwidth cvs)
                  (cheight cvs) w2 1 Hn) as (C3 & S3).
      rewrite E3 in C3, S3. simpl in C3, S3. subst c'.
      eapply stackEffect_trans; [exact S3|].
      destruct sel' as [pts'|];
        [destruct N2 as [_ N2]; specialize (N2 eq_refl); discriminate|].
      eapply stackEffect_trans; [eapply stackEffect_restore; exact Ec|].
      apply F.
  - eapply stackEffect_trans; [eapply stackEffect_other; exact Ec|].
    destruct (stackEffect_paintSelection c c0 lowres sel (cwidth cvs)
                (cheight cvs) (call c0 Save w1) 0) as (S2 & _).
    rewrite E2, Ec in S2. simpl in S2.
    assert (S2' : stackEffect c (call c0 Save w1) w2 0 (Some 0%nat))
      by (destruct sel; exact S2).
    eapply stackEffect_trans; [exact S2'|].
    destruct (@stackEffect_paintTool a c c0 lowres
                  (toolIs (_toolType (sprite w1)) ERASER)
                  (toolIs (_toolType (sprite w1)) CLONE)
                  (toolIs (_toolType (sprite w1)) FILL) sel' (cwidth cvs)
                (cheight cvs) w2 0 Hn) as (C3 & S3).
    rewrite E3 in C3, S3. simpl in C3, S3. subst c'.
    eapply stackEffect_trans; [exact S3|].
    destruct sel' as [pts'|].
    + eapply stackEffect_trans; [eapply stackEffect_other; exact Ec|].
      eapply stackEffect_trans; [eapply stackEffect_other; exact Ec|].
      apply F.
    + eapply stackEffect_trans; [eapply stackEffect_other; exact Ec|].
      apply F.
Qed.

(** During the preview of a brush or an eraser the restores of [paint]
    reach the preview context: the layer's context keeps one state more
    on its stack, and the preview context is asked for a state that it
    has not saved. *)
Lemma paint_preview_unbalanced (w : World) :
  previewPass None w = true ->
  let w' := world_of (paint None w) in
  stack_depth 0 (added (layerCtx w) w w') = Some 1%nat /\
  stack_depth 0 (added TempCtx w w') = None.
Proof.
  intros Hp. cbv zeta.
  rewrite previewPass_lowres in Hp.
  destruct (paint_phases None w)
    as (c0 & c' & cvs & lowres & sel & sel' & w2 & o & C0 & L & E2 & E3 & E).
  set (w1 := prepared (with_paintCalls (S (paintCalls w)) w)) in *.
  rewrite <- L in Hp.
  apply andb_prop in Hp. destruct Hp as [Hp Hl].
  apply andb_prop in Hp. destruct Hp as [Hf Hc].
  apply negb_true_iff in Hf, Hc. subst lowres.
  rewrite Hf, Hc in E3.
  unfold w1 in C0. rewrite layerCtx_prepared in C0. fold w1 in C0.
  rewrite <- C0.
  assert (Et : ctx_eqb TempCtx c0 = false)
    by (rewrite C0; unfold layerCtx; destruct (isMaskable w); reflexivity).
  assert (Er : ctx_eqb c0 c0 = true) by (destruct c0; reflexivity).
  assert (Tt : ctx_eqb TempCtx TempCtx = true) by reflexivity.
  assert (Et' : ctx_eqb c0 TempCtx = false)
    by (rewrite C0; unfold layerCtx; destruct (isMaskable w); reflexivity).
  destruct (stackEffect_paintSelection c0 c0 true sel (cwidth cvs)
              (cheight cvs) (call c0 Save w1) 1) as (S2 & N2).
  destruct (stackEffect_paintSelection TempCtx c0 true sel (cwidth cvs)
              (cheight cvs) (call c0 Save w1) 0) as (T2 & _).
  rewrite E2 in S2, N2, T2. rewrite Er in S2. rewrite Et in T2.
  simpl in S2, N2, T2.
  assert (T2' : stackEffect TempCtx (call c0 Save w1) w2 0 (Some 0%nat))
    by (destruct sel; exact T2).
  rewrite E. clear E.
  split; apply stackEffect_added;
    (eapply stackEffect_trans; [apply stackEffect_prepared|]); fold w1.
  - (* the layer's context *)
    eapply stackEffect_trans; [eapply stackEffect_save; exact Er|].
    eapply stackEffect_trans; [exact S2|].
    destruct sel as [pts|].
    + destruct (@stackEffect_paintTool_preview c0
                  (toolIs (_toolType (sprite w1)) ERASER) sel' (cwidth cvs)
                  (cheight cvs) w2 1 Et) as (C3 & _ & S3).
      rewrite E3 in C3, S3. simpl in C3, S3. subst c'.
      destruct o as [w3|w3]; cbn [world_of] in *;
        (destruct sel' as [pts'|];
         [|destruct N2 as [N2 _]; specialize (N2 eq_refl); discriminate]).
      * eapply stackEffect_trans; [exact S3|].
        eapply stackEffect_trans; [eapply stackEffect_other; exact Et'|].
        eapply stackEffect_other; exact Et'.
      * exact S3.
    + destruct (@stackEffect_paintTool_preview c0
                  (toolIs (_toolType (sprite w1)) ERASER) sel' (cwidth cvs)
                  (cheight cvs) w2 0 Et) as (C3 & _ & S3).
      rewrite E3 in C3, S3. simpl in C3, S3. subst c'.
      destruct o as [w3|w3]; cbn [world_of] in *;
        (destruct sel' as [pts'|];
         [destruct N2 as [_ N2]; specialize (N2 eq_refl); discriminate|]).
      * eapply stackEffect_trans; [exact S3|].
        eapply stackEffect_other; exact Et'.
      * exact S3.
  - (* the preview context *)
    eapply stackEffect_trans; [eapply stackEffect_other; exact Et|].
    eapply stackEffect_trans; [exact T2'|].
    destruct (@stackEffect_paintTool_preview c0
                (toolIs (_toolType (sprite w1)) ERASER) sel' (cwidth cvs)
                (cheight cvs) w2 0 Et) as (C3 & S3 & _).
    rewrite E3 in C3, S3. simpl in C3, S3. subst c'.
    assert (Ro : returned o = true).
    { pose proof (f_equal snd E3) as Eo. simpl in Eo. rewrite <- Eo.
      unfold paintTool. simpl.
      destruct (paintBrush c0 true (toolIs (_toolType (sprite w1)) ERASER)
                  sel' (slicePointers (this_brush w2)) (cwidth cvs)
                  (cheight cvs) w2). reflexivity. }
    destruct o as [w3|w3]; [|discriminate]. cbn [world_of] in *.
    eapply stackEffect_trans; [exact S3|].
    destruct sel' as [pts'|].
    + eapply stackEffect_trans; [eapply stackEffect_restore; exact Tt|].
      eapply stackEffect_restore_empty; exact Tt.
    + eapply stackEffect_restore_empty; exact Tt.
Qed.

End Facts.
End LayerSpriteFacts.

(* ================================================================== *)
(** * The properties on the concrete sprite *)

Module ScenarioFacts.
Import LayerSprite Scenario LayerSpriteFacts.
Local Open Scope Q_scope.
Local Open Scope string_scope.



(** C1 as stated fails.  The drag tool is selected in the middle of a
    stroke, with the commit pending and the brush down: the activation
    resets the interaction state, but it produces no history entry and
    requests no snapshot; the commit is set back by 1000 ms. *)
Lemma tool_switch_mid_stroke_commits_nothing :
  let w := midStroke in
  let w' := handleActiveTool (Some DRAG) None noSelection w in
  (_pendingPaintState (sprite w) = Some 1%positive /\
   down (this_brush w) = true) /\
  _isPaintMode (sprite w') = false /\
  history w' = [] /\
  existsb isCommit (jobs w') = false /\
  ~ In CanvasToBlob (skipn (List.length (log w)) (log w')) /\
  timers w' = [(2%positive, 1000%Z)].
Proof.
  vm_compute. intuition discriminate.
Qed.

(** The amended C1 on the sprite after a fill (brush up) and in the middle
    of a stroke (brush down). *)
Lemma handleActiveTool_stores_pending_witness :
  (let w := afterFill in
   let w' := handleActiveTool (Some DRAG) None noSelection w in
   _pendingPaintState (sprite w') = None /\
   timers w' =
     filter (fun e => negb (Pos.eqb (fst e) 1%positive)) (timers w) /\
   history w' = history w /\
   exists j,
     jobs w' = app (jobs w) [j] /\
     exists e,
       history (resolveJob (List.length (jobs w)) w') = app (history w) [e]) /\
  (let w := midStroke in
   let w' := handleActiveTool (Some DRAG) None noSelection w in
   _pendingPaintState (sprite w') = Some (nextTimer w) /\
   history w' = history w /\
   jobs w' = jobs w).
Proof.
  assert (Pf : _pendingPaintState (sprite afterFill) = Some 1%positive)
    by (vm_compute; reflexivity).
  assert (Df : down (this_brush afterFill) = false)
    by (vm_compute; reflexivity).
  assert (Pm : _pendingPaintState (sprite midStroke) = Some 1%positive)
    by (vm_compute; reflexivity).
  assert (Dm : down (this_brush midStroke) = true)
    by (vm_compute; reflexivity).
  split.
  - destruct (@handleActiveTool_stores_pending helpers (Some DRAG) None
                noSelection 1%positive afterFill Pf) as (_ & Up & _).
    destruct (Up Df) as (P & T & Hi & J & R).
    cbv zeta. conjuncts; try assumption.
    eexists. split; [exact J|]. eexists. exact R.
  - destruct (@handleActiveTool_stores_pending helpers (Some DRAG) None
                noSelection 1%positive midStroke Pm) as (_ & _ & Down).
    destruct (Down Dm) as (P & T & Hi & J).
    cbv zeta. conjuncts; assumption.
Defined.


(** C4 on the armed brush (nothing pending) and in the middle of the
    stroke (timer 1 set, brush down). *)
Lemma debounce_arms_and_rearms_witness :
  (let w := pressed in
   let w' := world_of (paint None w) in
   _pendingPaintState (sprite w') = Some (nextTimer w) /\
   timers w' = app (timers w) [(nextTimer w, 5000%Z)]) /\
  (let w := midStroke in
   let w' := fireTimer 1%positive w in
   history w' = history w /\ jobs w' = jobs w /\
   _pendingPaintState (sprite w') = Some (nextTimer w) /\
   timers w' =
     app (filter (fun e => negb (Pos.eqb (fst e) 1%positive)) (timers w))
         [(nextTimer w, 1000%Z)]) /\
  (let w := midStroke in
   history (storePaintState w) = history w /\
   jobs (storePaintState w) = jobs w).
Proof.
  assert (Pp : _pendingPaintState (sprite pressed) = None)
    by (vm_compute; reflexivity).
  assert (Pm : _pendingPaintState (sprite midStroke) = Some 1%positive)
    by (vm_compute; reflexivity).
  assert (Im : In (1%positive, 5000%Z) (timers midStroke))
    by (vm_compute; left; reflexivity).
  assert (Dm : down (this_brush midStroke) = true)
    by (vm_compute; reflexivity).
  split; [|split].
  - destruct (@debounce_arms_and_rearms helpers None 1%positive 5000%Z pressed)
      as (A & _).
    exact (A Pp).
  - destruct (@debounce_arms_and_rearms helpers None 1%positive 5000%Z
                midStroke) as (_ & F & _).
    destruct (F Pm Im Dm) as (Hi & J & _ & P & T).
    cbv zeta. conjuncts; assumption.
  - destruct (@debounce_arms_and_rearms helpers None 1%positive 5000%Z
                midStroke) as (_ & _ & S).
    destruct (S Dm) as (Hi & J & _). cbv zeta. split; assumption.
Defined.

(** C5 on a whole stroke with a timer expiry in its middle. *)
Lemma at_most_one_pending_timer_witness :
  let ops := [HandleActiveTool (Some BRUSH) (Some 0%nat) noSelection;
              HandlePress 10 10 "mousedown"; Update;
              HandleMove 20 10 "mousemove"; FireTimer 1%positive; Update;
              HandleRelease 20 10; ResolveJob 0%nat;
              HandleActiveTool (Some DRAG) None noSelection] in
  timerInv (run ops world0) /\
  (List.length (timers (run ops world0)) <= 1)%nat.
Proof.
  assert (I0 : timerInv world0) by (vm_compute; reflexivity).
  exact (proj1 (@at_most_one_pending_timer helpers _ world0 I0)).
Defined.

(** C6 as stated fails.  After the drag tool has been selected in the
    middle of a stroke the brush is still down, but a move is handed to the
    drag behaviour of the base class and records no pointer. *)
Lemma drag_move_records_no_sample :
  let w := dragMidStroke in
  let w' := world_of (handleMove 20 10 "mousemove" w) in
  down (this_brush w) = true /\
  pointers (this_brush w') <> app (pointers (this_brush w)) [mkPoint 20 10] /\
  pointers (this_brush w') = pointers (this_brush w) /\
  log w' = app (log w) [SuperHandleMove 20 10].
Proof.
  vm_compute. repeat split; try reflexivity. intros E. discriminate E.
Qed.

(** The amended C6 on a burst of three moves after the press. *)
Lemma moves_append_update_paints_once_witness :
  let moves := [mkPoint 12 10; mkPoint 16 10; mkPoint 20 10] in
  let w1 := handleMoves moves "mousemove" pressed in
  pointers (this_brush w1) = app (pointers (this_brush pressed)) moves /\
  log w1 = log pressed /\
  paintCalls w1 = paintCalls pressed /\
  exists w2,
    update w1 = Returned w2 /\
    paintCalls w2 = S (paintCalls pressed) /\
    last (this_brush w2) = List.length (pointers (this_brush w2)) /\
    List.length (pointers (this_brush w2)) =
      (List.length (pointers (this_brush pressed)) + List.length moves)%nat.
Proof.
  assert (Dp : down (this_brush pressed) = true)
    by (vm_compute; reflexivity).
  assert (Mp : _isPaintMode (sprite pressed) = true)
    by (vm_compute; reflexivity).
  assert (Op : optionsPresent pressed)
    by (split; vm_compute; intros E; discriminate E).
  exact (@moves_append_update_paints_once helpers
           [mkPoint 12 10; mkPoint 16 10; mkPoint 20 10] "mousemove"
           pressed Dp Mp Op).
Defined.

(** C7 on the armed clone stamp: the first press at (30, 40), the second
    at (50, 50). *)
Lemma clone_press_anchors_witness :
  exists w',
    handlePress 30 40 "mousedown" cloneArmed = Returned w' /\
    coords (heap w' 0%nat) = Some (mkPoint 30 40) /\
    _brush (sprite w') = _brush (sprite cloneArmed) /\
    exists w'',
      handlePress 50 50 "mousedown" w' = Returned w'' /\
      _cloneStartCoords (sprite w'') = Some (mkPoint 50 50) /\
      pointers (this_brush w'') = [mkPoint 50 50] /\
      down (this_brush w'') = true.
Proof.
  assert (Hc : _isColorPicker (sprite cloneArmed) = false)
    by (vm_compute; reflexivity).
  assert (Hp : _isPaintMode (sprite cloneArmed) = true)
    by (vm_compute; reflexivity).
  assert (Ht : _toolType (sprite cloneArmed) = Some CLONE)
    by (vm_compute; reflexivity).
  assert (Ho : _toolOptions (sprite cloneArmed) = Some 0%nat)
    by (vm_compute; reflexivity).
  assert (Hn : coords (heap cloneArmed 0%nat) = None)
    by (vm_compute; reflexivity).
  destruct (@clone_press_anchors helpers 30 40 "mousedown" 0%nat cloneArmed
              Hc Hp Ht Ho) as (First & _).
  destruct (First Hn) as (w' & E & C & _ & B & _ & _ & _ & _ & Second).
  exists w'. conjuncts; try assumption.
  destruct (Second 50 50 "mousedown") as (w'' & E2 & _ & S & P & D).
  exists w''. conjuncts; try assumption.
Defined.

(** C9 fails on a preview pass.  The brush is down and there is no
    selection: [paint] saves the state of the layer's context and switches
    to the context of the preview canvas, which then receives the
    [restore()]; the layer's context is left with one state more on its
    stack and the preview context is asked to restore a state it never
    saved. *)
Theorem preview_pass_restores_wrong_context :
  let w := pressed in
  let w' := world_of (paint None w) in
  ctx_ops SourceCtx (log w') = [Save] /\
  balanced (ctx_ops SourceCtx (log w')) = false /\
  stack_depth 0 (ctx_ops SourceCtx (log w')) = Some 1%nat /\
  stack_depth 0 (ctx_ops TempCtx (log w')) = None.
Proof. vm_compute. repeat split; reflexivity. Qed.

End ScenarioFacts.
(* ================================================================== *)
(** * Further properties of the unit and image helpers *)

Module UnitMathFacts.
Import UnitMath ImageMathFacts.

Section FastRoundFacts.
Local Open Scope R_scope.

Lemma toInt32_range (z : Z) :
  (-2147483648 <= toInt32 z < 2147483648)%Z.
Proof.
  unfold toInt32.
  pose proof (Z.mod_pos_bound (z + 2147483648) 4294967296) as Hb. lia.
Qed.

Lemma truncate_IZR (z : Z) : truncate (IZR z) = z.
Proof.
  unfold truncate. destruct (Rlt_dec (IZR z) 0).
  - apply Zceil_eq. lra.
  - apply ZfloorZ.
Qed.

Lemma fastRound_int32 (z : Z) :
  (-2147483648 <= z < 2147483648)%Z -> fastRound (IZR z) = IZR z.
Proof.
  intros Hz. unfold fastRound, shl0.
  destruct (Rgt_dec (IZR z) 0) as [Hp|Hn].
  - f_equal. rewrite <- (toInt32_small Hz) at 2. f_equal.
    unfold truncate. destruct (Rlt_dec (IZR z + 5 / 10) 0); [lra|].
    apply Zfloor_eq. lra.
  - f_equal. rewrite truncate_IZR. apply toInt32_small. exact Hz.
Qed.

(** X1.  [fastRound] always returns a signed 32-bit integer, and it is the
    identity on those: rounding a rounded number changes nothing. *)
Theorem fastRound_idempotent (x : R) :
  (exists z : Z, (-2147483648 <= z < 2147483648)%Z /\ fastRound x = IZR z) /\
  fastRound (fastRound x) = fastRound x.
Proof.
  assert (Hz : exists z : Z,
             (-2147483648 <= z < 2147483648)%Z /\ fastRound x = IZR z).
  { unfold fastRound, shl0. destruct (Rgt_dec x 0);
      eexists; (split; [apply toInt32_range|reflexivity]). }
  split; [exact Hz|].
  destruct Hz as (z & Hr & ->). apply fastRound_int32. exact Hr.
Qed.

(** X2.  A number that is not positive is not rounded to the nearest integer
    but truncated toward zero: above -2^31 - 1, [fastRound] returns the
    least integer at or above the number. *)
Theorem fastRound_nonpositive_truncates (x : R) :
  -2147483649 < x -> x <= 0 ->
  fastRound x = IZR (Zceil x) /\ x <= fastRound x < x + 1.
Proof.
  intros Hlo Hhi.
  assert (E : fastRound x = IZR (Zceil x)).
  { unfold fastRound, shl0.
    destruct (Rgt_dec x 0) as [Hp|_]; [lra|].
    f_equal.
    pose proof (Zceil_bound x) as [Hc1 Hc2].
    assert (Ht : truncate x = Zceil x).
    { unfold truncate. destruct (Rlt_dec x 0) as [_|Hn]; [reflexivity|].
      assert (x = 0) by lra. subst x.
      change 0 with (IZR 0). rewrite ZfloorZ. symmetry. apply Zceil_eq. lra. }
    rewrite Ht. apply toInt32_small.
    assert (H1 : (-2147483649 < Zceil x)%Z) by (apply lt_IZR; lra).
    assert (H2 : (Zceil x - 1 < 0)%Z) by (apply lt_IZR; rewrite minus_IZR; lra).
    lia. }
  split; [exact E|]. rewrite E.
  pose proof (Zceil_bound x). lra.
Qed.

(** Minus six tenths is rounded to zero, not to minus one. *)
Lemma fastRound_nonpositive_truncates_witness :
  fastRound (- (6 / 10)) = IZR (Zceil (- (6 / 10))) /\
  - (6 / 10) <= fastRound (- (6 / 10)) < - (6 / 10) + 1.
Proof.
  apply (@fastRound_nonpositive_truncates (- (6 / 10))); lra.
Defined.

(** X3.  From 2^31 - 0.5 up to 2^32 - 0.5 the shift wraps around:
    [fastRound] returns the rounded number minus 2^32, a negative number. *)
Theorem fastRound_wraps (x : R) :
  2147483648 <= x + 5 / 10 -> x + 5 / 10 < 4294967296 ->
  fastRound x = IZR (Zfloor (x + 5 / 10)) - 4294967296 /\ fastRound x < 0.
Proof.
  intros Hlo Hhi.
  pose proof (Zfloor_bound (x + 5 / 10)) as [Hf1 Hf2].
  assert (Hz : (2147483648 <= Zfloor (x + 5 / 10) < 4294967296)%Z).
  { split.
    - apply Zfloor_lub. exact Hlo.
    - apply lt_IZR. lra. }
  assert (E : fastRound x = IZR (Zfloor (x + 5 / 10)) - 4294967296).
  { unfold fastRound, shl0, truncate.
    destruct (Rgt_dec x 0) as [_|Hn]; [|lra].
    destruct (Rlt_dec (x + 5 / 10) 0) as [Hneg|_]; [lra|].
    rewrite <- minus_IZR. f_equal. unfold toInt32.
    replace (Zfloor (x + 5 / 10) + 2147483648)%Z
      with (Zfloor (x + 5 / 10) - 2147483648 + 1 * 4294967296)%Z by lia.
    rewrite Z.mod_add by lia. rewrite Z.mod_small by lia. lia. }
  split; [exact E|]. rewrite E.
  destruct Hz as [_ Hz]. apply IZR_lt in Hz. lra.
Qed.

(** 2^31 is rounded to -2^31. *)
Lemma fastRound_wraps_witness :
  fastRound 2147483648 = IZR (Zfloor (2147483648 + 5 / 10)) - 4294967296 /\
  fastRound 2147483648 < 0.
Proof.
  apply (@fastRound_wraps 2147483648); lra.
Defined.

End FastRoundFacts.

End UnitMathFacts.

Module ImageMathMoreFacts.
Import JsNumber Orientation ImageMathFacts.

Section OrientationFacts.
Local Open Scope Q_scope.

(** X10.  Every pair of dimensions is exactly one of portrait, landscape
    and square, and swapping width and height turns portrait into
    landscape. *)
Theorem orientation_partition (w h : Q) :
  ((isPortrait w h = true /\ isLandscape w h = false /\
    isSquare w h = false) \/
   (isPortrait w h = false /\ isLandscape w h = true /\
    isSquare w h = false) \/
   (isPortrait w h = false /\ isLandscape w h = false /\
    isSquare w h = true)) /\
  isPortrait w h = isLandscape h w /\
  isSquare w h = isSquare h w.
Proof.
  assert (Hsq : forall a b, isSquare a b = true <-> a == b).
  { intros a b. unfold isSquare. apply Qeq_bool_iff. }
  assert (Hsqf : forall a b, ~ a == b -> isSquare a b = false).
  { intros a b N. destruct (isSquare a b) eqn:E; [|reflexivity].
    apply Hsq in E. contradiction. }
  split; [|split].
  - unfold isPortrait, isLandscape.
    destruct (Q_dec w h) as [[Hlt|Hgt]|Heq].
    + left. repeat split.
      * apply Qlt_bool_true. exact Hlt.
      * apply Qgt_bool_false. apply Qlt_le_weak. exact Hlt.
      * apply Hsqf. intro E. rewrite E in Hlt. exact (Qlt_irrefl _ Hlt).
    + right. left. repeat split.
      * apply Qlt_bool_false. apply Qlt_le_weak. exact Hgt.
      * apply Qgt_bool_true. exact Hgt.
      * apply Hsqf. intro E. rewrite E in Hgt. exact (Qlt_irrefl _ Hgt).
    + right. right. repeat split.
      * apply Qlt_bool_false. rewrite Heq. apply Qle_refl.
      * apply Qgt_bool_false. rewrite Heq. apply Qle_refl.
      * apply Hsq. exact Heq.
  - reflexivity.
  - destruct (isSquare w h) eqn:E.
    + symmetry. apply Hsq. symmetry. apply Hsq. exact E.
    + symmetry. apply Hsqf. intro E'. symmetry in E'. apply Hsq in E'.
      congruence.
Qed.

End OrientationFacts.

End ImageMathMoreFacts.

(* ================================================================== *)
(** * Further properties of the layer sprite *)

Module LayerSpriteMoreFacts.
Import JsNumber LayerSprite LayerSpriteMore LayerSpriteFacts.
Local Open Scope Q_scope.
Local Open Scope string_scope.

Section MoreFacts.
Context `{Helpers}.

(** *** Balance of the state stacks *)

(** X11.  A [paint] pass that returns leaves the state stack of every
    context balanced exactly when it is no low resolution preview pass of a
    brush or an eraser. *)
Theorem paint_balanced_iff (a : option Action) (w : World) :
  returned (paint a w) = true ->
  ((forall c, balanced (added c w (world_of (paint a w))) = true) <->
   previewPass a w = false).
Proof.
  intros R. split.
  - intros B. destruct (previewPass a w) eqn:P; [|reflexivity].
    destruct a as [a|]; [discriminate P|].
    pose proof (paint_preview_unbalanced w P) as U. cbv zeta in U.
    destruct U as [_ U]. specialize (B TempCtx).
    unfold balanced in B. rewrite U in B. discriminate B.
  - intros P c. apply paint_balanced; assumption.
Qed.

(** *** Rotation *)

Lemma Qlt_bool_comp (a a' b : Q) : a == a' -> Qlt_bool a b = Qlt_bool a' b.
Proof.
  intros E. unfold Qlt_bool. f_equal.
  destruct (Qle_bool b a) eqn:E1; destruct (Qle_bool b a') eqn:E2; trivial.
  - apply Qle_bool_iff in E1. rewrite E in E1. apply Qle_bool_iff in E1.
    congruence.
  - apply Qle_bool_iff in E2. rewrite <- E in E2. apply Qle_bool_iff in E2.
    congruence.
Qed.

Lemma Qtruncate_comp (q q' : Q) : q == q' -> Qtruncate q = Qtruncate q'.
Proof.
  intros E. unfold Qtruncate. rewrite (Qlt_bool_comp 0 E).
  destruct (Qlt_bool q' 0).
  - apply Qceiling_comp. exact E.
  - apply Qfloor_comp. exact E.
Qed.

Lemma Qtruncate_inject_Z (k : Z) : Qtruncate (inject_Z k) = k.
Proof.
  unfold Qtruncate. destruct (Qlt_bool (inject_Z k) 0).
  - apply Qceiling_Z.
  - apply Qfloor_Z.
Qed.

(** X12.  A sprite counts as not rotated exactly when the rotation of its
    layer is a whole number of turns of 360, in either direction. *)
Theorem isRotated_iff (s : Sprite) :
  isRotated s = false <->
  exists k : Z, rotation (effects (layer s)) == 360 * inject_Z k.
Proof.
  unfold isRotated. rewrite negb_false_iff, Qeq_bool_iff. unfold remainder.
  set (a := rotation (effects (layer s))).
  split.
  - intros E. exists (Qtruncate (a / 360)). Lqa.lra.
  - intros [k E].
    assert (Ek : a / 360 == inject_Z k).
    { rewrite E. field. }
    rewrite (Qtruncate_comp Ek), Qtruncate_inject_Z. Lqa.lra.
Qed.

(** *** The armed state *)

Lemma arming_of_modes (s s' : Sprite) :
  modes s' = modes s -> arming s' = arming s.
Proof.
  unfold modes, arming. intros M. injection M as. congruence.
Qed.

Lemma arming_paint (a : option Action) (w : World) :
  arming (sprite (world_of (paint a w))) = arming (sprite w).
Proof.
  destruct (paint_frame a w) as (_ & _ & _ & _ & _ & _ & _ & M & _).
  destruct (prepared_counted w) as (_ & _ & _ & _ & M1 & _).
  cbv zeta in M1. apply arming_of_modes. rewrite M. exact M1.
Qed.

Lemma arming_storePaintState (w : World) :
  arming (sprite (storePaintState w)) = arming (sprite w).
Proof.
  unfold storePaintState.
  destruct (_pendingPaintState (sprite w)); [|reflexivity].
  fields. destruct (down (_brush (sprite w))); reflexivity.
Qed.

Lemma arming_releaseMode (w : World) :
  arming (sprite (releaseMode w)) = arming (sprite w).
Proof.
  unfold releaseMode.
  destruct (_isPaintMode (sprite w)); [reflexivity|].
  destruct (_isDragMode (sprite w)); [|reflexivity].
  destruct (getters_snapAlign (store w)); reflexivity.
Qed.

(** Nothing but a tool activation changes the tool, its options, the mode
    flags or the cached selection. *)
Lemma step_keeps_arming (op : Op) (w : World) :
  keepsTool op = true ->
  arming (sprite (world_of (step op w))) = arming (sprite w).
Proof.
  intros K. destruct op; simpl; try discriminate K.
  - (* handlePress *)
    unfold handlePress.
    set (w1 := if isTouch type then _ else w).
    assert (A1 : arming (sprite w1) = arming (sprite w))
      by (subst w1; destruct (isTouch type); reflexivity).
    clearbody w1. rewrite <- A1.
    destruct (_isColorPicker (sprite w1)); [reflexivity|].
    destruct (_isPaintMode (sprite w1)).
    + destruct (toolIs (_toolType (sprite w1)) CLONE).
      * destruct (_toolOptions (sprite w1)); [|reflexivity].
        destruct (coords (heap w1 r));
          [destruct (_cloneStartCoords (sprite w1))|]; reflexivity.
      * destruct (toolIs (_toolType (sprite w1)) FILL);
          [apply arming_paint|reflexivity].
    + destruct (_isDragMode (sprite w1)); reflexivity.
  - (* handleMove *)
    unfold handleMove, moveMask, resetFilterAndRecache, cacheEffects.
    destruct (isTouch type); fields; branches; fields; reflexivity.
  - (* handleRelease *)
    unfold handleRelease.
    destruct (down (this_brush w)) eqn:D; [|apply arming_releaseMode].
    set (w1 := upd _ (upd _ (upd _ (emit DisposeTempCanvas w)))).
    assert (A1 : arming (sprite w1) = arming (sprite w)) by reflexivity.
    clearbody w1. rewrite <- A1.
    pose proof (arming_paint None w1) as A2.
    destruct (paint None w1) as [w2|w2]; simpl in A2; [|exact A2].
    rewrite <- A2.
    set (w3 := upd _ w2).
    assert (A3 : arming (sprite w3) = arming (sprite w2)) by reflexivity.
    clearbody w3. rewrite <- A3. simpl.
    rewrite arming_releaseMode.
    destruct (negb _); [apply arming_storePaintState|reflexivity].
  - (* update *)
    unfold update. destruct (down (this_brush w)); [|reflexivity].
    pose proof (arming_paint None w) as A2.
    destruct (paint None w) as [w2|w2]; simpl in A2; [|exact A2].
    rewrite <- A2. reflexivity.
  - apply arming_paint.
  - apply arming_storePaintState.
  - reflexivity.
  - reflexivity.
  - unfold fireTimer.
    destruct (existsb (fun e => Pos.eqb (fst e) t) (timers w));
      [|reflexivity].
    rewrite arming_storePaintState. reflexivity.
  - unfold resolveJob.
    destruct (nth_error (jobs w) n) as [[]|]; reflexivity.
Qed.

Lemma modeTable_ext (s s' : Sprite) :
  arming s' = arming s -> modeTable s -> modeTable s'.
Proof.
  unfold arming, modeTable. intros A. injection A as.
  intros (P & D & C). repeat split; congruence.
Qed.

Lemma setSelection_keeps (doc : Document) (b : bool) (w : World) :
  let s := sprite (setSelection doc b w) in
  _toolType s = _toolType (sprite w) /\
  _isPaintMode s = _isPaintMode (sprite w) /\
  _isDragMode s = _isDragMode (sprite w) /\
  _isColorPicker s = _isColorPicker (sprite w).
Proof.
  cbv zeta. unfold setSelection. cbv zeta.
  destruct (negb b || _); repeat split; reflexivity.
Qed.

Lemma setSelection_selection (doc : Document) (b : bool) (w : World) :
  let s := sprite (setSelection doc b w) in
  _selection s <> Some [] /\
  (_invertSelection s = true -> _selection s <> None).
Proof.
  cbv zeta. unfold setSelection. cbv zeta.
  destruct (selection doc) as [[|p ps]|];
    destruct (negb b || _); fields;
    split; intros; solve [discriminate | assumption].
Qed.

Lemma cacheBrush_keeps (c : string) (o : option Ref) (w : World) :
  let s := sprite (cacheBrush c o w) in
  _toolType s = _toolType (sprite w) /\
  _isPaintMode s = _isPaintMode (sprite w) /\
  _isDragMode s = _isDragMode (sprite w) /\
  _isColorPicker s = _isColorPicker (sprite w).
Proof.
  cbv zeta. unfold cacheBrush. destruct o; repeat split; reflexivity.
Qed.

(** The drawable cases of [handleActiveTool]. *)
Lemma arm_drawable (t : ToolTypes) (o : option Ref) (doc : Document)
  (w1 : World) :
  let w3 := upd (set_isPaintMode true)
              (upd (set_draggable true)
                 (forceMoveListener
                    (upd (set_toolOptions o)
                       (upd (set_toolType (Some t)) w1)))) in
  let s := sprite (emit Invalidate
                     (setSelection doc true
                        (cacheBrush (activeColor (store w3)) o w3))) in
  _toolType s = Some t /\
  _isPaintMode s = true /\
  _isDragMode s = _isDragMode (sprite w1) /\
  _isColorPicker s = _isColorPicker (sprite w1) /\
  _selection s <> Some [].
Proof.
  cbv zeta.
  set (w3 := upd (set_isPaintMode true) _).
  set (w4 := cacheBrush _ o w3).
  change (sprite (emit Invalidate (setSelection doc true w4)))
    with (sprite (setSelection doc true w4)).
  destruct (setSelection_keeps doc true w4) as (T & P & D & C).
  destruct (setSelection_selection doc true w4) as (S & _).
  cbv zeta in T, P, D, C, S. rewrite T, P, D, C.
  destruct (cacheBrush_keeps (activeColor (store w3)) o w3)
    as (T' & P' & D' & C').
  cbv zeta in T', P', D', C'. fold w4 in T', P', D', C'.
  rewrite T', P', D', C'.
  repeat split; solve [reflexivity | exact S].
Qed.

Lemma reset_store_arming (w : World) :
  let w1 := storePaintState (resetInteractionState w) in
  arming (sprite w1) =
    (None, None, false, false, false, None, _invertSelection (sprite w)) /\
  _interactive (sprite w1) = _interactive (sprite w).
Proof.
  cbv zeta. split.
  - rewrite arming_storePaintState. reflexivity.
  - unfold storePaintState.
    destruct (_pendingPaintState (sprite (resetInteractionState w)));
      [|reflexivity].
    fields. destruct (down (_brush (sprite w))); reflexivity.
Qed.

Lemma armTool_drawable (tool : ToolTypes) (o : option Ref) (doc : Document)
  (w1 : World) :
  _interactive (sprite w1) = true ->
  isDrawableTool (Some tool) = true ->
  armTool (Some tool) o doc w1 =
  let w3 := upd (set_isPaintMode true)
              (upd (set_draggable true)
                 (forceMoveListener
                    (upd (set_toolOptions o)
                       (upd (set_toolType (Some tool)) w1)))) in
  emit Invalidate
    (setSelection doc true (cacheBrush (activeColor (store w3)) o w3)).
Proof.
  intros I Dr. unfold armTool. rewrite I.
  destruct tool; solve [reflexivity | discriminate Dr].
Qed.

Lemma armTool_idle (tool : option ToolTypes) (o : option Ref)
  (doc : Document) (w1 : World) :
  (if _interactive (sprite w1) then tool else None) = None ->
  armTool tool o doc w1 = w1.
Proof.
  unfold armTool. destruct (_interactive (sprite w1)); [|reflexivity].
  intros ->. reflexivity.
Qed.

(** [armTool] on a sprite whose interaction state has been reset. *)
Lemma armTool_arms (tool : option ToolTypes) (o : option Ref)
  (doc : Document) (w1 : World) :
  _toolType (sprite w1) = None ->
  _isPaintMode (sprite w1) = false ->
  _isDragMode (sprite w1) = false ->
  _isColorPicker (sprite w1) = false ->
  _selection (sprite w1) = None ->
  let s := sprite (armTool tool o doc w1) in
  modeTable s /\
  _toolType s = (if _interactive (sprite w1) then tool else None) /\
  _selection s <> Some [] /\
  (_isPaintMode s = false -> _selection s = None).
Proof.
  intros T1 P1 D1 C1 S1. cbv zeta.
  destruct (if _interactive (sprite w1) then tool else None) as [t|] eqn:E.
  - assert (I : _interactive (sprite w1) = true)
      by (destruct (_interactive (sprite w1)); [reflexivity|discriminate E]).
    rewrite I in E. subst tool.
    destruct (isDrawableTool (Some t)) eqn:Dr.
    + rewrite (armTool_drawable t o doc w1 I Dr).
      destruct (arm_drawable t o doc w1) as (T & P & D & C & S).
      cbv zeta in T, P, D, C, S. cbv zeta.
      unfold modeTable. rewrite T, P, D, C, D1, C1, Dr.
      repeat split; try exact S; try (intros; discriminate);
        destruct t; solve [reflexivity | discriminate Dr].
    + unfold modeTable, armTool. rewrite I.
      destruct t; try discriminate Dr;
        cbn [sprite emit upd with_log with_sprite set_toolType
             set_toolOptions set_isDragMode set_draggable set_isColorPicker
             _isPaintMode _isDragMode _isColorPicker _toolType _selection];
        rewrite ?P1, ?D1, ?C1, ?S1;
        repeat split; solve [reflexivity | discriminate].
  - rewrite (armTool_idle tool o doc w1 E).
    unfold modeTable, isDrawableTool. rewrite T1, P1, D1, C1, S1.
    repeat split; solve [reflexivity | discriminate].
Qed.

(** What a tool activation leaves behind, whatever the state it starts
    from. *)
Lemma handleActiveTool_arms (tool : option ToolTypes) (o : option Ref)
  (doc : Document) (w : World) :
  let w' := handleActiveTool tool o doc w in
  modeTable (sprite w') /\
  _toolType (sprite w') = (if _interactive (sprite w) then tool else None) /\
  _selection (sprite w') <> Some [] /\
  (_isPaintMode (sprite w') = false -> _selection (sprite w') = None).
Proof.
  cbv zeta. unfold handleActiveTool. cbv zeta.
  destruct (reset_store_arming w) as (A1 & I1). cbv zeta in A1, I1.
  unfold arming in A1. injection A1 as T1 O1 P1 D1 C1 S1 V1.
  rewrite <- I1.
  apply (armTool_arms tool o doc _ T1 P1 D1 C1 S1).
Qed.

Lemma modeTable_step (op : Op) (w : World) :
  modeTable (sprite w) -> modeTable (sprite (world_of (step op w))).
Proof.
  intros M. destruct (keepsTool op) eqn:K.
  - apply (modeTable_ext (step_keeps_arming op w K)). exact M.
  - destruct op; try discriminate K. simpl.
    apply (handleActiveTool_arms tool toolOptions activeDocument w).
Qed.

Lemma modeTable_run (ops : list Op) (w : World) :
  modeTable (sprite w) -> modeTable (sprite (run ops w)).
Proof.
  revert w. induction ops as [|op ops IH]; intros w M; [exact M|].
  simpl. apply IH. apply modeTable_step. exact M.
Qed.

Lemma run_keeps_arming (ops : list Op) (w : World) :
  arming (sprite (run (filter keepsTool ops) w)) = arming (sprite w).
Proof.
  revert w. induction ops as [|op ops IH]; intros w; [reflexivity|].
  simpl. destruct (keepsTool op) eqn:K; [|apply IH].
  simpl. rewrite IH. apply step_keeps_arming. exact K.
Qed.

(** *** The tool options objects *)

Lemma heap_paint (a : option Action) (w : World) :
  heap (world_of (paint a w)) = heap w.
Proof.
  destruct (paint_frame a w) as (_ & _ & Hh & _).
  destruct (prepared_counted w) as (_ & _ & Hh1 & _).
  cbv zeta in Hh1. rewrite Hh. exact Hh1.
Qed.

Lemma heap_storePaintState (w : World) :
  heap (storePaintState w) = heap w.
Proof.
  unfold storePaintState.
  destruct (_pendingPaintState (sprite w)); [|reflexivity].
  fields. destruct (down (_brush (sprite w))); reflexivity.
Qed.

Lemma heap_releaseMode (w : World) : heap (releaseMode w) = heap w.
Proof.
  unfold releaseMode.
  destruct (_isPaintMode (sprite w)); [reflexivity|].
  destruct (_isDragMode (sprite w)); [|reflexivity].
  destruct (getters_snapAlign (store w)); reflexivity.
Qed.

Lemma heap_armTool (tool : option ToolTypes) (o : option Ref)
  (doc : Document) (w : World) :
  heap (armTool tool o doc w) = heap w.
Proof.
  unfold armTool, cacheBrush, setSelection.
  destruct (_interactive (sprite w)); [|reflexivity].
  destruct tool as [[]|]; fields; branches; reflexivity.
Qed.

Lemma heap_handleActiveTool (tool : option ToolTypes) (o : option Ref)
  (doc : Document) (w : World) :
  heap (handleActiveTool tool o doc w) = heap w.
Proof.
  unfold handleActiveTool.
  rewrite heap_armTool, heap_storePaintState. reflexivity.
Qed.

(** No operation but a press changes a tool options object. *)
Lemma step_keeps_heap (op : Op) (w : World) :
  keepsOptions op = true ->
  heap (world_of (step op w)) = heap w.
Proof.
  intros K. destruct op; simpl; try discriminate K.
  - apply heap_handleActiveTool.
  - (* handleMove *)
    unfold handleMove, moveMask, resetFilterAndRecache, cacheEffects.
    destruct (isTouch type); fields; branches; fields; reflexivity.
  - (* handleRelease *)
    unfold handleRelease.
    destruct (down (this_brush w)) eqn:D; [|apply heap_releaseMode].
    set (w1 := upd _ (upd _ (upd _ (emit DisposeTempCanvas w)))).
    assert (A1 : heap w1 = heap w) by reflexivity.
    clearbody w1. rewrite <- A1.
    pose proof (heap_paint None w1) as A2.
    destruct (paint None w1) as [w2|w2]; simpl in A2; [|exact A2].
    rewrite <- A2.
    set (w3 := upd _ w2).
    assert (A3 : heap w3 = heap w2) by reflexivity.
    clearbody w3. rewrite <- A3. simpl.
    rewrite heap_releaseMode.
    destruct (negb _); [apply heap_storePaintState|reflexivity].
  - (* update *)
    unfold update. destruct (down (this_brush w)); [|reflexivity].
    pose proof (heap_paint None w) as A2.
    destruct (paint None w) as [w2|w2]; simpl in A2; [|exact A2].
    rewrite <- A2. reflexivity.
  - apply heap_paint.
  - apply heap_storePaintState.
  - reflexivity.
  - reflexivity.
  - unfold fireTimer.
    destruct (existsb (fun e => Pos.eqb (fst e) t) (timers w));
      [|reflexivity].
    rewrite heap_storePaintState. reflexivity.
  - unfold resolveJob.
    destruct (nth_error (jobs w) n) as [[]|]; reflexivity.
Qed.

(** A press writes at most the source coordinates of the clone stamp. *)
Lemma step_keeps_shape (op : Op) (w : World) (r : Ref) :
  optionsShape (heap (world_of (step op w)) r) = optionsShape (heap w r).
Proof.
  destruct (keepsOptions op) eqn:K; [rewrite step_keeps_heap by exact K;
                                     reflexivity|].
  destruct op; try discriminate K. simpl.
  unfold handlePress.
  set (w1 := if isTouch type then _ else w).
  assert (A1 : heap w1 = heap w)
    by (subst w1; destruct (isTouch type); reflexivity).
  clearbody w1. rewrite <- A1.
  destruct (_isColorPicker (sprite w1)); [reflexivity|].
  destruct (_isPaintMode (sprite w1)).
  - destruct (toolIs (_toolType (sprite w1)) CLONE).
    + destruct (_toolOptions (sprite w1)) as [r0|]; [|reflexivity].
      destruct (coords (heap w1 r0));
        [destruct (_cloneStartCoords (sprite w1)); reflexivity|].
      cbn [world_of]. fields. unfold heap_set.
      destruct (Nat.eqb r r0) eqn:E; [|reflexivity].
      apply Nat.eqb_eq in E. subst r0. reflexivity.
    + destruct (toolIs (_toolType (sprite w1)) FILL);
        [rewrite heap_paint|]; reflexivity.
  - destruct (_isDragMode (sprite w1)); reflexivity.
Qed.

Lemma run_keeps_shape (ops : list Op) (w : World) (r : Ref) :
  optionsShape (heap (run ops w) r) = optionsShape (heap w r).
Proof.
  revert w. induction ops as [|op ops IH]; intros w; [reflexivity|].
  simpl. rewrite IH. apply step_keeps_shape.
Qed.

Lemma run_keeps_heap (ops : list Op) (w : World) :
  heap (run (filter keepsOptions ops) w) = heap w.
Proof.
  revert w. induction ops as [|op ops IH]; intros w; [reflexivity|].
  simpl. destruct (keepsOptions op) eqn:K; [|apply IH].
  simpl. rewrite IH. apply step_keeps_heap. exact K.
Qed.

(** X13.  After a tool activation the mode flags of the sprite are a function
    of its tool: paint mode for the fill tool, the eraser, the brush and the
    clone stamp, drag mode for the drag tool, the colour picker for the
    eyedropper, no mode otherwise, so that at most one mode is on; the
    sprite has the tool it was given if it is interactive and none if not.
    All of this still holds after any sequence of operations, and pointer
    events, frames, timers and resolved snapshots change neither the tool,
    the options object it refers to, the modes nor the cached selection.
    The options objects themselves are written by a press only, and keep
    every field but [coords], the source of the clone stamp. *)
Theorem modes_follow_tool (tool : option ToolTypes) (o : option Ref)
  (doc : Document) (w0 : World) (ops : list Op) :
  let w := handleActiveTool tool o doc w0 in
  let s := sprite (run ops w) in
  _toolType (sprite w) = (if _interactive (sprite w0) then tool else None) /\
  modeTable s /\
  _isPaintMode s && _isDragMode s = false /\
  _isPaintMode s && _isColorPicker s = false /\
  _isDragMode s && _isColorPicker s = false /\
  arming (sprite (run (filter keepsTool ops) w)) = arming (sprite w) /\
  heap (run (filter keepsOptions ops) w) = heap w /\
  (forall r, optionsShape (heap (run ops w) r) = optionsShape (heap w0 r)).
Proof.
  cbv zeta.
  destruct (handleActiveTool_arms tool o doc w0) as (M & T & _).
  cbv zeta in M, T.
  pose proof (modeTable_run ops _ M) as (P & D & C).
  split; [exact T|]. split; [repeat split; assumption|].
  rewrite P, D, C. unfold isDrawableTool.
  split; [|split; [|split; [|split; [|split]]]];
    try apply run_keeps_arming;
    try apply run_keeps_heap;
    try (intros r; rewrite run_keeps_shape, heap_handleActiveTool;
         reflexivity);
    destruct (_toolType (sprite (run ops (handleActiveTool tool o doc w0))))
      as [[]|]; reflexivity.
Qed.

(** *** The cached selection *)

Lemma selection_step (op : Op) (w : World) :
  _selection (sprite w) <> Some [] ->
  _selection (sprite (world_of (step op w))) <> Some [].
Proof.
  intros S. destruct (keepsTool op) eqn:K.
  - pose proof (step_keeps_arming op w K) as A.
    unfold arming in A. injection A as _ _ _ _ _ A _. rewrite A. exact S.
  - destruct op; try discriminate K. simpl.
    apply (handleActiveTool_arms tool toolOptions activeDocument w).
Qed.

(** X14.  The selection cached by the sprite is never an empty list: it is
    [null] or has points, after [setSelection], after a tool activation and
    after every sequence of operations that follows; [setSelection] raises
    the invert flag only together with a selection, and a tool activation
    that does not end in paint mode leaves no selection cached. *)
Theorem cached_selection_never_empty (doc : Document) (b : bool)
  (tool : option ToolTypes) (o : option Ref) (w : World) (ops : list Op) :
  let s  := sprite (setSelection doc b w) in
  let w1 := handleActiveTool tool o doc w in
  (_selection s <> Some [] /\
   (_invertSelection s = true -> _selection s <> None)) /\
  (_isPaintMode (sprite w1) = false -> _selection (sprite w1) = None) /\
  _selection (sprite (run ops w1)) <> Some [].
Proof.
  cbv zeta. split; [apply setSelection_selection|].
  destruct (handleActiveTool_arms tool o doc w) as (_ & _ & S & N).
  cbv zeta in S, N. split; [exact N|].
  generalize dependent (handleActiveTool tool o doc w). clear.
  intros w1 S _. revert w1 S.
  induction ops as [|op ops IH]; intros w1 S; [exact S|].
  simpl. apply IH. apply selection_step. exact S.
Qed.

(** *** Snapshots and commits *)

Lemma jobs_paintSelection (c : Ctx) (lowres : bool)
  (sel : option (list Point)) (width height : Q) (w : World) :
  jobs (snd (paintSelection c lowres sel width height w)) = jobs w.
Proof. unfold paintSelection. branches; reflexivity. Qed.

Lemma jobs_paintTool (a : option Action) (c : Ctx)
  (lowres eraser clone fill : bool) (sel : option (list Point))
  (width height : Q) (w : World) :
  jobs (world_of (snd (paintTool a c lowres eraser clone fill sel
                         width height w))) = jobs w.
Proof.
  unfold paintTool.
  destruct a as [a|]; [unfold paintAction; simpl; branches; reflexivity|].
  destruct fill; [unfold paintFill; simpl; branches; reflexivity|].
  destruct clone; [unfold paintClone; simpl; branches; reflexivity|].
  unfold paintBrush. branches; reflexivity.
Qed.

(** The continuations that [paint] leaves waiting: the snapshot of the
    source if none was pending, and the rendering of the effects unless the
    pass is a preview or the rendering is waiting already. *)
Lemma paint_jobs (a : option Action) (w : World) :
  exists fx,
    jobs (world_of (paint a w)) =
      app (jobs (prepared (with_paintCalls (S (paintCalls w)) w))) fx /\
    (fx = [] \/ fx = [RenderEffects]).
Proof.
  destruct (paint_phases a w)
    as (c0 & c' & cvs & lowres & sel & sel' & w2 & o & _ & _ & E2 & E3 & E).
  set (w1 := prepared (with_paintCalls (S (paintCalls w)) w)) in *.
  pose proof (jobs_paintSelection c0 lowres sel (cwidth cvs) (cheight cvs)
                (call c0 Save w1)) as J2.
  rewrite E2 in J2. simpl in J2.
  pose proof (jobs_paintTool a c0 lowres
                (toolIs (_toolType (sprite w1)) ERASER)
                (toolIs (_toolType (sprite w1)) CLONE)
                (toolIs (_toolType (sprite w1)) FILL)
                sel' (cwidth cvs) (cheight cvs) w2) as J3.
  rewrite E3 in J3. simpl in J3.
  rewrite E. clear E.
  destruct o as [w3|w3]; cbn [world_of] in *.
  - set (w5 := call c' Restore _).
    assert (J5 : jobs w5 = jobs w1)
      by (subst w5; destruct sel'; simpl; rewrite J3, J2; reflexivity).
    clearbody w5.
    destruct lowres.
    + exists []. rewrite J5, app_nil_r. split; [reflexivity|left; reflexivity].
    + unfold resetFilterAndRecache, cacheEffects. fields.
      destruct (_rafFx (sprite w5)); fields.
      * exists []. rewrite J5, app_nil_r.
        split; [reflexivity|left; reflexivity].
      * exists [RenderEffects]. rewrite J5.
        split; [reflexivity|right; reflexivity].
  - exists []. rewrite J3, J2, app_nil_r.
    split; [reflexivity|left; reflexivity].
Qed.

Lemma commits_app (js js' : list Job) :
  commitJobs (app js js') = app (commitJobs js) (commitJobs js').
Proof. apply filter_app. Qed.

(** [handleRelease] with the brush down, by its three steps. *)
Lemma handleRelease_strokeEnd (x y : Q) (w : World) :
  down (this_brush w) = true ->
  handleRelease x y w =
  (do wq <- paint None (strokeEnd w); Returned (strokeCommit wq)).
Proof.
  intros D. unfold handleRelease. rewrite D.
  fold (strokeEnd w).
  destruct (paint None (strokeEnd w)); reflexivity.
Qed.

(** The full resolution pass of [handleRelease]. *)
Lemma strokeEnd_paint (w : World) :
  (toolIs (_toolType (sprite w)) FILL = true ->
   _toolOptions (sprite w) <> None) ->
  exists (wq : World) (fx : list Job),
    paint None (strokeEnd w) = Returned wq /\
    jobs wq =
      app (jobs w)
        (app match _pendingPaintState (sprite w) with
             | None => [StoreOrgSource (ctx_ops SourceCtx (log w))]
             | Some _ => []
             end fx) /\
    (fx = [] \/ fx = [RenderEffects]) /\
    (exists t, _pendingPaintState (sprite wq) = Some t) /\
    (_pendingPaintState (sprite w) = None ->
     _pendingPaintState (sprite wq) = Some (nextTimer w) /\
     timers wq = app (timers w) [(nextTimer w, 5000%Z)]) /\
    (forall t, _pendingPaintState (sprite w) = Some t ->
     _pendingPaintState (sprite wq) = Some t /\ timers wq = timers w) /\
    modes (sprite wq) = modes (sprite w) /\
    down (this_brush wq) = false /\
    store wq = store w /\
    history wq = history w.
Proof.
  intros Hf.
  set (wp := strokeEnd w).
  assert (Dp : down (this_brush wp) = false) by reflexivity.
  assert (Op : optionsPresent wp).
  { split; [exact Hf|]. intros _ D. rewrite Dp in D. discriminate. }
  pose proof (paint_returns None Op) as R.
  pose proof (paint_frame None wp) as F.
  destruct (paint_jobs None wp) as (fx & J & Hfx).
  destruct (paint None wp) as [wq|wq] eqn:Ep; [|discriminate].
  cbn [world_of] in *.
  pose proof (frame_modes F) as (_ & _ & _ & _ & _ & Dq & _).
  rewrite prepared_down in Dq. rewrite Dp in Dq.
  destruct F as (_ & Hi & _ & St & _ & _ & TS & M & _).
  apply timerState_fields in TS. destruct TS as (TS1 & _ & TS3).
  exists wq, fx.
  split; [reflexivity|].
  assert (Pw : _pendingPaintState (sprite wp) =
               _pendingPaintState (sprite w)) by reflexivity.
  unfold prepared in *. cbn [sprite with_paintCalls] in *.
  rewrite Pw in *.
  destruct (_pendingPaintState (sprite w)) as [t|] eqn:P.
  - split; [rewrite J; reflexivity|]. split; [exact Hfx|].
    split; [exists t; rewrite TS3; exact P|].
    split; [intros N; discriminate N|].
    split; [intros t' E; injection E as <-;
            split; [rewrite TS3; exact P|exact TS1]|].
    split; [exact M|]. split; [exact Dq|]. split; [exact St|exact Hi].
  - split; [rewrite J; fields; rewrite ctx_ops_app, <- app_assoc;
            cbn [ctx_ops]; rewrite app_nil_r; reflexivity|].
    split; [exact Hfx|].
    split; [eexists; exact TS3|].
    split; [intros _; split; [exact TS3|exact TS1]|].
    split; [intros t' E; discriminate E|].
    split; [exact M|]. split; [exact Dq|]. split; [exact St|exact Hi].
Qed.

(** X15.  With the brush up, whatever timer the sprite has set
    ([timerInv]), [storePaintState] leaves no snapshot pending and no timer
    set, requests a commit only if a snapshot was pending, and does nothing
    when it is called again. *)
Theorem storePaintState_flushes_once (w : World) :
  timerInv w ->
  down (this_brush w) = false ->
  let w' := storePaintState w in
  _pendingPaintState (sprite w') = None /\
  timers w' = [] /\
  history w' = history w /\
  List.length (commitJobs (jobs w')) =
    (List.length (commitJobs (jobs w))
     + match _pendingPaintState (sprite w) with
       | Some _ => 1
       | None => 0
       end)%nat /\
  storePaintState w' = w'.
Proof.
  intros I D. cbv zeta.
  assert (Idem : _pendingPaintState (sprite (storePaintState w)) = None ->
                 storePaintState (storePaintState w) = storePaintState w).
  { intros N. unfold storePaintState at 1. rewrite N. reflexivity. }
  unfold timerInv in I.
  destruct (_pendingPaintState (sprite w)) as [t|] eqn:P.
  - destruct I as [d I].
    destruct (storePaintState_commits w P D)
      as (P' & T' & Hi & J & _).
    conjuncts; try assumption.
    + rewrite T', I. simpl. rewrite Pos.eqb_refl. reflexivity.
    + rewrite J, commits_app, length_app. reflexivity.
    + apply Idem. exact P'.
  - assert (E : storePaintState w = w)
      by (unfold storePaintState; rewrite P; reflexivity).
    rewrite E. conjuncts; try assumption; try reflexivity.
    symmetry. apply Nat.add_0_r.
Qed.

(** X16.  When the pointer is released before any frame has painted, the
    snapshot of the source is requested by the releasing [paint] itself and
    has not arrived when [storePaintState] runs: outside low memory mode
    the commit that [handleRelease] requests carries the snapshot that the
    sprite held before the stroke, and the new snapshot is left waiting in
    front of it. *)
Theorem release_commits_earlier_snapshot (x y : Q) (w : World) :
  down (this_brush w) = true ->
  _pendingPaintState (sprite w) = None ->
  lowMemory (preferences (store w)) = false ->
  (toolIs (_toolType (sprite w)) FILL = true ->
   _toolOptions (sprite w) <> None) ->
  let w' := world_of (handleRelease x y w) in
  returned (handleRelease x y w) = true /\
  _pendingPaintState (sprite w') = None /\
  _orgSourceToStore (sprite w') = None /\
  exists (fx : list Job) (after : Resource),
    (fx = [] \/ fx = [RenderEffects]) /\
    jobs w' =
      app (jobs w)
        (StoreOrgSource (ctx_ops SourceCtx (log w)) ::
         app fx
           [CommitPaintState (id (layer (sprite w)))
              (_orgSourceToStore (sprite w)) after]).
Proof.
  intros D P Lm Hf. cbv zeta.
  rewrite (handleRelease_strokeEnd x y w D).
  destruct (strokeEnd_paint w Hf)
    as (wq & fx & Ep & J & Hfx & _ & Pn & _ & M & Dq & St & _).
  rewrite Ep. cbn [world_of returned].
  destruct (Pn P) as (Pq & _). clear Pn.
  rewrite P in J.
  unfold strokeCommit. cbv zeta.
  set (wc := upd _ wq).
  assert (Lc : lowMemory (preferences (store wc)) = false)
    by (change (store wc) with (store wq); rewrite St; exact Lm).
  rewrite Lc. cbn [negb].
  assert (Pc : _pendingPaintState (sprite wc) = Some (nextTimer w))
    by exact Pq.
  assert (Dc : down (this_brush wc) = false) by exact Dq.
  destruct (releaseMode_frame (storePaintState wc))
    as (_ & _ & TSr & Jr & _).
  apply timerState_fields in TSr. destruct TSr as (_ & _ & T3r).
  destruct (storePaintState_commits wc Pc Dc) as (P4 & _ & _ & J4 & _).
  assert (Or : forall v, _orgSourceToStore (sprite (releaseMode v)) =
                         _orgSourceToStore (sprite v)).
  { intros v. unfold releaseMode.
    destruct (_isPaintMode (sprite v)); [reflexivity|].
    destruct (_isDragMode (sprite v)); [|reflexivity].
    destruct (getters_snapAlign (store v)); reflexivity. }
  assert (O4 : _orgSourceToStore (sprite (storePaintState wc)) = None).
  { unfold storePaintState. rewrite Pc. fields. rewrite Dq. reflexivity. }
  split; [reflexivity|]. split; [rewrite T3r; exact P4|].
  split; [rewrite Or; exact O4|].
  exists fx. eexists. split; [exact Hfx|].
  rewrite Jr, J4.
  change (jobs wc) with (jobs wq). rewrite J.
  change (layer (sprite wc)) with (layer (sprite wq)).
  change (_orgSourceToStore (sprite wc)) with (_orgSourceToStore (sprite wq)).
  unfold modes in M. injection M as.
  repeat match goal with E : _ = _ |- _ => rewrite E; clear E end.
  cbn [app]. rewrite <- !app_assoc. reflexivity.
Qed.

(** X17.  In low memory mode [handleRelease] commits nothing itself: the
    snapshot timer stays the only timer, no commit is requested and the
    history is as it was.  When that timer fires, the brush being up, its
    callback requests the one commit of the stroke and leaves neither a
    timer nor a pending snapshot.  The stroke ends in paint mode, where
    the release calls no guide snapping. *)
Theorem lowMemory_commit_waits_for_timer (x y : Q) (w : World) :
  timerInv w ->
  down (this_brush w) = true ->
  _isPaintMode (sprite w) = true ->
  lowMemory (preferences (store w)) = true ->
  (toolIs (_toolType (sprite w)) FILL = true ->
   _toolOptions (sprite w) <> None) ->
  let w' := world_of (handleRelease x y w) in
  exists (t : TimerId) (d : Z),
    _pendingPaintState (sprite w') = Some t /\
    timers w' = [(t, d)] /\
    commitJobs (jobs w') = commitJobs (jobs w) /\
    history w' = history w /\
    let w'' := fireTimer t w' in
    _pendingPaintState (sprite w'') = None /\
    timers w'' = [] /\
    history w'' = history w /\
    exists (org : option Resource) (after : Resource),
      jobs w'' =
        app (jobs w') [CommitPaintState (id (layer (sprite w))) org after].
Proof.
  intros I D _ Lm Hf. cbv zeta.
  pose proof (timerInv_step (HandleRelease x y) w I) as I'.
  cbn [step] in I'.
  rewrite (handleRelease_strokeEnd x y w D) in *.
  destruct (strokeEnd_paint w Hf)
    as (wq & fx & Ep & J & Hfx & (t & Pq) & _ & _ & M & Dq & St & Hi).
  rewrite Ep in *. cbn [world_of] in *.
  unfold strokeCommit in *. cbv zeta in *.
  set (wc := upd _ wq) in *.
  assert (Lc : lowMemory (preferences (store wc)) = true)
    by (change (store wc) with (store wq); rewrite St; exact Lm).
  rewrite Lc in *. cbn [negb] in *.
  destruct (releaseMode_frame wc) as (Br & _ & TSr & Jr & Hr & _).
  apply timerState_fields in TSr. destruct TSr as (T1r & _ & T3r).
  assert (Pr : _pendingPaintState (sprite (releaseMode wc)) = Some t)
    by (rewrite T3r; exact Pq).
  unfold timerInv in I'. rewrite Pr in I'. destruct I' as [d Tm].
  assert (Cj : commitJobs (jobs (releaseMode wc)) = commitJobs (jobs w)).
  { rewrite Jr. change (jobs wc) with (jobs wq). rewrite J.
    rewrite !commits_app.
    assert (E1 : commitJobs match _pendingPaintState (sprite w) with
                         | Some _ => []
                         | None =>
                             [StoreOrgSource (ctx_ops SourceCtx (log w))]
                         end = [])
      by (destruct (_pendingPaintState (sprite w)); reflexivity).
    assert (E2 : commitJobs fx = [])
      by (destruct Hfx as [-> | ->]; reflexivity).
    rewrite E1, E2, !app_nil_r. reflexivity. }
  assert (Hw : history (releaseMode wc) = history w)
    by (rewrite Hr; exact Hi).
  exists t, d.
  split; [exact Pr|]. split; [exact Tm|]. split; [exact Cj|].
  split; [exact Hw|].
  unfold fireTimer. rewrite Tm. simpl existsb. rewrite Pos.eqb_refl.
  simpl orb. cbv iota. simpl filter. rewrite Pos.eqb_refl. simpl.
  match goal with |- context [storePaintState ?x] => set (v := x) end.
  assert (Pv : _pendingPaintState (sprite v) = Some t) by exact Pr.
  assert (Dv : down (this_brush v) = false).
  { change (this_brush v) with (_brush (sprite (releaseMode wc))).
    rewrite Br. exact Dq. }
  destruct (storePaintState_commits v Pv Dv) as (P4 & T4 & H4 & J4 & _).
  split; [exact P4|]. split; [exact T4|].
  split; [rewrite H4; exact Hw|].
  do 2 eexists. rewrite J4.
  assert (Y : layer (sprite v) = layer (sprite w)).
  { assert (Yr : layer (sprite (releaseMode wc)) = layer (sprite wq)).
    { unfold releaseMode.
      destruct (_isPaintMode (sprite wc)); [reflexivity|].
      destruct (_isDragMode (sprite wc)); [|reflexivity].
      destruct (getters_snapAlign (store wc)); reflexivity. }
    change (layer (sprite v)) with (layer (sprite (releaseMode wc))).
    rewrite Yr. apply modes_fields in M. apply M. }
  rewrite Y. reflexivity.
Qed.

(** *** The two canvases of a layer *)

Lemma untouched_refl (c : Ctx) (w : World) : untouched c w w.
Proof. exists []. split; [symmetry; apply app_nil_r|reflexivity]. Qed.

Lemma untouched_trans (c : Ctx) (w1 w2 w3 : World) :
  untouched c w1 w2 -> untouched c w2 w3 -> untouched c w1 w3.
Proof.
  intros (e1 & L1 & S1) (e2 & L2 & S2). exists (app e1 e2). split.
  - rewrite L2, L1, app_assoc. reflexivity.
  - rewrite ctx_ops_app, S1, S2. reflexivity.
Qed.

Lemma untouched_call (c c0 : Ctx) (op : CtxOp) (w : World) :
  ctx_eqb c c0 = false -> untouched c w (call c0 op w).
Proof.
  intros E. exists [CtxCall c0 op]. split; [reflexivity|].
  simpl. rewrite E. reflexivity.
Qed.

Lemma untouched_ops (c : Ctx) (w w' : World) :
  untouched c w w' -> ctx_ops c (log w') = ctx_ops c (log w).
Proof.
  intros (evs & L & E). rewrite L, ctx_ops_app, E. apply app_nil_r.
Qed.

(** Closes an [untouched] goal between worlds given by field updates. *)
Ltac untouched_by_computation :=
  unfold untouched; fields;
  eexists; split;
  [ rewrite <- ?app_assoc; try reflexivity; symmetry; apply app_nil_r
  | cbn [ctx_ops app];
    repeat match goal with
           | E : ctx_eqb _ _ = false |- _ => rewrite E
           end;
    reflexivity ].

Lemma untouched_prepared (c : Ctx) (w : World) :
  untouched c w (prepared (with_paintCalls (S (paintCalls w)) w)).
Proof.
  unfold prepared. simpl.
  destruct (_pendingPaintState (sprite w)); untouched_by_computation.
Qed.

Lemma untouched_resetFilterAndRecache (c : Ctx) (w : World) :
  untouched c w (resetFilterAndRecache w).
Proof.
  unfold resetFilterAndRecache, cacheEffects. fields.
  destruct (_rafFx (sprite w)); untouched_by_computation.
Qed.

Lemma untouched_paintSelection (c c0 : Ctx) (lowres : bool)
  (sel : option (list Point)) (width height : Q) (w : World) :
  ctx_eqb c c0 = false ->
  untouched c w (snd (paintSelection c0 lowres sel width height w)).
Proof.
  intros E. unfold paintSelection. destruct sel as [pts|].
  - destruct (isRotated (sprite w) && negb lowres); simpl;
      untouched_by_computation.
  - apply untouched_refl.
Qed.

(** The dispatch of [paint] calls the context it is given, the scratch
    context and, in a low resolution pass, the preview context; it leaves
    with the first or the last of them. *)
Lemma untouched_paintTool (a : option Action) (c c0 : Ctx)
  (lowres eraser clone fill : bool) (sel : option (list Point))
  (width height : Q) (w : World) :
  ctx_eqb c c0 = false ->
  ctx_eqb c ScratchCtx = false ->
  (lowres = true -> ctx_eqb c TempCtx = false) ->
  let r := paintTool a c0 lowres eraser clone fill sel width height w in
  ctx_eqb c (fst r) = false /\ untouched c w (world_of (snd r)).
Proof.
  intros E Es Et. unfold paintTool.
  destruct a as [a|].
  { simpl. split; [exact E|]. unfold paintAction.
    destruct (String.eqb (atype a) "stroke");
      [untouched_by_computation|apply untouched_refl]. }
  destruct fill.
  { simpl. split; [exact E|]. unfold paintFill.
    destruct (_toolOptions (sprite w)); [|apply untouched_refl].
    destruct (smartFill (heap w r)); destruct (_selection (sprite w));
      untouched_by_computation. }
  destruct clone.
  { simpl. split; [exact E|]. unfold paintClone.
    destruct lowres; [|apply untouched_refl].
    destruct (_toolOptions (sprite w)); [|apply untouched_refl].
    untouched_by_computation. }
  unfold paintBrush.
  destruct lowres; simpl.
  - specialize (Et eq_refl). split; [exact Et|].
    destruct (tempCanvas (sprite w)); destruct sel;
      untouched_by_computation.
  - clear Et. split; [exact E|]. destruct eraser; untouched_by_computation.
Qed.

Lemma isMaskable_prepared (w : World) :
  isMaskable (prepared (with_paintCalls (S (paintCalls w)) w)) = isMaskable w.
Proof.
  unfold prepared. cbn.
  destruct (_pendingPaintState (sprite w)); reflexivity.
Qed.

Lemma paint_untouched (a : option Action) (c : Ctx) (w : World) :
  ctx_eqb c (layerCtx w) = false ->
  ctx_eqb c ScratchCtx = false ->
  (down (this_brush w)
   && negb (isMaskable w && toolIs (_toolType (sprite w)) ERASER) = true ->
   ctx_eqb c TempCtx = false) ->
  untouched c w (world_of (paint a w)).
Proof.
  intros E Es Et.
  destruct (paint_phases a w)
    as (c0 & c' & cvs & lowres & sel & sel' & w2 & o & C0 & L & E2 & E3 & Ep).
  rewrite isMaskable_prepared, prepared_down in L.
  destruct (prepared_counted w) as (_ & _ & _ & _ & M1 & _).
  apply modes_fields in M1. destruct M1 as (Tt1 & _).
  set (w1 := prepared (with_paintCalls (S (paintCalls w)) w)) in *.
  rewrite Tt1 in L. rewrite <- L in Et.
  unfold w1 in C0. rewrite layerCtx_prepared in C0. fold w1 in C0.
  rewrite <- C0 in E.
  eapply untouched_trans; [apply untouched_prepared|]. fold w1.
  eapply untouched_trans; [eapply untouched_call; exact E|].
  pose proof (@untouched_paintSelection c c0 lowres sel (cwidth cvs)
                (cheight cvs) (call c0 Save w1) E) as U2.
  rewrite E2 in U2. simpl in U2.
  eapply untouched_trans; [exact U2|].
  destruct (@untouched_paintTool a c c0 lowres
              (toolIs (_toolType (sprite w1)) ERASER)
              (toolIs (_toolType (sprite w1)) CLONE)
              (toolIs (_toolType (sprite w1)) FILL)
              sel' (cwidth cvs) (cheight cvs) w2 E Es Et) as (E' & U3).
  rewrite E3 in E', U3. simpl in E', U3.
  rewrite Ep. clear Ep.
  destruct o as [w3|w3]; cbn [world_of] in *; [|exact U3].
  eapply untouched_trans; [exact U3|].
  assert (U4 : untouched c w3
                 (call c' Restore
                    match sel' with
                    | Some _ => call c' Restore w3
                    | None => w3
                    end)).
  { destruct sel'; [eapply untouched_trans|]; apply untouched_call; exact E'. }
  destruct lowres; [exact U4|].
  eapply untouched_trans; [exact U4|apply untouched_resetFilterAndRecache].
Qed.

Lemma untouched_added (c : Ctx) (w w' : World) :
  untouched c w w' -> added c w w' = [].
Proof.
  intros U. unfold added. rewrite (untouched_ops U). apply skipn_all.
Qed.

(** X18.  [paint] draws on one canvas of the layer only: a pass on the layer
    mask sends no call to the context of the source, and a pass on the
    source none to the context of the mask.  The snapshots that
    [preparePendingPaintState] and [storePaintState] take are snapshots of
    the source, so before and after a stroke on the mask they hold the same
    drawing calls. *)
Theorem paint_leaves_other_canvas (a : option Action) (w : World) :
  let w' := world_of (paint a w) in
  let other := if isMaskable w then SourceCtx else MaskCtx in
  ctx_ops other (log w') = ctx_ops other (log w) /\
  added other w w' = [] /\
  jobs (canvasToBlob StoreOrgSource w') =
    app (jobs w')
      [StoreOrgSource (if isMaskable w
                       then ctx_ops SourceCtx (log w)
                       else ctx_ops SourceCtx (log w'))].
Proof.
  cbv zeta.
  assert (U : untouched (if isMaskable w then SourceCtx else MaskCtx) w
                (world_of (paint a w))).
  { apply paint_untouched; unfold layerCtx;
      destruct (isMaskable w); intros; reflexivity. }
  pose proof (untouched_ops U) as E.
  split; [exact E|]. split.
  - apply untouched_added. exact U.
  - unfold canvasToBlob. fields.
    destruct (isMaskable w); [rewrite E|]; reflexivity.
Qed.

(** *** Moving the mask *)

Lemma positionMask_fields (x y : Q) (w : World) :
  let w' := positionMask x y w in
  layer (sprite w') = layer_with_mask_offset (layer (sprite w)) x y /\
  history w' = history w /\
  paintCalls w' = paintCalls w /\
  _brush (sprite w') = _brush (sprite w) /\
  forall c, ctx_ops c (log w') = ctx_ops c (log w).
Proof.
  cbv zeta. unfold positionMask, resetFilterAndRecache, cacheEffects.
  fields. destruct (registered w); fields;
    [destruct (_rafFx (sprite w)); fields|];
    repeat split; try reflexivity; intros c;
    rewrite ?ctx_ops_app; cbn [ctx_ops]; rewrite ?app_nil_r; reflexivity.
Qed.

(** X19.  Outside paint mode, with the mask as action target, a pointer move
    puts the mask at the drag offset plus the distance covered since the
    drag began, draws nothing, and records one history entry holding the
    old and the new offset.  Undoing that entry restores the layer as it
    was, and redoing it restores the layer as the move left it; neither
    adds to the history. *)
Theorem mask_move_undo_redo (x y : Q) (type : string) (off ev : Point)
  (w : World) :
  _isPaintMode (sprite w) = false ->
  actionTarget (sprite w) = TargetMask ->
  _dragStartOffset (sprite w) = Some off ->
  _dragStartEventCoordinates (sprite w) = Some ev ->
  let l := layer (sprite w) in
  let newMaskX := px off + ((x - rleft (_bounds (sprite w))) - px ev) in
  let newMaskY := py off + ((y - rtop (_bounds (sprite w))) - py ev) in
  let e := MaskPos (id l) (maskX l) (maskY l) newMaskX newMaskY in
  exists w',
    handleMove x y type w = Returned w' /\
    layer (sprite w') = layer_with_mask_offset l newMaskX newMaskY /\
    history w' = app (history w) [e] /\
    paintCalls w' = paintCalls w /\
    (forall c, ctx_ops c (log w') = ctx_ops c (log w)) /\
    exists wu wr,
      undoMaskPos e w' = Some wu /\
      layer (sprite wu) = l /\
      history wu = history w' /\
      redoMaskPos e wu = Some wr /\
      layer (sprite wr) = layer (sprite w') /\
      history wr = history w'.
Proof.
  intros Hp Ht Ho He. cbv zeta.
  assert (Hm : exists w',
             handleMove x y type w = Returned w' /\
             layer (sprite w') =
               layer_with_mask_offset (layer (sprite w))
                 (px off + ((x - rleft (_bounds (sprite w))) - px ev))
                 (py off + ((y - rtop (_bounds (sprite w))) - py ev)) /\
             history w' =
               app (history w)
                 [MaskPos (id (layer (sprite w))) (maskX (layer (sprite w)))
                    (maskY (layer (sprite w)))
                    (px off + ((x - rleft (_bounds (sprite w))) - px ev))
                    (py off + ((y - rtop (_bounds (sprite w))) - py ev))] /\
             paintCalls w' = paintCalls w /\
             (forall c, ctx_ops c (log w') = ctx_ops c (log w))).
  { unfold handleMove, moveMask, resetFilterAndRecache, cacheEffects.
    destruct (isTouch type); fields; rewrite Hp, Ht, Ho, He; fields;
      destruct (registered w); fields;
      try (destruct (_rafFx (sprite w)); fields);
      destruct (down (_brush (sprite w))); fields;
      (eexists; split; [reflexivity|]; fields;
       repeat split; try reflexivity; intros c;
       rewrite ?ctx_ops_app; cbn [ctx_ops]; rewrite ?app_nil_r;
       reflexivity). }
  destruct Hm as (w' & E & Y & Hi & Pc & Ops).
  exists w'. split; [exact E|]. split; [exact Y|]. split; [exact Hi|].
  split; [exact Pc|]. split; [exact Ops|].
  cbn [undoMaskPos redoMaskPos].
  destruct (positionMask_fields (maskX (layer (sprite w)))
              (maskY (layer (sprite w))) w') as (Yu & Hu & _).
  cbv zeta in Yu, Hu.
  set (wu := positionMask (maskX (layer (sprite w)))
               (maskY (layer (sprite w))) w') in *.
  destruct (positionMask_fields
              (px off + ((x - rleft (_bounds (sprite w))) - px ev))
              (py off + ((y - rtop (_bounds (sprite w))) - py ev)) wu)
    as (Yr & Hr & _).
  cbv zeta in Yr, Hr.
  do 2 eexists.
  split; [reflexivity|]. split.
  { rewrite Yu, Y. destruct (layer (sprite w)). reflexivity. }
  split; [exact Hu|]. split; [reflexivity|]. split.
  { rewrite Yr, Yu, Y. reflexivity. }
  rewrite Hr. exact Hu.
Qed.

(** *** Erasing on the mask *)

(** X20.  Erasing on the layer mask has no low resolution preview: every
    frame with the eraser down paints at full resolution.  The drawing
    calls of the frame are: the context of the mask is saved and clipped
    to the selection; the whole recorded path (not only the samples added
    since the last frame), rotated into the layer, is rendered on a
    scratch canvas; the scratch canvas is drawn onto the mask with the
    opacity of the brush and the composite operation [destination-out];
    the context of the mask is restored.  Neither the preview canvas nor
    the source is touched, and the recorded path is left rotated into the
    layer, all of it marked as processed. *)
Theorem mask_eraser_frame_is_full_resolution (w : World) :
  down (this_brush w) = true ->
  isMaskable w = true ->
  _toolType (sprite w) = Some ERASER ->
  let b    := this_brush w in
  let cvs  := layerCanvas w in
  let e    := effects (layer (sprite w)) in
  let path := rotatePointerLists (pointers b) (layer (sprite w))
                (cwidth cvs) (cheight cvs) in
  exists (w' : World),
    update w = Returned w' /\
    mask (layer (sprite w)) = Some cvs /\
    paintCalls w' = S (paintCalls w) /\
    drawn w w' =
      app ((MaskCtx, Save) :: clipCalls MaskCtx false cvs (sprite w))
        (app [(ScratchCtx, Scale (if mirrorX e then -1 else 1)
                                 (if mirrorY e then -1 else 1));
              (ScratchCtx,
               RenderBrushStroke (brush_with b path true (last b)) None);
              (MaskCtx, SetGlobalAlpha (brush_opacity w));
              (MaskCtx, SetGlobalCompositeOperation "destination-out");
              (MaskCtx, DrawImage ScratchCtx 0 0)]
             (restoreCalls MaskCtx (sprite w))) /\
    pointers (this_brush w') = path /\
    last (this_brush w') = List.length (pointers b) /\
    down (this_brush w') = true /\
    tempCanvas (sprite w') = tempCanvas (sprite w) /\
    added TempCtx w w' = [] /\
    added SourceCtx w w' = [].
Proof.
  intros Hd Hm Ht. cbv zeta.
  assert (Hb : brushFamily w = true)
    by (unfold brushFamily; rewrite Ht; reflexivity).
  assert (Hl : lowResPass w = false)
    by (unfold lowResPass; rewrite Hd, Hm, Ht; reflexivity).
  pose proof (paint_counts None w) as Cn.
  assert (Us : untouched SourceCtx w (world_of (paint None w))).
  { apply paint_untouched; unfold layerCtx; rewrite ?Hm;
      intros; reflexivity. }
  assert (Ut : untouched TempCtx w (world_of (paint None w))).
  { apply paint_untouched; unfold layerCtx; rewrite ?Hm, ?Hd, ?Ht;
      try reflexivity. intros N. discriminate N. }
  apply untouched_added in Us, Ut.
  destruct (paint_stroke w Hb Hl) as (wq & Ep & D & B & Tc).
  cbv zeta in B.
  rewrite Ep in Cn, Us, Ut. cbn [world_of] in Cn, Us, Ut.
  apply draws_drawn in D.
  assert (Mk : mask (layer (sprite w)) = Some (layerCanvas w)).
  { unfold layerCanvas. rewrite Hm. unfold isMaskable in Hm.
    destruct (mask (layer (sprite w))); [reflexivity|discriminate Hm]. }
  assert (Sc : strokeCalls w =
               app ((MaskCtx, Save)
                    :: clipCalls MaskCtx false (layerCanvas w) (sprite w))
                 (app [(ScratchCtx,
                        Scale (if mirrorX (effects (layer (sprite w)))
                               then -1 else 1)
                              (if mirrorY (effects (layer (sprite w)))
                               then -1 else 1));
                       (ScratchCtx,
                        RenderBrushStroke
                          (brush_with (this_brush w)
                             (rotatePointerLists (pointers (this_brush w))
                                (layer (sprite w))
                                (cwidth (layerCanvas w))
                                (cheight (layerCanvas w)))
                             true (last (this_brush w))) None);
                       (MaskCtx, SetGlobalAlpha (brush_opacity w));
                       (MaskCtx,
                        SetGlobalCompositeOperation "destination-out");
                       (MaskCtx, DrawImage ScratchCtx 0 0)]
                      (restoreCalls MaskCtx (sprite w)))).
  { unfold strokeCalls, layerCtx. rewrite Hm, Ht.
    unfold this_brush in *. rewrite Hd. reflexivity. }
  unfold update. rewrite Hd, Ep.
  eexists. split; [reflexivity|].
  unfold this_brush in *. unfold added, drawn in *.
  cbn [upd with_sprite sprite set_brush _brush brush_with pointers last down
       tempCanvas paintCalls log].
  rewrite B. cbn [pointers last down brush_with].
  rewrite rotatePointerLists_length.
  split; [exact Mk|]. split; [exact Cn|].
  split; [rewrite D; exact Sc|].
  split; [reflexivity|]. split; [reflexivity|]. split; [exact Hd|].
  split; [exact Tc|]. split; [exact Ut|exact Us].
Qed.

(** *** The fill tool *)




(** *** Drag mode *)

(** X22.  In drag mode, with the brush up, a press marks the sprite as the
    one being dragged, calls no collaborator and leaves the layer, the
    position of the sprite and the history as they are; a release clears
    the mark and calls the guide snapping exactly when the store says so.
    When it does not, press and release paint nothing and leave the layer,
    the position of the sprite, the brush, the waiting continuations and
    the history as they were. *)
Theorem drag_press_release (x y x' y' : Q) (type : string) (w : World) :
  _isColorPicker (sprite w) = false ->
  _isPaintMode (sprite w) = false ->
  _isDragMode (sprite w) = true ->
  down (this_brush w) = false ->
  exists w1 w2,
    handlePress x y type w = Returned w1 /\
    draggingSprite (canvas w1) = Some (id (layer (sprite w))) /\
    layer (sprite w1) = layer (sprite w) /\
    _bounds (sprite w1) = _bounds (sprite w) /\
    history w1 = history w /\
    log w1 = log w /\
    handleRelease x' y' w1 = Returned w2 /\
    draggingSprite (canvas w2) = None /\
    log w2 = app (log w)
               (if getters_snapAlign (store w) then [SnapSpriteToGuide]
                else []) /\
    (getters_snapAlign (store w) = false ->
     layer (sprite w2) = layer (sprite w) /\
     _bounds (sprite w2) = _bounds (sprite w) /\
     _brush (sprite w2) = _brush (sprite w) /\
     paintCalls w2 = paintCalls w /\
     history w2 = history w /\
     jobs w2 = jobs w).
Proof.
  intros Hc Hp Hg Hd.
  set (w0 := if isTouch type
             then upd (set_pointerY y) (upd (set_pointerX x) w)
             else w).
  set (w1 := with_canvas
               (with_draggingSprite (Some (id (layer (sprite w))))
                  (canvas w0)) w0).
  assert (E1 : handlePress x y type w = Returned w1).
  { unfold handlePress. fold w0. subst w1.
    assert (A : arming (sprite w0) = arming (sprite w) /\
                layer (sprite w0) = layer (sprite w))
      by (subst w0; destruct (isTouch type); split; reflexivity).
    destruct A as (A & Y). unfold arming in A.
    injection A as _ _ A3 A4 A5 _ _.
    rewrite A5, Hc, A3, Hp, A4, Hg, Y. reflexivity. }
  assert (K : _isPaintMode (sprite w1) = false /\
              _isDragMode (sprite w1) = true /\
              down (this_brush w1) = false /\
              getters_snapAlign (store w1) = getters_snapAlign (store w) /\
              layer (sprite w1) = layer (sprite w) /\
              _bounds (sprite w1) = _bounds (sprite w) /\
              _brush (sprite w1) = _brush (sprite w) /\
              paintCalls w1 = paintCalls w /\ history w1 = history w /\
              jobs w1 = jobs w /\ log w1 = log w /\
              draggingSprite (canvas w1) = Some (id (layer (sprite w))))
    by (subst w1 w0; destruct (isTouch type); conjuncts;
        solve [reflexivity | assumption]).
  destruct K as (Kp & Kg & Kd & Ks & Ky & Kx & Kb & Kn & Kh & Kj & Kl & Kc).
  clearbody w1. clear w0.
  exists w1.
  unfold handleRelease, releaseMode. rewrite Kd. cbn [world_of].
  rewrite Kp, Kg, Ks.
  destruct (getters_snapAlign (store w)); fields;
    eexists;
    (split; [exact E1|]); (split; [exact Kc|]);
    (split; [exact Ky|]); (split; [exact Kx|]);
    (split; [exact Kh|]); (split; [exact Kl|]);
    (split; [reflexivity|]); fields; conjuncts;
    try reflexivity; try assumption; try (intros; discriminate).
  - rewrite Kl. reflexivity.
  - rewrite Kl. symmetry. apply app_nil_r.
  - intros _. conjuncts; assumption.
Qed.

End MoreFacts.
End LayerSpriteMoreFacts.

(* ================================================================== *)
(** * Further runs of the concrete sprite *)

Module ScenarioMoreFacts.
Import LayerSprite LayerSpriteMore Scenario ScenarioMore.
Import LayerSpriteFacts LayerSpriteMoreFacts.
Local Open Scope Q_scope.
Local Open Scope string_scope.

(** X11 on the first frame of a stroke, which is a preview pass: not every
    state stack is left balanced. *)
Lemma paint_balanced_iff_witness :
  (forall c, balanced (added c pressed (world_of (paint None pressed))) = true)
  <-> previewPass None pressed = false.
Proof.
  assert (R : returned (paint None pressed) = true)
    by (vm_compute; reflexivity).
  exact (@paint_balanced_iff helpers None pressed R).
Defined.

(** X15 on the sprite after a fill: the pending commit is flushed once. *)
Lemma storePaintState_flushes_once_witness :
  let w' := storePaintState afterFill in
  _pendingPaintState (sprite w') = None /\
  timers w' = [] /\
  storePaintState w' = w'.
Proof.
  assert (I : timerInv afterFill)
    by (vm_compute; exists 5000%Z; reflexivity).
  assert (D : down (this_brush afterFill) = false)
    by (vm_compute; reflexivity).
  destruct (@storePaintState_flushes_once afterFill I D)
    as (P & T & _ & _ & E).
  cbv zeta. conjuncts; assumption.
Defined.

(** X16 on a click: press and release without a frame in between.  The
    commit carries no earlier snapshot at all. *)
Lemma release_commits_earlier_snapshot_witness :
  let w' := world_of (handleRelease 10 10 pressed) in
  _pendingPaintState (sprite w') = None /\
  exists (fx : list Job) (after : Resource),
    jobs w' =
      app (jobs pressed)
        (StoreOrgSource (ctx_ops SourceCtx (log pressed)) ::
         app fx
           [CommitPaintState (id (layer (sprite pressed)))
              (_orgSourceToStore (sprite pressed)) after]).
Proof.
  assert (D : down (this_brush pressed) = true)
    by (vm_compute; reflexivity).
  assert (P : _pendingPaintState (sprite pressed) = None)
    by (vm_compute; reflexivity).
  assert (L : lowMemory (preferences (store pressed)) = false)
    by (vm_compute; reflexivity).
  assert (F : toolIs (_toolType (sprite pressed)) FILL = true ->
              _toolOptions (sprite pressed) <> None)
    by (vm_compute; intros E; discriminate E).
  destruct (@release_commits_earlier_snapshot helpers 10 10 pressed D P L F)
    as (_ & Pn & _ & fx & after & _ & J).
  cbv zeta. split; [exact Pn|]. exists fx, after. exact J.
Defined.

(** X17 on a stroke in low memory mode. *)
Lemma lowMemory_commit_waits_for_timer_witness :
  let w' := world_of (handleRelease 10 10 lowMemoryPressed) in
  exists (t : TimerId) (d : Z),
    timers w' = [(t, d)] /\
    history w' = history lowMemoryPressed /\
    timers (fireTimer t w') = [] /\
    exists (org : option Resource) (after : Resource),
      jobs (fireTimer t w') =
        app (jobs w')
          [CommitPaintState (id (layer (sprite lowMemoryPressed))) org after].
Proof.
  assert (I : timerInv lowMemoryPressed) by (vm_compute; reflexivity).
  assert (D : down (this_brush lowMemoryPressed) = true)
    by (vm_compute; reflexivity).
  assert (L : lowMemory (preferences (store lowMemoryPressed)) = true)
    by (vm_compute; reflexivity).
  assert (F : toolIs (_toolType (sprite lowMemoryPressed)) FILL = true ->
              _toolOptions (sprite lowMemoryPressed) <> None)
    by (vm_compute; intros E; discriminate E).
  assert (P : _isPaintMode (sprite lowMemoryPressed) = true)
    by (vm_compute; reflexivity).
  destruct (@lowMemory_commit_waits_for_timer helpers 10 10 lowMemoryPressed
              I D P L F)
    as (t & d & _ & T & _ & Hi & _ & T' & _ & org & after & J).
  cbv zeta. exists t, d. conjuncts; try assumption.
  exists org, after. exact J.
Defined.

(** X19 on the mask of the concrete layer, dragged to (30, 40). *)
Lemma mask_move_undo_redo_witness :
  exists w' wu wr e,
    handleMove 30 40 "mousemove" maskDrag = Returned w' /\
    history w' = app (history maskDrag) [e] /\
    undoMaskPos e w' = Some wu /\
    layer (sprite wu) = layer (sprite maskDrag) /\
    redoMaskPos e wu = Some wr /\
    layer (sprite wr) = layer (sprite w').
Proof.
  assert (P : _isPaintMode (sprite maskDrag) = false)
    by (vm_compute; reflexivity).
  assert (T : actionTarget (sprite maskDrag) = TargetMask)
    by (vm_compute; reflexivity).
  assert (O : _dragStartOffset (sprite maskDrag) = Some (mkPoint 0 0))
    by (vm_compute; reflexivity).
  assert (E : _dragStartEventCoordinates (sprite maskDrag)
              = Some (mkPoint 0 0))
    by (vm_compute; reflexivity).
  destruct (@mask_move_undo_redo 30 40 "mousemove" _ _ maskDrag
              P T O E)
    as (w' & Em & _ & Hi & _ & _ & wu & wr & U & Yu & _ & R & Yr & _).
  exists w', wu, wr. eexists.
  conjuncts; eassumption.
Defined.

(** X20 on the first frame of an eraser stroke on the mask. *)
Lemma mask_eraser_frame_is_full_resolution_witness :
  exists (w' : World),
    update maskErasing = Returned w' /\
    paintCalls w' = S (paintCalls maskErasing) /\
    drawn maskErasing w' =
      [(MaskCtx, Save); (ScratchCtx, Scale 1 1);
       (ScratchCtx,
        RenderBrushStroke
          {| color := "rgba(255,0,0,1)"; radius := Some 5;
             pointers := [mkPoint 10 10]; down := true; last := 0;
             options := OptionsOf 0%nat |} None);
       (MaskCtx, SetGlobalAlpha (Some 1));
       (MaskCtx, SetGlobalCompositeOperation "destination-out");
       (MaskCtx, DrawImage ScratchCtx 0 0); (MaskCtx, Restore)] /\
    last (this_brush w') = List.length (pointers (this_brush maskErasing)) /\
    tempCanvas (sprite w') = tempCanvas (sprite maskErasing) /\
    added TempCtx maskErasing w' = [] /\
    added SourceCtx maskErasing w' = [].
Proof.
  assert (D : down (this_brush maskErasing) = true)
    by (vm_compute; reflexivity).
  assert (M : isMaskable maskErasing = true)
    by (vm_compute; reflexivity).
  assert (T : _toolType (sprite maskErasing) = Some ERASER)
    by (vm_compute; reflexivity).
  destruct (@mask_eraser_frame_is_full_resolution helpers maskErasing D M T)
    as (w' & U & _ & C & Dr & _ & L & _ & Tc & At & As).
  exists w'.
  split; [exact U|]. split; [exact C|]. split.
  { rewrite Dr. vm_compute. reflexivity. }
  conjuncts; assumption.
Defined.


(** X22 on the armed drag tool of the concrete sprite, without guide
    snapping. *)
Lemma drag_press_release_witness :
  exists w1 w2,
    handlePress 10 10 "mousedown" dragArmed = Returned w1 /\
    draggingSprite (canvas w1) = Some (id (layer (sprite dragArmed))) /\
    handleRelease 20 20 w1 = Returned w2 /\
    draggingSprite (canvas w2) = None /\
    log w2 = log dragArmed /\
    layer (sprite w2) = layer (sprite dragArmed) /\
    _bounds (sprite w2) = _bounds (sprite dragArmed) /\
    history w2 = history dragArmed.
Proof.
  assert (C : _isColorPicker (sprite dragArmed) = false)
    by (vm_compute; reflexivity).
  assert (P : _isPaintMode (sprite dragArmed) = false)
    by (vm_compute; reflexivity).
  assert (G : _isDragMode (sprite dragArmed) = true)
    by (vm_compute; reflexivity).
  assert (D : down (this_brush dragArmed) = false)
    by (vm_compute; reflexivity).
  assert (S : getters_snapAlign (store dragArmed) = false)
    by (vm_compute; reflexivity).
  destruct (@drag_press_release helpers 10 10 20 20 "mousedown" dragArmed
              C P G D)
    as (w1 & w2 & E1 & Dr & _ & _ & _ & _ & E2 & Dn & L & N).
  destruct (N S) as (Y & Bd & _ & _ & Hi & _).
  rewrite S in L. rewrite app_nil_r in L.
  exists w1, w2. conjuncts; assumption.
Defined.

End ScenarioMoreFacts.

(* ================================================================== *)
(** * Properties of the document utilities *)

Module DocumentUtilFacts.
Import DocumentUtil.

Section TileFacts.
Local Open Scope Z_scope.






Lemma sliceRows_step (bound fuel : nat)
  (width height tileWidth tileHeight y : Z) (out : list Slice) :
  y < height ->
  sliceRows bound (S fuel) width height tileWidth tileHeight y out =
  match sliceRow bound width height tileWidth tileHeight y 0 out with
  | None => None
  | Some out =>
      sliceRows bound fuel width height tileWidth tileHeight
        (y + tileHeight) out
  end.
Proof.
  intros Hy. apply Z.ltb_lt in Hy. cbn [sliceRows]. rewrite Hy. reflexivity.
Qed.





Lemma sliceRow_diverges (width height tileWidth tileHeight y : Z) :
  tileWidth <= 0 ->
  forall (fuel : nat) (x : Z) (out : list Slice),
    x < width ->
    sliceRow fuel width height tileWidth tileHeight y x out = None.
Proof.
  intros Hw. induction fuel as [|fuel IH]; intros x out Hx; simpl;
    apply Z.ltb_lt in Hx; rewrite Hx; [reflexivity|].
  apply IH. apply Z.ltb_lt in Hx. lia.
Qed.

(** X24.  [sliceTiles] does not return for a bitmap that is not empty when
    the tile width is zero or negative: however many iterations it is
    given, the first row never ends. *)
Theorem sliceTiles_never_returns (fuel : nat)
  (width height tileWidth tileHeight : Z) :
  0 < width -> 0 < height -> tileWidth <= 0 ->
  sliceTiles fuel width height tileWidth tileHeight = None.
Proof.
  intros Hw Hh Ht. unfold sliceTiles.
  destruct fuel as [|fuel].
  - cbn [sliceRows]. apply Z.ltb_lt in Hh. rewrite Hh. reflexivity.
  - rewrite sliceRows_step by exact Hh.
    rewrite (@sliceRow_diverges width height tileWidth tileHeight 0 Ht
               (S fuel) 0 [] Hw).
    reflexivity.
Qed.

(** A bitmap of 10 by 10 pixels and tiles of width 0. *)
Lemma sliceTiles_never_returns_witness :
  sliceTiles 1000 10 10 0 5 = None.
Proof.
  apply (@sliceTiles_never_returns 1000 10 10 0 5); reflexivity || lia.
Defined.

Lemma placeTiles_spec {T : Type} (tileWidth tileHeight cols : Z) :
  0 < cols ->
  forall (tiles : list T) (k : nat),
    placeTiles tiles tileWidth tileHeight cols
      (Z.of_nat k mod cols) (Z.of_nat k / cols) =
    map (fun it =>
           {| tile := snd it;
              dx := (Z.of_nat (fst it) mod cols) * tileWidth;
              dy := (Z.of_nat (fst it) / cols) * tileHeight;
              dw := tileWidth; dh := tileHeight |})
        (combine (seq k (List.length tiles)) tiles).
Proof.
  intros Hc. induction tiles as [|t rest IH]; intros k; [reflexivity|].
  simpl. f_equal.
  pose proof (Z.mod_pos_bound (Z.of_nat k) cols Hc) as Hm.
  pose proof (Z.div_mod (Z.of_nat k) cols ltac:(lia)) as Hd.
  assert (Hk : Z.of_nat (S k) = Z.of_nat k + 1) by lia.
  destruct (Z.of_nat k mod cols + 1 =? cols) eqn:E.
  - apply Z.eqb_eq in E.
    assert (Hs : Z.of_nat (S k) = (Z.of_nat k / cols + 1) * cols + 0) by nia.
    assert (Hq : Z.of_nat (S k) / cols = Z.of_nat k / cols + 1).
    { symmetry. apply (Z.div_unique _ _ _ 0); [lia|].
      rewrite Hs. ring. }
    assert (Hr : Z.of_nat (S k) mod cols = 0).
    { symmetry. apply (Z.mod_unique _ _ (Z.of_nat k / cols + 1)); [lia|].
      rewrite Hs. ring. }
    rewrite <- Hq, <- Hr. apply IH.
  - apply Z.eqb_neq in E.
    assert (Hq : Z.of_nat (S k) / cols = Z.of_nat k / cols).
    { symmetry. apply (Z.div_unique _ _ _ (Z.of_nat k mod cols + 1)); lia. }
    assert (Hr : Z.of_nat (S k) mod cols = Z.of_nat k mod cols + 1).
    { symmetry. apply (Z.mod_unique _ _ (Z.of_nat k / cols)); lia. }
    rewrite <- Hq, <- Hr. apply IH.
Qed.

(** X25.  For a positive amount of columns [tilesToSingle] lays the tiles
    out row by row: the tile of index [i] is drawn at column
    [i mod amountOfColumns] of row [i / amountOfColumns].  The canvas has
    the given amount of columns and just enough rows for all tiles, and,
    tile sizes not being negative, every tile lies within it. *)
Theorem tilesToSingle_layout {T : Type} (tiles : list T)
  (tileWidth tileHeight amountOfColumns : Z) :
  0 < amountOfColumns -> 0 <= tileWidth -> 0 <= tileHeight ->
  let s := tilesToSingle tiles tileWidth tileHeight amountOfColumns in
  let n := Z.of_nat (List.length tiles) in
  drawn s =
    map (fun it =>
           {| tile := snd it;
              dx := (Z.of_nat (fst it) mod amountOfColumns) * tileWidth;
              dy := (Z.of_nat (fst it) / amountOfColumns) * tileHeight;
              dw := tileWidth; dh := tileHeight |})
        (combine (seq 0 (List.length tiles)) tiles) /\
  List.length (drawn s) = List.length tiles /\
  (exists rows,
     canvasWidth s = amountOfColumns * tileWidth /\
     canvasHeight s = rows * tileHeight /\
     n <= rows * amountOfColumns < n + amountOfColumns) /\
  forall p, In p (drawn s) ->
    0 <= dx p /\ dx p + dw p <= canvasWidth s /\
    0 <= dy p /\ dy p + dh p <= canvasHeight s.
Proof.
  intros Hc Hw Hh. cbv zeta.
  assert (E : drawn (tilesToSingle tiles tileWidth tileHeight amountOfColumns)
              = map (fun it =>
                       {| tile := snd it;
                          dx := (Z.of_nat (fst it) mod amountOfColumns)
                                * tileWidth;
                          dy := (Z.of_nat (fst it) / amountOfColumns)
                                * tileHeight;
                          dw := tileWidth; dh := tileHeight |})
                    (combine (seq 0 (List.length tiles)) tiles)).
  { unfold tilesToSingle. cbn [drawn].
    pose proof (@placeTiles_spec T tileWidth tileHeight amountOfColumns Hc
                  tiles 0%nat) as P.
    change (Z.of_nat 0) with 0 in P.
    rewrite Z.mod_0_l, Z.div_0_l in P by lia. exact P. }
  set (n := Z.of_nat (List.length tiles)).
  set (rows := - (- n / amountOfColumns)).
  assert (Hrows : n <= rows * amountOfColumns < n + amountOfColumns).
  { subst rows.
    pose proof (Z.div_mod (- n) amountOfColumns ltac:(lia)) as Hd.
    pose proof (Z.mod_pos_bound (- n) amountOfColumns Hc) as Hm.
    nia. }
  split; [exact E|]. split.
  { rewrite E, length_map, length_combine, length_seq. apply Nat.min_id. }
  split.
  { exists rows. split; [reflexivity|]. split; [reflexivity|exact Hrows]. }
  intros p Hp. rewrite E in Hp. apply in_map_iff in Hp.
  destruct Hp as ([i t] & <- & Hin).
  apply in_combine_l in Hin. apply in_seq in Hin.
  unfold tilesToSingle. cbn [dx dy dw dh canvasWidth canvasHeight fst snd].
  fold n. fold rows.
  pose proof (Z.mod_pos_bound (Z.of_nat i) amountOfColumns Hc) as Hm.
  pose proof (Z.div_mod (Z.of_nat i) amountOfColumns ltac:(lia)) as Hd.
  assert (Hq : 0 <= Z.of_nat i / amountOfColumns) by (apply Z.div_pos; lia).
  assert (Hi : Z.of_nat i < n) by (subst n; lia).
  assert (Hrow : Z.of_nat i / amountOfColumns + 1 <= rows) by nia.
  repeat split; nia.
Qed.

(** Five tiles of 10 by 10 pixels in two columns: three rows. *)
Lemma tilesToSingle_layout_witness :
  let s := tilesToSingle [1; 2; 3; 4; 5]%nat 10 10 2 in
  List.length (drawn s) = 5%nat /\
  (forall p, In p (drawn s) ->
     0 <= dx p /\ dx p + dw p <= canvasWidth s /\
     0 <= dy p /\ dy p + dh p <= canvasHeight s).
Proof.
  destruct (@tilesToSingle_layout nat [1; 2; 3; 4; 5]%nat 10 10 2)
    as (_ & L & _ & B); try reflexivity; try (intro D; discriminate D).
  cbv zeta. split; [exact L|exact B].
Defined.

End TileFacts.

Section RenderFacts.

Variables Layer Sprite : Type.
Variable getSpriteForLayer : Layer -> option Sprite.

Lemma drawLayers_spec (optLayerIndices : list nat) (layers : list Layer)
  (index : nat) :
  drawLayers getSpriteForLayer index layers optLayerIndices =
  flat_map
    (fun il =>
       if negb (Nat.eqb (List.length optLayerIndices) 0)
          && negb (existsb (Nat.eqb (fst il)) optLayerIndices)
       then []
       else drawnFor getSpriteForLayer (snd il))
    (combine (seq index (List.length layers)) layers).
Proof.
  revert index. induction layers as [|l rest IH]; intros index;
    [reflexivity|].
  cbn [drawLayers List.length seq combine flat_map fst snd].
  rewrite IH. reflexivity.
Qed.

Lemma existsb_ext_In (opt opt' : list nat) (i : nat) :
  (forall j, In j opt <-> In j opt') ->
  existsb (Nat.eqb i) opt = existsb (Nat.eqb i) opt'.
Proof.
  intros Hs.
  destruct (existsb (Nat.eqb i) opt) eqn:E; symmetry.
  - apply existsb_exists in E. destruct E as (j & Hj & Ej).
    apply existsb_exists. exists j. split; [apply Hs; exact Hj|exact Ej].
  - destruct (existsb (Nat.eqb i) opt') eqn:E'; [|reflexivity].
    apply existsb_exists in E'. destruct E' as (j & Hj & Ej).
    assert (X : existsb (Nat.eqb i) opt = true)
      by (apply existsb_exists; exists j; split;
          [apply Hs; exact Hj|exact Ej]).
    congruence.
Qed.

Lemma flat_map_nil {A B : Type} (f : A -> list B) (l : list A) :
  (forall x, In x l -> f x = []) -> flat_map f l = [].
Proof.
  induction l as [|a l IH]; intros Hf; [reflexivity|].
  cbn [flat_map]. rewrite (Hf a (or_introl eq_refl)).
  apply IH. intros x Hx. apply Hf. right. exact Hx.
Qed.

Lemma existsb_beyond (n i : nat) (js : list nat) :
  (i < n)%nat ->
  existsb (Nat.eqb i) (map (fun j => (n + j)%nat) js) = false.
Proof.
  intros Hi. induction js as [|j js IH]; [reflexivity|].
  cbn [map existsb]. rewrite IH, orb_false_r.
  apply Nat.eqb_neq. lia.
Qed.

(** X26.  [renderFullSize] draws the sprites in the order of the layers.
    Without a whitelist it draws the sprite of every layer that has one.
    With a whitelist it draws those of the listed indices only, so that the
    order of the whitelist and its repetitions make no difference, and a
    whitelist that names no index of the document leaves the canvas
    empty. *)
Theorem renderFullSize_whitelist (layers : list Layer)
  (opt opt' : list nat) (beyond : list nat) :
  opt <> [] -> opt' <> [] ->
  (forall i, In i opt <-> In i opt') ->
  renderFullSize getSpriteForLayer layers [] =
    flat_map (drawnFor getSpriteForLayer) layers /\
  renderFullSize getSpriteForLayer layers opt =
    flat_map
      (fun il => if existsb (Nat.eqb (fst il)) opt
                 then drawnFor getSpriteForLayer (snd il) else [])
      (indexed layers) /\
  renderFullSize getSpriteForLayer layers opt =
    renderFullSize getSpriteForLayer layers opt' /\
  renderFullSize getSpriteForLayer layers
    (map (fun i => (List.length layers + i)%nat) (0%nat :: beyond)) = [].
Proof.
  intros Ho Ho' Hs. unfold renderFullSize, indexed.
  rewrite !drawLayers_spec.
  assert (Hn : forall o : list nat,
             o <> [] -> negb (Nat.eqb (List.length o) 0) = true)
    by (intros [|a o] N; [contradiction|reflexivity]).
  split; [|split; [|split]].
  - cbn [List.length Nat.eqb negb andb].
    generalize 0%nat. induction layers as [|l rest IH]; intros k;
      [reflexivity|].
    cbn [List.length seq combine flat_map snd]. rewrite IH. reflexivity.
  - rewrite (Hn opt Ho). apply flat_map_ext. intros [i l].
    cbn [fst snd andb]. destruct (existsb (Nat.eqb i) opt); reflexivity.
  - rewrite (Hn opt Ho), (Hn opt' Ho'). apply flat_map_ext. intros [i l].
    cbn [fst snd andb]. rewrite (@existsb_ext_In opt opt' i Hs). reflexivity.
  - rewrite Hn by discriminate.
    apply flat_map_nil. intros [i l] Hin.
    apply in_combine_l in Hin. apply in_seq in Hin. cbn [fst snd].
    rewrite existsb_beyond by lia. reflexivity.
Qed.

End RenderFacts.

(** Layers 10, 20 and 30, each its own sprite: the whitelists [2; 0] and
    [0; 2; 2] both draw the first and the third. *)
Lemma renderFullSize_whitelist_witness :
  renderFullSize (fun n : nat => Some n) [10; 20; 30]%nat [2; 0]%nat =
  renderFullSize (fun n : nat => Some n) [10; 20; 30]%nat [0; 2; 2]%nat.
Proof.
  assert (N1 : [2; 0]%nat <> []) by discriminate.
  assert (N2 : [0; 2; 2]%nat <> []) by discriminate.
  assert (S : forall i : nat, In i [2; 0]%nat <-> In i [0; 2; 2]%nat)
    by (intros i; simpl; tauto).
  exact (proj1 (proj2 (proj2
           (@renderFullSize_whitelist nat nat (fun n => Some n)
              [10; 20; 30]%nat [2; 0]%nat [0; 2; 2]%nat [] N1 N2 S)))).
Defined.

Section AlignmentFacts.
Local Open Scope Q_scope.

Variable areEqual : Rect -> Rect -> bool.
Variable rotateRectangle : Rect -> option Q -> Rect.

Lemma addGuides_fold (document : AlignableDocument) (documentBounds : Rect)
  (excludeLayer : option Alignable) (entries : list (bool * Alignable))
  (acc : list Rect) :
  fold_left (addGuides areEqual rotateRectangle document documentBounds
               excludeLayer) entries acc =
  app acc
    (flat_map (addGuides areEqual rotateRectangle document documentBounds
                 excludeLayer [])
       entries).
Proof.
  revert acc. induction entries as [|e entries IH]; intros acc.
  - symmetry. apply app_nil_r.
  - cbn [fold_left flat_map]. rewrite IH, app_assoc. f_equal.
    unfold addGuides. destruct e as [b o].
    destruct (negb (visible o) || _ || _);
      [symmetry; apply app_nil_r|reflexivity].
Qed.

Lemma guidesOf_shape (document : AlignableDocument) (documentBounds : Rect)
  (object : Alignable) :
  let gs := guidesOf rotateRectangle document documentBounds object in
  (2 <= List.length gs <= 6)%nat /\
  forall g, In g gs ->
    (left g = 0 /\ width g = docWidth document /\ height g = 0) \/
    (top g = 0 /\ width g = 0 /\ height g = docHeight document).
Proof.
  cbv zeta. unfold guidesOf. cbv zeta.
  set (r := rotateRectangle (bounds object) (rotation object)).
  destruct (JsNumber.Qgt_bool (top r) 0);
    destruct (JsNumber.Qlt_bool (top r + height r) (height documentBounds));
    destruct (JsNumber.Qgt_bool (left r) 0);
    destruct (JsNumber.Qlt_bool (left r + width r) (width documentBounds));
    (split; [cbn [app List.length]; lia|]);
    intros g Hg; cbn [app In] in Hg;
    repeat (destruct Hg as [<- | Hg];
            [solve [left; repeat split; reflexivity
                   |right; repeat split; reflexivity]|]);
    contradiction.
Qed.

(** X27.  Every rectangle that [getAlignableObjects] returns is a guide line:
    it spans the width of the document at height zero, or the height of the
    document at width zero.  An object adds between two and six guides and
    an invisible layer none, so that hiding layers only removes guides;
    and the bounds of the document always add theirs, unless the layer to
    exclude has no id. *)
Theorem getAlignableObjects_guides (document : AlignableDocument)
  (excludeLayer : option Alignable) :
  match excludeLayer with
  | Some l => aid l <> None
  | None => True
  end ->
  let gs := getAlignableObjects areEqual rotateRectangle document
              excludeLayer in
  (forall g, In g gs ->
     (left g = 0 /\ width g = docWidth document /\ height g = 0) \/
     (top g = 0 /\ width g = 0 /\ height g = docHeight document)) /\
  (2 <= List.length gs <= 6 * (1 + List.length (layers document)))%nat /\
  gs = getAlignableObjects areEqual rotateRectangle
         {| docWidth := docWidth document; docHeight := docHeight document;
            layers := filter visible (layers document) |}
         excludeLayer.
Proof.
  intros Hx. cbv zeta. unfold getAlignableObjects. cbv zeta.
  cbn [docWidth docHeight layers].
  set (db := {| left := 0; top := 0; width := docWidth document;
                height := docHeight document |}).
  set (dobj := {| aid := None; bounds := db; visible := true;
                  rotation := None |}).
  rewrite !addGuides_fold. cbn [app flat_map].
  set (here := addGuides areEqual rotateRectangle document db excludeLayer []).
  assert (Hd : here (true, dobj) = guidesOf rotateRectangle document db dobj).
  { subst here. unfold addGuides. cbn [visible negb andb orb aid].
    destruct excludeLayer as [l|]; [|reflexivity].
    destruct (aid l); [reflexivity|contradiction]. }
  assert (He : forall e, (List.length (here e) <= 6)%nat /\
                         forall g, In g (here e) ->
                           (left g = 0 /\ width g = docWidth document /\
                            height g = 0) \/
                           (top g = 0 /\ width g = 0 /\
                            height g = docHeight document)).
  { intros [b o]. subst here. unfold addGuides.
    destruct (negb (visible o) || _ || _).
    - split; [cbn; lia|intros g []].
    - destruct (guidesOf_shape document db o) as (L & S).
      cbv zeta in L, S. cbn [app]. split; [lia|exact S]. }
  destruct (guidesOf_shape document db dobj) as (Ld & Sd).
  cbv zeta in Ld, Sd. rewrite <- Hd in Ld, Sd.
  split; [|split].
  - intros g Hg. apply in_app_or in Hg. destruct Hg as [Hg|Hg].
    + apply Sd. exact Hg.
    + apply in_flat_map in Hg. destruct Hg as (e & _ & Hg).
      apply (proj2 (He e)). exact Hg.
  - rewrite length_app.
    assert (Hl : forall es,
               (List.length (flat_map here es) <= 6 * List.length es)%nat).
    { induction es as [|e es IH]; [cbn; lia|].
      cbn [flat_map List.length]. rewrite length_app.
      pose proof (proj1 (He e)). lia. }
    specialize (Hl (map (fun l => (false, l)) (layers document))).
    rewrite length_map in Hl. lia.
  - f_equal.
    replace (addGuides areEqual rotateRectangle
               {| docWidth := docWidth document;
                  docHeight := docHeight document;
                  layers := filter visible (layers document) |}
               db excludeLayer [])
      with here by reflexivity.
    induction (layers document) as [|l ls IH]; [reflexivity|].
    cbn [map flat_map filter].
    destruct (visible l) eqn:V.
    + cbn [map flat_map]. rewrite IH. reflexivity.
    + rewrite <- IH.
      assert (Hn : here (false, l) = []).
      { subst here. unfold addGuides. rewrite V. reflexivity. }
      rewrite Hn. reflexivity.
Qed.

End AlignmentFacts.

(** A document of 100 by 80 pixels with one hidden layer and nothing
    excluded: the guides are those of the document bounds. *)
Lemma getAlignableObjects_guides_witness :
  let document :=
    {| docWidth := 100; docHeight := 80;
       layers := [{| aid := Some "layer_1"%string;
                     bounds := {| left := 10; top := 10;
                                  width := 20; height := 20 |};
                     visible := false; rotation := None |}] |} in
  let gs := getAlignableObjects (fun _ _ => false) (fun r _ => r)
              document None in
  (2 <= List.length gs <= 6 * (1 + 1))%nat.
Proof.
  exact (proj1 (proj2
           (@getAlignableObjects_guides (fun _ _ => false) (fun r _ => r)
              {| docWidth := 100; docHeight := 80;
                 layers := [{| aid := Some "layer_1"%string;
                               bounds := {| left := 10; top := 10;
                                            width := 20; height := 20 |};
                               visible := false; rotation := None |}] |}
              None I))).
Defined.

End DocumentUtilFacts.

(* ================================================================== *)
(** * Properties of the root store *)

Module RootStoreFacts.
Import RootStore.
Local Open Scope string_scope.

Section MutationFacts.

Variable i18n : option (string -> option string).

Lemma commit_keyboard (s : State) (m : Mutation) :
  keyboardSuspended s = truthy (modal s) ->
  keyboardSuspended (commit i18n s m) = truthy (modal (commit i18n s m)).
Proof. intros I. destruct m; cbn; solve [exact I | reflexivity]. Qed.

(** X28.  The keyboard service is suspended exactly while a modal with a
    name is open: if that is so at the start, it is so after every
    sequence of mutations.  Opening a modal raises the blind and suspends
    the keyboard if the name is not empty and lowers both if it is, and
    closing the modal undoes the opening, whatever was open before. *)
Theorem modal_suspends_keyboard (ms : list Mutation) (s : State)
  (modalName : option string) :
  keyboardSuspended s = truthy (modal s) ->
  let s' := commitAll i18n ms s in
  let o := commit i18n s' (OpenModal modalName) in
  keyboardSuspended s' = truthy (modal s') /\
  blindActive o = truthy modalName /\
  keyboardSuspended o = truthy modalName /\
  modal o = modalName /\
  commit i18n o CloseModal = commit i18n s' CloseModal /\
  keyboardSuspended (commit i18n o CloseModal) = false.
Proof.
  intros I. cbv zeta. split.
  - unfold commitAll. revert s I.
    induction ms as [|m ms IH]; intros s I; [exact I|].
    cbn [fold_left]. apply IH. apply commit_keyboard. exact I.
  - repeat split; reflexivity.
Qed.

Lemma commit_notifications (s : State) (m : Mutation) :
  keepsQueue m = true ->
  notifications (commit i18n s m) =
  app (notifications s) (notificationOf i18n m).
Proof.
  intros K. destruct m; cbn; try discriminate K;
    solve [symmetry; apply app_nil_r | reflexivity].
Qed.

(** X29.  Notifications queue up in the order in which they are shown:
    apart from [clearNotifications], which empties the queue, no mutation
    removes or reorders them, and only [showNotification] adds one.  A
    notification shown without a title, or with an empty one, gets the
    translation of "title.success", which is that key itself as long as no
    translations are installed. *)
Theorem notifications_queue (ms : list Mutation) (s : State)
  (message : string) :
  notifications (commitAll i18n (filter keepsQueue ms) s) =
    app (notifications s) (flat_map (notificationOf i18n) ms) /\
  notifications (commit i18n (commitAll i18n ms s) ClearNotifications) = [] /\
  notificationOf i18n (ShowNotification message None) =
    notificationOf i18n (ShowNotification message (Some "")) /\
  notificationOf None (ShowNotification message None) =
    [{| title := "title.success"; message := message |}].
Proof.
  split; [|repeat split; reflexivity].
  unfold commitAll. revert s.
  induction ms as [|m ms IH]; intros s.
  - symmetry. apply app_nil_r.
  - cbn [filter flat_map]. destruct (keepsQueue m) eqn:K.
    + cbn [fold_left]. rewrite IH, (commit_notifications s m K), app_assoc.
      reflexivity.
    + destruct m; try discriminate K. cbn [notificationOf app]. apply IH.
Qed.

End MutationFacts.

(** A few mutations of a new store, a modal being opened among them. *)
Lemma modal_suspends_keyboard_witness :
  let s' := commitAll None [SetMenuOpened true; OpenModal (Some "x");
                          SetBlindActive false] initialState in
  keyboardSuspended s' = truthy (modal s').
Proof.
  exact (proj1 (@modal_suspends_keyboard None
                  [SetMenuOpened true; OpenModal (Some "x");
                   SetBlindActive false] initialState None eq_refl)).
Defined.

End RootStoreFacts.

(* ================================================================== *)
(** * Properties of the preferences module *)

Module PreferencesFacts.
Import PreferencesModule.
Local Open Scope string_scope.

Section ActionFacts.

Variable parse : string -> option Payload.
Variable stringify : PreferenceValues -> string.

Lemma setPreferences_payloadOf (state p : PreferenceValues) :
  setPreferences state (payloadOf p) = p.
Proof. destruct p. reflexivity. Qed.

(** X30.  Preferences that were stored are restored as they were: if the
    stored item is the JSON of the preferences, [restorePreferences] sets
    every preference to its stored value, whatever the state it starts
    from, commits the snapping and anti-aliasing preferences to their own
    modules only if they are booleans, and hands the truth value of the
    filter preference to the render service.  Without a stored item, with
    an empty one or with one that does not parse, it changes nothing and
    commits nothing.  [setPreferences] gives each of the four preferences
    the value that its payload holds for it and keeps the preference where
    the payload holds none, and committing a payload twice is committing
    it once. *)
Theorem restore_after_store (state other : PreferenceValues) (p : Payload) :
  stringify state <> "" ->
  parse (stringify state) = Some (payloadOf state) ->
  restorePreferences parse (storePreferences stringify state) other =
    (state,
     app match snapAlign state with
         | JBool b => [CommitSetSnapAlign b]
         | JOther _ => []
         end
       (app match antiAlias state with
            | JBool b => [CommitSetAntiAlias b]
            | JOther _ => []
            end
          [SetWasmFilters (toBoolean (wasmFilters state))])) /\
  restorePreferences parse None other = (other, []) /\
  restorePreferences parse (Some "") other = (other, []) /\
  (forall text, parse text = None ->
     restorePreferences parse (Some text) other = (other, [])) /\
  setPreferences (setPreferences other p) p = setPreferences other p /\
  lowMemory (setPreferences other p) =
    match lowMemory' p with Some v => v | None => lowMemory other end /\
  wasmFilters (setPreferences other p) =
    match wasmFilters' p with Some v => v | None => wasmFilters other end /\
  snapAlign (setPreferences other p) =
    match snapAlign' p with Some v => v | None => snapAlign other end /\
  antiAlias (setPreferences other p) =
    match antiAlias' p with Some v => v | None => antiAlias other end.
Proof.
  intros Hn Hp.
  split; [|split; [reflexivity|split; [reflexivity|split; [|split]]]].
  - unfold restorePreferences, storePreferences.
    apply String.eqb_neq in Hn. rewrite Hn, Hp.
    rewrite setPreferences_payloadOf. cbn [payloadOf snapAlign' antiAlias'
      wasmFilters'].
    destruct (snapAlign state); destruct (antiAlias state); reflexivity.
  - intros text Ht. unfold restorePreferences.
    destruct (String.eqb text ""); [reflexivity|]. rewrite Ht. reflexivity.
  - unfold setPreferences. cbn.
    destruct (lowMemory' p), (wasmFilters' p), (snapAlign' p), (antiAlias' p);
      reflexivity.
  - repeat split.
Qed.

End ActionFacts.

(** The preferences of a new store on a desktop, stored and restored into
    a state in which snapping had been switched on. *)
Lemma restore_after_store_witness :
  let state := initialPreferences false in
  let other := {| lowMemory := JBool false; wasmFilters := JBool false;
                  snapAlign := JBool true; antiAlias := JBool true |} in
  restorePreferences (fun _ => Some (payloadOf state))
    (storePreferences (fun _ => "{}") state) other =
  (state,
   [CommitSetSnapAlign false; CommitSetAntiAlias true;
    SetWasmFilters false]).
Proof.
  assert (N : (fun _ : PreferenceValues => "{}") (initialPreferences false)
              <> "")
    by discriminate.
  exact (proj1
           (@restore_after_store
              (fun _ => Some (payloadOf (initialPreferences false)))
              (fun _ => "{}") (initialPreferences false)
              {| lowMemory := JBool false; wasmFilters := JBool false;
                 snapAlign := JBool true; antiAlias := JBool true |}
              (payloadOf (initialPreferences false)) N eq_refl)).
Defined.

End PreferencesFacts.

